(** * GenTensor: a tensor handle over a dense or a low-rank backend

    A shallow embedding of [src/lib/mra/_sepreptensor.h] (MADNESS): the
    handle [GenTensor<T>], the slice proxy [SliceGenTensor<T>], the abstract
    backend [SepRepTensor<T>] with its two implementations [FullTensor<T>]
    and [LowRankTensor<T>], and the conversions [to_full_rank] and
    [to_low_rank].

    The header is written against two primitives that live in other files
    ([tensor/tensor.h] and [mra/seprep.h]).  The dense array [Tensor<T>] is
    given a small executable model with shared element buffers, because the
    handle's shallow and deep copies are statements about that sharing.  The
    separated representation [SepRep<T>] is kept abstract: an interface whose
    operations are pure functions on the value held by a backend.

    Not embedded: the basis transforms ([transform], [general_transform],
    [transform_dir]), [fillrandom], [serialize], the
    accumulation into a raw [Tensor<T>], and what [print] writes. *)

From Stdlib Require Import ZArith List Bool Lia String.
From stdpp Require Import base option list gmap.

Local Open Scope Z_scope.

(** ** Scalars *)

(** Modelled from the spec: the representation kind of a tensor (none,
    full, low-rank 2D, low-rank 3D).  The enumeration [TensorType] is
    declared in another header; the four constants carry the names this
    header uses. *)
Inductive TensorType : Type := TT_NONE | TT_3D | TT_2D | TT_FULL.

#[global] Instance TensorType_eq_dec : EqDecision TensorType.
Proof. solve_decision. Defined.

(** The element type [T] of the template and the type [double] of the
    factors and thresholds.  Their arithmetic is the machine's; the model
    only names the operations the header calls. *)
Class Scalar (T Dbl : Type) : Type := {
  tadd : T -> T -> T;
  tmul : T -> T -> T;
  tconj : T -> T;
  tzero : T;
  of_double : Dbl -> T;          (* the implicit conversion double -> T *)
  dbl_zero : Dbl;                (* 0.0 *)
  dbl_one : Dbl;                 (* 1.0 *)
  dbl_neg_one : Dbl;             (* -1.0 *)
  dbl_pos : Dbl -> bool;         (* x > 0.0 *)
  dbl_is_zero : Dbl -> bool;     (* x == 0.0 *)
  dbl_sqrt_sum : list T -> Dbl   (* the Frobenius norm of a list of elements *)
}.

(** ** Slices *)

(** [Slice(start,end,step)]; [Slice(_)] selects a whole dimension. *)
Record Slice : Type := mkSlice { s_start : Z; s_end : Z; s_step : Z }.

Definition Slice_all : Slice := mkSlice 0 (-1) 1.

(** Modelled from the spec: the slice arithmetic belongs to the dense
    array of [tensor/tensor.h], not to this header.  A slice is the triple
    (start, stop, step) of the specification; negative bounds
    count from the end of the dimension, the stop is inclusive, and a slice
    that leaves the dimension or is empty is refused.  The result is the
    first index, the number of selected indices and the step. *)
Definition resolve_slice (s : Slice) (d : nat) : option (Z * nat * Z) :=
  let st := if s_start s <? 0 then s_start s + Z.of_nat d else s_start s in
  let en := if s_end s <? 0 then s_end s + Z.of_nat d else s_end s in
  let len := en - st + 1 in
  let len := if s_step s =? 0 then len else Z.quot len (s_step s) in
  let en' := st + (len - 1) * s_step s in
  if (0 <=? st) && (st <? Z.of_nat d) && (0 <=? en') && (en' <? Z.of_nat d)
     && (0 <? len)
  then Some (st, Z.to_nat len, s_step s)
  else None.

(** ** The dense array [Tensor<T>] *)

(** Modelled from the spec: the dense array primitive ("Dense Array ...
    supporting copy, scale, in-place generalized saxpy, slicing").  A
    [Tensor] value is a view: a shared pointer to an element buffer, an
    offset, and per dimension an extent and a stride.  Assigning a [Tensor]
    copies the view and shares the buffer; [copy] allocates a new buffer.
    [t_p = None] is the default-constructed tensor, which has no elements. *)
Record Tensor : Type := mkTensor {
  t_p : option nat;
  t_off : Z;
  t_shape : list (nat * Z)
}.

Definition Tensor_default : Tensor := mkTensor None 0 [].

Definition t_dims (t : Tensor) : list nat := map fst (t_shape t).

Fixpoint product (ds : list nat) : nat :=
  match ds with
  | [] => 1%nat
  | d :: ds' => (d * product ds')%nat
  end.

(** Modelled from the spec: row-major strides of a newly allocated
    tensor. *)
Fixpoint contiguous_shape (ds : list nat) : list (nat * Z) :=
  match ds with
  | [] => []
  | d :: ds' => (d, Z.of_nat (product ds')) :: contiguous_shape ds'
  end.

(** Modelled from the spec: the buffer offsets a view addresses, in
    row-major order. *)
Fixpoint offsets (off : Z) (sh : list (nat * Z)) : list Z :=
  match sh with
  | [] => [off]
  | (d, st) :: sh' =>
      flat_map (fun i => offsets (off + Z.of_nat i * st) sh') (seq 0 d)
  end.

(** Modelled from the spec: [t.size()], the number of elements; the
    default tensor is the empty one and has none. *)
Definition Tensor_size (t : Tensor) : Z :=
  match t_p t with
  | None => 0
  | Some _ => Z.of_nat (product (t_dims t))
  end.

(** Modelled from the spec: [t.ndim()], the number of dimensions.  Neither
    the header nor the specification gives the value for the default
    tensor; -1 is taken, the value the handle reports when it has no
    backend, and no statement below rests on it. *)
Definition Tensor_ndim (t : Tensor) : Z :=
  match t_p t with
  | None => -1
  | Some _ => Z.of_nat (length (t_shape t))
  end.

(** Modelled from the spec: [t.dim(i)]. *)
Definition Tensor_dim (t : Tensor) (i : Z) : Z :=
  if i <? 0 then 0 else Z.of_nat (nth (Z.to_nat i) (t_dims t) 0%nat).

(** Modelled from the spec: [t.iscontiguous()]. *)
Definition Tensor_iscontiguous (t : Tensor) : bool :=
  bool_decide (t_shape t = contiguous_shape (t_dims t)).

(** Modelled from the spec: the offsets the elements of [t] occupy. *)
Definition Tensor_offsets (t : Tensor) : list Z :=
  match t_p t with
  | None => []
  | Some _ => offsets (t_off t) (t_shape t)
  end.

(** Modelled from the spec: the view [t(s)] of the dense array, one slice
    per dimension, on the same buffer. *)
Fixpoint slice_shape (off : Z) (sh : list (nat * Z)) (ss : list Slice)
  : option (Z * list (nat * Z)) :=
  match sh, ss with
  | [], [] => Some (off, [])
  | (d, st) :: sh', s :: ss' =>
      match resolve_slice s d with
      | Some (first, len, stp) =>
          match slice_shape (off + first * st) sh' ss' with
          | Some (off', sh'') => Some (off', (len, stp * st) :: sh'')
          | None => None
          end
      | None => None
      end
  | _, _ => None
  end.

(** Modelled from the spec: [t(s)]; the default tensor cannot be sliced. *)
Definition Tensor_slice (t : Tensor) (ss : list Slice) : option Tensor :=
  match t_p t with
  | None => None
  | Some b =>
      match slice_shape (t_off t) (t_shape t) ss with
      | Some (off', sh') => Some (mkTensor (Some b) off' sh')
      | None => None
      end
  end.

(** Modelled from the spec: [t.swapdim(i,j)], the same buffer seen with two
    dimensions exchanged. *)
Definition Tensor_swapdim (t : Tensor) (i j : Z) : option Tensor :=
  if (0 <=? i) && (0 <=? j) then
    match t_shape t !! Z.to_nat i, t_shape t !! Z.to_nat j with
    | Some di, Some dj =>
        Some (mkTensor (t_p t) (t_off t)
                (<[Z.to_nat j := di]> (<[Z.to_nat i := dj]> (t_shape t))))
    | _, _ => None
    end
  else None.

(** ** The separated representation [SepRep<T>] *)

(** Modelled from the spec: the low-rank factorisation engine ("treated as a
    given type with these primitives").  [SR] is the value a
    [LowRankTensor] holds in its field [_data]; every member function the
    header calls is a pure function on that value, partial where the
    primitive may refuse its arguments.  A dense argument or result is a
    pair of extents and row-major elements. *)
Class SepRep (T Dbl SR : Type) : Type := {
  sr_new : TensorType -> SR;                        (* SepRep<T>(tt) *)
  sr_new_dim : TensorType -> Z -> Z -> SR;          (* SepRep<T>(tt,k,ndim) *)
  sr_of_tensor : list nat -> list T -> Dbl -> TensorType -> option SR;
                                                    (* SepRep<T>(t,eps,tt) *)
  sr_copy : SR -> SR;                               (* copy(sr) *)
  sr_slice : SR -> list Slice -> option SR;         (* sr(s) *)
  sr_tensor_type : SR -> TensorType;
  sr_is_valid : SR -> bool;
  sr_nCoeff : SR -> Z;
  sr_get_k : SR -> Z;
  sr_dim : SR -> Z;
  sr_rank : SR -> Z;
  sr_reduceRank : Dbl -> SR -> SR;
  sr_scale : T -> SR -> SR;
  sr_inplace_add : SR -> SR -> list Slice -> list Slice -> Dbl -> Dbl -> option SR;
  sr_accumulate_into : SR -> SR -> Dbl -> option SR; (* source, target, fac *)
  sr_update_by : SR -> SR -> option SR;
  sr_finalize_accumulate : SR -> SR;
  sr_reconstructTensor : SR -> option (list nat * list T);
  sr_overlap : SR -> SR -> T;
  sr_FrobeniusNorm : SR -> Dbl
}.

(** ** Failures *)

(** How a call ends when it does not return: a failed [MADNESS_ASSERT], a
    thrown exception, or undefined behaviour of the C++ program (a null
    pointer dereferenced, a primitive used outside its domain). *)
Inductive Failure : Type :=
  | AssertTypeMismatch      (* MADNESS_ASSERT(this->type()==rhs->type()) *)
  | AssertNdimMismatch      (* MADNESS_ASSERT(this->ndim()==rhs->ndim()) *)
  | AssertZero              (* MADNESS_ASSERT(0) *)
  | AssertThreshPositive    (* MADNESS_ASSERT(eps>0.0) *)
  | AssertNumberIsZero      (* MADNESS_ASSERT(number==0.0) *)
  | AssertIsValid           (* MADNESS_ASSERT(_data.is_valid()) *)
  | MadnessException (msg : string)
  | RuntimeError (msg : string)
  | NullDereference         (* use of a null shared_ptr or failed dynamic_cast *)
  | BadLength               (* std::vector<Slice> of negative length *)
  | PrimitiveFailure        (* refused by Tensor<T> or SepRep<T> *)
  | NoSuchObject.           (* an address that was never allocated *)

Section Model.

Context {T Dbl SR : Type} `{!Scalar T Dbl} `{!SepRep T Dbl SR}.

(** ** The store *)

(** The two implementations of the abstract class [SepRepTensor<T>]. *)
Inductive SepRepTensor : Type :=
  | FullTensor (data : Tensor)
  | LowRankTensor (_data : SR).

(** [handles] maps every [GenTensor] object to its field [_ptr] (a
    [shared_ptr], [None] when null); [objects] holds the backends allocated
    with [new]; [buffers] holds the element storage the dense tensors share.
    Destruction is not modelled: when a [shared_ptr] is overwritten or
    reset, the backend it released stays in the store, and so does its
    buffer, where no operation reaches them.  What the statements below
    say of a store is to be read of the handles and of what they reach,
    not of a backend after its last owner released it. *)
Record State : Type := mkState {
  handles : gmap nat (option nat);
  objects : gmap nat SepRepTensor;
  buffers : gmap nat (list T)
}.

Inductive Outcome (A : Type) : Type :=
  | Done (a : A) (σ : State)
  | Failed (e : Failure) (σ : State).
#[global] Arguments Done {A} a σ.
#[global] Arguments Failed {A} e σ.

Definition final {A} (r : Outcome A) : State :=
  match r with Done _ σ => σ | Failed _ σ => σ end.

(** Computations: state passing with failure; a failure keeps the state
    reached when it was raised. *)
Definition M (A : Type) : Type := State -> Outcome A.

Definition ret {A} (a : A) : M A := fun σ => Done a σ.

Definition bind {A B} (m : M A) (f : A -> M B) : M B :=
  fun σ => match m σ with
           | Done a σ' => f a σ'
           | Failed e σ' => Failed e σ'
           end.

Definition fail {A} (e : Failure) : M A := fun σ => Failed e σ.

(** [MADNESS_ASSERT(c)]: the macro is defined outside the header; a
    condition that does not hold ends the call at once (the failure policy
    of the library: a violated precondition is fatal to the call). *)
Definition MADNESS_ASSERT (c : bool) (e : Failure) : M unit :=
  if c then ret tt else fail e.

(** A primitive that refuses its arguments. *)
Definition lift {A} (e : Failure) (o : option A) : M A :=
  match o with Some a => ret a | None => fail e end.

End Model.

Declare Scope prog_scope.
Delimit Scope prog_scope with prog.
Notation "'let*' x := c 'in' k" := (bind c (fun x => k))
  (at level 10, x name, c at level 100, k at level 200) : prog_scope.
Notation "'let*' ' p := c 'in' k" := (bind c (fun p => k))
  (at level 10, p strict pattern, c at level 100, k at level 200) : prog_scope.
Notation "c ;;; k" := (bind c (fun _ => k))
  (at level 100, k at level 200, right associativity) : prog_scope.


(** * A reference instance: integer elements, exact factors

    The statements below hold for every element type and every separated
    representation.  To run them, elements and factors are taken in [Z] and
    the separated representation is the one that keeps every element (its
    factorisation loses nothing). *)

Module Reference.

#[export] Instance Z_Scalar : Scalar Z Z := {|
  tadd := Z.add;
  tmul := Z.mul;
  tconj := fun x => x;
  tzero := 0;
  of_double := fun x => x;
  dbl_zero := 0;
  dbl_one := 1;
  dbl_neg_one := -1;
  dbl_pos := fun x => 0 <? x;
  dbl_is_zero := fun x => x =? 0;
  dbl_sqrt_sum := fun l => Z.sqrt (fold_left Z.add (map (fun x => x * x) l) 0)
|}.

Record ExactSR : Type := mkExactSR {
  x_tt : TensorType;
  x_dims : option (list nat);       (* [None]: not valid, no data *)
  x_vals : list Z
}.

Definition x_offsets (ds : list nat) (ss : list Slice) : option (list nat * list Z) :=
  match slice_shape 0 (contiguous_shape ds) ss with
  | Some (off, sh) => Some (map fst sh, offsets off sh)
  | None => None
  end.

Definition x_read (l : list Z) (ps : list Z) : option (list Z) :=
  mapM (fun p => if 0 <=? p then l !! Z.to_nat p else None) ps.

Fixpoint x_add (l : list Z) (ps : list Z) (ys : list Z) (alpha beta : Z)
  : list Z :=
  match ps, ys with
  | p :: ps', y :: ys' =>
      x_add (alter (fun x => alpha * x + beta * y) (Z.to_nat p) l) ps' ys' alpha beta
  | _, _ => l
  end.

Definition x_inplace_add (d r : ExactSR) (ls rs : list Slice) (alpha beta : Z)
  : option ExactSR :=
  match x_dims d, x_dims r with
  | Some dd, Some dr =>
      match x_offsets dd ls, x_offsets dr rs with
      | Some (sd, ps), Some (sr, qs) =>
          if bool_decide (sd = sr) then
            match x_read (x_vals r) qs with
            | Some ys => Some (mkExactSR (x_tt d) (Some dd)
                                 (x_add (x_vals d) ps ys alpha beta))
            | None => None
            end
          else None
      | _, _ => None
      end
  | _, _ => None
  end.

Definition x_all (ds : list nat) : list Slice := replicate (length ds) Slice_all.

#[export] Instance Exact_SepRep : SepRep Z Z ExactSR := {|
  sr_new := fun tt => mkExactSR tt None [];
  sr_new_dim := fun tt k n =>
    let ds := replicate (Z.to_nat n) (Z.to_nat k) in
    mkExactSR tt (Some ds) (replicate (product ds) 0);
  sr_of_tensor := fun ds l eps tt => Some (mkExactSR tt (Some ds) l);
  sr_copy := fun d => d;
  sr_slice := fun d ss =>
    match x_dims d with
    | Some ds =>
        match x_offsets ds ss with
        | Some (sd, ps) =>
            match x_read (x_vals d) ps with
            | Some l => Some (mkExactSR (x_tt d) (Some sd) l)
            | None => None
            end
        | None => None
        end
    | None => None
    end;
  sr_tensor_type := x_tt;
  sr_is_valid := fun d => bool_decide (is_Some (x_dims d));
  sr_nCoeff := fun d => Z.of_nat (length (x_vals d));
  sr_get_k := fun d => Z.of_nat (hd 0%nat (default [] (x_dims d)));
  sr_dim := fun d => match x_dims d with
                     | Some ds => Z.of_nat (length ds)
                     | None => -1
                     end;
  sr_rank := fun d => if forallb (Z.eqb 0) (x_vals d) then 0 else 1;
  sr_reduceRank := fun eps d => d;
  sr_scale := fun a d => mkExactSR (x_tt d) (x_dims d) (map (fun x => x * a) (x_vals d));
  sr_inplace_add := x_inplace_add;
  sr_accumulate_into := fun src tgt fac =>
    match x_dims src, x_dims tgt with
    | Some ds, Some dt => x_inplace_add tgt src (x_all dt) (x_all ds) 1 fac
    | _, _ => None
    end;
  sr_update_by := fun d r =>
    match x_dims d, x_dims r with
    | Some dd, Some dr => x_inplace_add d r (x_all dd) (x_all dr) 1 1
    | _, _ => None
    end;
  sr_finalize_accumulate := fun d => d;
  sr_reconstructTensor := fun d =>
    match x_dims d with
    | Some ds => Some (ds, x_vals d)
    | None => None
    end;
  sr_overlap := fun d r => fold_left Z.add (zip_with Z.mul (x_vals d) (x_vals r)) 0;
  sr_FrobeniusNorm := fun d => dbl_sqrt_sum (x_vals d)
|}.


(** A store with three handles: handle 0 on a dense vector (1, 2), handle 1
    on a low-rank tensor of kind [TT_3D], handle 2 empty. *)
Definition σ_mixed : @State Z ExactSR :=
  mkState
    {[ 0%nat := Some 0%nat; 1%nat := Some 1%nat; 2%nat := None ]}
    {[ 0%nat := FullTensor (mkTensor (Some 0%nat) 0 [(2%nat, 1)]);
       1%nat := LowRankTensor (mkExactSR TT_3D (Some [2%nat]) [5; 6]) ]}
    {[ 0%nat := [1; 2] ]}.

(** A store with one handle on a valid low-rank tensor of kind [TT_2D]. *)
Definition d_2D : ExactSR := mkExactSR TT_2D (Some [2%nat; 2%nat]) [1; 2; 3; 4].

Definition σ_2D : @State Z ExactSR :=
  mkState {[ 0%nat := Some 0%nat ]} {[ 0%nat := LowRankTensor d_2D ]} ∅.

(** A store with one handle on the dense vector (1, 2, 3, 4). *)
Definition σ_vec : @State Z ExactSR :=
  mkState
    {[ 0%nat := Some 0%nat ]}
    {[ 0%nat := FullTensor (mkTensor (Some 0%nat) 0 [(4%nat, 1)]) ]}
    {[ 0%nat := [1; 2; 3; 4] ]}.

(** A store with two dense vectors on buffers of their own, (1, 2) behind
    handles 0 and 2 and (10, 20) behind handle 1. *)
Definition t_left : Tensor := mkTensor (Some 0%nat) 0 [(2%nat, 1)].
Definition t_right : Tensor := mkTensor (Some 1%nat) 0 [(2%nat, 1)].

Definition σ_pair : @State Z ExactSR :=
  mkState
    {[ 0%nat := Some 0%nat; 1%nat := Some 1%nat; 2%nat := Some 0%nat ]}
    {[ 0%nat := FullTensor t_left; 1%nat := FullTensor t_right ]}
    {[ 0%nat := [1; 2]; 1%nat := [10; 20] ]}.

(** A store with two low-rank tensors, of kind [TT_3D] behind handle 0 and
    of kind [TT_2D] behind handle 1. *)
Definition d_3D : ExactSR := mkExactSR TT_3D (Some [2%nat]) [5; 6].
Definition d_2D_vec : ExactSR := mkExactSR TT_2D (Some [2%nat]) [7; 8].

Definition σ_low : @State Z ExactSR :=
  mkState {[ 0%nat := Some 0%nat; 1%nat := Some 1%nat ]}
          {[ 0%nat := LowRankTensor d_3D; 1%nat := LowRankTensor d_2D_vec ]} ∅.

End Reference.
Section Operations.

Context {T Dbl SR : Type} `{!Scalar T Dbl} `{!SepRep T Dbl SR}.

#[local] Abbreviation State := (@State T SR).
#[local] Abbreviation M := (@M T SR).
#[local] Abbreviation SepRepTensor := (@SepRepTensor SR).

Local Open Scope prog_scope.

(** *** Element buffers *)

Definition buf_get (B : gmap nat (list T)) (b : nat) (p : Z) : option T :=
  match B !! b with
  | Some l => if 0 <=? p then l !! Z.to_nat p else None
  | None => None
  end.

Definition buf_set (B : gmap nat (list T)) (b : nat) (p : Z) (x : T)
  : option (gmap nat (list T)) :=
  match B !! b with
  | Some l =>
      if (0 <=? p) && (p <? Z.of_nat (length l))
      then Some (<[b := <[Z.to_nat p := x]> l]> B)
      else None
  | None => None
  end.

(** The loop [for each element: x = f(x)] over the offsets of a view. *)
Fixpoint map_inplace (f : T -> T) (B : gmap nat (list T)) (b : nat)
    (ps : list Z) : option (gmap nat (list T)) :=
  match ps with
  | [] => Some B
  | p :: ps' =>
      match buf_get B b p with
      | Some x =>
          match buf_set B b p (f x) with
          | Some B' => map_inplace f B' b ps'
          | None => None
          end
      | None => None
      end
  end.

(** The loop [for each element: x = f(x,y)] over two views of equal shape;
    the views may address the same buffer. *)
Fixpoint zip_inplace (f : T -> T -> T) (B : gmap nat (list T))
    (bt bo : nat) (ps qs : list Z) : option (gmap nat (list T)) :=
  match ps, qs with
  | p :: ps', q :: qs' =>
      match buf_get B bt p, buf_get B bo q with
      | Some x, Some y =>
          match buf_set B bt p (f x y) with
          | Some B' => zip_inplace f B' bt bo ps' qs'
          | None => None
          end
      | _, _ => None
      end
  | _, _ => Some B
  end.

Definition read_list (l : list T) (ps : list Z) : option (list T) :=
  mapM (fun p => if 0 <=? p then l !! Z.to_nat p else None) ps.

Definition read_offsets (B : gmap nat (list T)) (b : nat) (ps : list Z)
  : option (list T) :=
  match B !! b with
  | Some l => read_list l ps
  | None => None
  end.

(** Modelled from the spec: the extents [t.dim(i)], none for the default
    tensor. *)
Definition Tensor_dims (t : Tensor) : list nat :=
  match t_p t with
  | None => []
  | Some _ => t_dims t
  end.

(** Modelled from the spec: the elements of a tensor, in row-major order. *)
Definition Tensor_read (σ : State) (t : Tensor) : option (list T) :=
  match t_p t with
  | None => Some []
  | Some b => read_offsets (buffers σ) b (offsets (t_off t) (t_shape t))
  end.

Definition set_buffers (B : gmap nat (list T)) (σ : State) : State :=
  mkState (handles σ) (objects σ) B.

Definition new_buffer (l : list T) : M nat :=
  fun σ => let b := fresh (dom (buffers σ)) in
           Done b (set_buffers (<[b := l]> (buffers σ)) σ).

(** Modelled from the spec: [Tensor<T>(dims)], the tensor of the
    "dimensioned-empty" construction.  Neither the header nor the
    specification says what its elements are or which dimensions the
    constructor refuses; the elements are taken as zeros and every list of
    extents as accepted, and no statement below rests on either. *)
Definition Tensor_new (ds : list nat) : M Tensor :=
  let* b := new_buffer (replicate (product ds) tzero) in
  ret (mkTensor (Some b) 0 (contiguous_shape ds)).

(** Modelled from the spec: a new contiguous tensor holding the given
    elements. *)
Definition Tensor_of_elements (ds : list nat) (l : list T) : M Tensor :=
  let* b := new_buffer l in
  ret (mkTensor (Some b) 0 (contiguous_shape ds)).

(** Modelled from the spec: [copy(t)], a deep copy into a new contiguous
    buffer; the copy of a tensor without elements is the default tensor. *)
Definition Tensor_copy (t : Tensor) : M Tensor :=
  match t_p t with
  | None => ret Tensor_default
  | Some _ =>
      fun σ => match Tensor_read σ t with
               | Some l => Tensor_of_elements (t_dims t) l σ
               | None => Failed PrimitiveFailure σ
               end
  end.

(** Modelled from the spec: an in-place loop over the buffer of [t]. *)
Definition Tensor_update (t : Tensor)
    (loop : gmap nat (list T) -> nat -> option (gmap nat (list T))) : M unit :=
  match t_p t with
  | None => ret tt
  | Some b =>
      fun σ => match loop (buffers σ) b with
               | Some B' => Done tt (set_buffers B' σ)
               | None => Failed PrimitiveFailure σ
               end
  end.

(** Modelled from the spec: [t *= a] (scale). *)
Definition Tensor_scale (t : Tensor) (a : T) : M unit :=
  Tensor_update t (fun B b => map_inplace (fun x => tmul x a) B b (Tensor_offsets t)).

(** Modelled from the spec: the dense array combines two tensors only when
    their extents agree. *)
Definition conforms (t o : Tensor) : bool :=
  bool_decide (t_dims t = t_dims o) &&
  match t_p t, t_p o with
  | Some _, Some _ | None, None => true
  | _, _ => false
  end.

(** Modelled from the spec: an element-wise in-place combination. *)
Definition Tensor_zip (f : T -> T -> T) (t o : Tensor) : M unit :=
  if conforms t o then
    match t_p o with
    | Some bo =>
        Tensor_update t (fun B b =>
          zip_inplace f B b bo (Tensor_offsets t) (Tensor_offsets o))
    | None => ret tt
    end
  else fail PrimitiveFailure.

(** Modelled from the spec: [t.gaxpy(alpha,o,beta)], the in-place
    generalized saxpy t = t*alpha + o*beta. *)
Definition Tensor_gaxpy (t : Tensor) (alpha : Dbl) (o : Tensor) (beta : Dbl)
  : M unit :=
  Tensor_zip (fun x y => tadd (tmul x (of_double alpha)) (tmul y (of_double beta))) t o.

(** Modelled from the spec: [t += o]. *)
Definition Tensor_iadd (t o : Tensor) : M unit := Tensor_zip tadd t o.

(** Modelled from the spec: [t.trace_conj(o)], the sum of conj(t_i) * o_i. *)
Definition Tensor_trace_conj (t o : Tensor) : M T :=
  fun σ =>
    if conforms t o then
      match Tensor_read σ t, Tensor_read σ o with
      | Some l, Some r =>
          Done (fold_left tadd (zip_with (fun x y => tmul (tconj x) y) l r) tzero) σ
      | _, _ => Failed PrimitiveFailure σ
      end
    else Failed PrimitiveFailure σ.

(** Modelled from the spec: [t.normf()], the Frobenius norm. *)
Definition Tensor_normf (t : Tensor) : M Dbl :=
  fun σ => match Tensor_read σ t with
           | Some l => Done (dbl_sqrt_sum l) σ
           | None => Failed PrimitiveFailure σ
           end.

(** ** Allocation and pointers *)

Definition new_object (o : SepRepTensor) : M nat :=
  fun σ => let a := fresh (dom (objects σ)) in
           Done a (mkState (handles σ) (<[a := o]> (objects σ)) (buffers σ)).

Definition new_handle (p : option nat) : M nat :=
  fun σ => let g := fresh (dom (handles σ)) in
           Done g (mkState (<[g := p]> (handles σ)) (objects σ) (buffers σ)).

(** The field [_ptr] of the handle [g]. *)
Definition get_ptr (g : nat) : M (option nat) :=
  fun σ => match handles σ !! g with
           | Some p => Done p σ
           | None => Failed NoSuchObject σ
           end.

Definition set_ptr (g : nat) (p : option nat) : M unit :=
  fun σ => match handles σ !! g with
           | Some _ => Done tt (mkState (<[g := p]> (handles σ)) (objects σ) (buffers σ))
           | None => Failed NoSuchObject σ
           end.

Definition load (a : nat) : M SepRepTensor :=
  fun σ => match objects σ !! a with
           | Some o => Done o σ
           | None => Failed NoSuchObject σ
           end.

Definition store (a : nat) (o : SepRepTensor) : M unit :=
  fun σ => match objects σ !! a with
           | Some _ => Done tt (mkState (handles σ) (<[a := o]> (objects σ)) (buffers σ))
           | None => Failed NoSuchObject σ
           end.

(** [p->...]: the object a pointer refers to. *)
Definition deref (p : option nat) : M (nat * SepRepTensor) :=
  match p with
  | None => fail NullDereference
  | Some a => let* o := load a in ret (a, o)
  end.

(** [dynamic_cast<const FullTensor<T>*>(rhs)->data] *)
Definition as_FullTensor (rhs : option nat) : M Tensor :=
  let* '(_, o) := deref rhs in
  match o with
  | FullTensor t => ret t
  | LowRankTensor _ => fail NullDereference
  end.

(** [dynamic_cast<const LowRankTensor<T>*>(rhs)->_data] *)
Definition as_LowRankTensor (rhs : option nat) : M (nat * SR) :=
  let* '(a, o) := deref rhs in
  match o with
  | LowRankTensor d => ret (a, d)
  | FullTensor _ => fail NullDereference
  end.

(** [std::vector<Slice> s(n,Slice(_))] *)
Definition full_slices (n : Z) : M (list Slice) :=
  if n <? 0 then fail BadLength else ret (replicate (Z.to_nat n) Slice_all).

(** ** The backends: [FullTensor<T>] and [LowRankTensor<T>] *)

Definition SepRepTensor_type (o : SepRepTensor) : TensorType :=
  match o with
  | FullTensor _ => TT_FULL
  | LowRankTensor d => sr_tensor_type d
  end.

Definition SepRepTensor_has_data (o : SepRepTensor) : bool :=
  match o with
  | FullTensor t => negb (Tensor_size t =? 0)
  | LowRankTensor d => sr_is_valid d
  end.

Definition SepRepTensor_size (o : SepRepTensor) : Z :=
  match o with
  | FullTensor t => Tensor_size t
  | LowRankTensor d => if negb (sr_is_valid d) then 0 else sr_nCoeff d
  end.

Definition SepRepTensor_ndim (o : SepRepTensor) : Z :=
  match o with
  | FullTensor t => Tensor_ndim t
  | LowRankTensor d => sr_dim d
  end.

Definition SepRepTensor_dim (o : SepRepTensor) (i : Z) : Z :=
  match o with
  | FullTensor t => Tensor_dim t i
  | LowRankTensor d => sr_get_k d
  end.

Definition SepRepTensor_rank (o : SepRepTensor) : Z :=
  match o with
  | FullTensor _ => -1
  | LowRankTensor d => sr_rank d
  end.

(** [MADNESS_ASSERT(this->type()==rhs->type())] on a raw pointer [rhs]. *)
Definition assert_same_type (o : SepRepTensor) (rhs : option nat) : M unit :=
  let* '(_, o2) := deref rhs in
  MADNESS_ASSERT (bool_decide (SepRepTensor_type o = SepRepTensor_type o2))
    AssertTypeMismatch.

Definition SepRepTensor_gaxpy (a : nat) (alpha : Dbl) (rhs : option nat)
    (beta : Dbl) : M unit :=
  let* o := load a in
  match o with
  | FullTensor data =>
      assert_same_type o rhs ;;;
      let* t := as_FullTensor rhs in
      Tensor_gaxpy data alpha t beta
  | LowRankTensor _data =>
      assert_same_type o rhs ;;;
      let* '(_, o2) := deref rhs in
      MADNESS_ASSERT (SepRepTensor_ndim o =? SepRepTensor_ndim o2)
        AssertNdimMismatch ;;;
      let* '(_, t) := as_LowRankTensor rhs in
      let* s := full_slices (SepRepTensor_ndim o) in
      let* d := lift PrimitiveFailure (sr_inplace_add _data t s s alpha beta) in
      store a (LowRankTensor d)
  end.

(** [accumulate_into(SepRepTensor<T>* rhs, fac)]: rhs += fac * this *)
Definition SepRepTensor_accumulate_into (a : nat) (rhs : option nat)
    (fac : Dbl) : M unit :=
  let* o := load a in
  match o with
  | FullTensor data =>
      assert_same_type o rhs ;;;
      let* t := as_FullTensor rhs in
      Tensor_gaxpy t dbl_one data fac
  | LowRankTensor _data =>
      let* '(a2, other) := as_LowRankTensor rhs in
      let* d := lift PrimitiveFailure (sr_accumulate_into _data other fac) in
      store a2 (LowRankTensor d)
  end.

(** [inplace_add(rhs, lhs_s, rhs_s)]: this(lhs_s) += rhs(rhs_s) *)
Definition SepRepTensor_inplace_add (a : nat) (rhs : option nat)
    (lhs_s rhs_s : list Slice) : M unit :=
  let* o := load a in
  match o with
  | FullTensor data =>
      assert_same_type o rhs ;;;
      let* rhs2 := as_FullTensor rhs in
      let* l := lift PrimitiveFailure (Tensor_slice data lhs_s) in
      let* r := lift PrimitiveFailure (Tensor_slice rhs2 rhs_s) in
      Tensor_iadd l r
  | LowRankTensor _data =>
      assert_same_type o rhs ;;;
      let* '(_, rhs2) := as_LowRankTensor rhs in
      let* d := lift PrimitiveFailure
                  (sr_inplace_add _data rhs2 lhs_s rhs_s dbl_one dbl_one) in
      store a (LowRankTensor d)
  end.

Definition SepRepTensor_update_by (a : nat) (rhs : option nat) : M unit :=
  let* o := load a in
  match o with
  | FullTensor data =>
      assert_same_type o rhs ;;;
      let* rhs2 := as_FullTensor rhs in
      Tensor_iadd data rhs2
  | LowRankTensor _data =>
      assert_same_type o rhs ;;;
      let* '(_, rhs2) := as_LowRankTensor rhs in
      let* d := lift PrimitiveFailure (sr_update_by _data rhs2) in
      store a (LowRankTensor d)
  end.

Definition SepRepTensor_finalize_accumulate (a : nat) : M unit :=
  let* o := load a in
  match o with
  | FullTensor _ => ret tt
  | LowRankTensor _data => store a (LowRankTensor (sr_finalize_accumulate _data))
  end.

Definition SepRepTensor_reduceRank (a : nat) (eps : Dbl) : M unit :=
  let* o := load a in
  match o with
  | FullTensor _ => ret tt
  | LowRankTensor _data => store a (LowRankTensor (sr_reduceRank eps _data))
  end.

Definition SepRepTensor_scale (a : nat) (x : T) : M unit :=
  let* o := load a in
  match o with
  | FullTensor data => Tensor_scale data x
  | LowRankTensor _data => store a (LowRankTensor (sr_scale x _data))
  end.

(** [swapdim]: the dense backend wraps the swapped view in a new backend;
    the low-rank backend has none. *)
Definition SepRepTensor_swapdim (a : nat) (idim jdim : Z) : M nat :=
  let* o := load a in
  match o with
  | FullTensor data =>
      let* t := lift PrimitiveFailure (Tensor_swapdim data idim jdim) in
      new_object (FullTensor t)
  | LowRankTensor _ => fail AssertZero
  end.

Definition SepRepTensor_trace_conj (a : nat) (rhs : option nat) : M T :=
  let* o := load a in
  match o with
  | FullTensor data =>
      let* other := as_FullTensor rhs in
      Tensor_trace_conj data other
  | LowRankTensor _data =>
      let* '(_, other) := as_LowRankTensor rhs in
      ret (sr_overlap _data other)
  end.

(** [reconstructTensor]: only the low-rank backend overrides the base
    class, whose body is [MADNESS_ASSERT(0)]. *)
Definition SepRepTensor_reconstructTensor (a : nat) : M Tensor :=
  let* o := load a in
  match o with
  | FullTensor _ => fail AssertZero
  | LowRankTensor _data =>
      MADNESS_ASSERT (sr_is_valid _data) AssertIsValid ;;;
      let* '(ds, l) := lift PrimitiveFailure (sr_reconstructTensor _data) in
      Tensor_of_elements ds l
  end.

Definition SepRepTensor_fullTensor (a : nat) : M Tensor :=
  let* o := load a in
  match o with
  | FullTensor data => ret data
  | LowRankTensor _ =>
      fail (MadnessException "No fullTensor in LowRankTensor; reconstruct first")
  end.

Definition SepRepTensor_normf (a : nat) : M Dbl :=
  let* o := load a in
  match o with
  | FullTensor data => Tensor_normf data
  | LowRankTensor _data => ret (sr_FrobeniusNorm _data)
  end.

(** [clone(s)], the sliced copy constructor.  For the dense backend the
    slice is [copy(data(s))]. *)
Definition SepRepTensor_clone_slice (a : nat) (s : list Slice) : M nat :=
  let* o := load a in
  match o with
  | FullTensor data =>
      let* v := lift PrimitiveFailure (Tensor_slice data s) in
      let* c := Tensor_copy v in
      new_object (FullTensor c)
  | LowRankTensor _data =>
      let* d := lift PrimitiveFailure (sr_slice _data s) in
      new_object (LowRankTensor d)
  end.

(** [clone()], the shallow copy: for the dense backend the new backend
    views the same buffer. *)
Definition SepRepTensor_clone (a : nat) : M nat :=
  let* o := load a in
  match o with
  | FullTensor data => new_object (FullTensor data)
  | LowRankTensor _data => new_object (LowRankTensor _data)
  end.

(** [copy_this()], the deep copy. *)
Definition SepRepTensor_copy_this (a : nat) : M nat :=
  let* o := load a in
  match o with
  | FullTensor data =>
      let* c := Tensor_copy data in
      new_object (FullTensor c)
  | LowRankTensor _data => new_object (LowRankTensor (sr_copy _data))
  end.

(** [what_am_i()]: the name of the derived class; the low-rank backend
    knows the kinds [TT_2D] and [TT_3D] only. *)
Definition SepRepTensor_what_am_i (o : SepRepTensor) : M string :=
  match o with
  | FullTensor _ => ret "FullRank"%string
  | LowRankTensor d =>
      if bool_decide (sr_tensor_type d = TT_2D) then ret "LowRank-2D"%string
      else if bool_decide (sr_tensor_type d = TT_3D) then ret "LowRank-3D"%string
      else fail AssertZero
  end.

(** ** The handle [GenTensor<T>] *)

(** A [GenTensor] object is a key of [handles]; a constructor allocates the
    key once the value of [_ptr] is known, so that a constructor that
    throws leaves no object behind. *)

(** [TensorArgs]: the arguments for creating a low-rank tensor, the fields
    [thresh] and [tt] of the struct. *)
Record TensorArgs : Type := mkTensorArgs {
  targs_thresh : Dbl;
  targs_tt : TensorType
}.

(** [SliceGenTensor<T>]: a reference to a handle and the slices. *)
Record SliceGenTensor : Type := mkSliceGenTensor {
  _refGT : nat;
  _s : list Slice
}.

(** [GenTensor()] *)
Definition GenTensor_empty : M nat := new_handle None.

(** [GenTensor(const TensorType tt)] *)
Definition GenTensor_of_type (tt : TensorType) : M nat :=
  let* a := (if bool_decide (tt = TT_FULL)
             then new_object (FullTensor Tensor_default)
             else new_object (LowRankTensor (sr_new tt))) in
  new_handle (Some a).

(** [GenTensor(const GenTensor<T>& rhs)], shallow *)
Definition GenTensor_copy_ctor (rhs : nat) : M nat :=
  let* p := get_ptr rhs in
  new_handle p.

(** [GenTensor(const std::vector<long>& dim, const TensorType tt)] *)
Definition GenTensor_of_dims (dim : list nat) (tt : TensorType) : M nat :=
  let* a := (if bool_decide (tt = TT_FULL)
             then let* t := Tensor_new dim in new_object (FullTensor t)
             else match dim with
                  | [] => fail PrimitiveFailure            (* s[0] *)
                  | k :: _ =>
                      new_object (LowRankTensor
                        (sr_new_dim tt (Z.of_nat k) (Z.of_nat (length dim))))
                  end) in
  new_handle (Some a).

(** [GenTensor(const std::vector<long>& dim, const TensorArgs& targs)], the
    same body on the field [tt] of [targs]. *)
Definition GenTensor_of_dims_args (dim : list nat) (targs : TensorArgs) : M nat :=
  GenTensor_of_dims dim (targs_tt targs).

(** [SepRep<T>(t,eps,tt)] reads the elements of [t]. *)
Definition LowRankTensor_of_tensor (t : Tensor) (eps : Dbl) (tt : TensorType)
  : M SR :=
  fun σ => match Tensor_read σ t with
           | Some l => lift PrimitiveFailure (sr_of_tensor (Tensor_dims t) l eps tt) σ
           | None => Failed PrimitiveFailure σ
           end.

(** [GenTensor(const Tensor<T>& rhs, double eps, const TensorType tt)], deep *)
Definition GenTensor_of_tensor (rhs : Tensor) (eps : Dbl) (tt : TensorType)
  : M nat :=
  if bool_decide (tt = TT_FULL) then
    let* c := Tensor_copy rhs in
    let* a := new_object (FullTensor c) in
    new_handle (Some a)
  else if bool_decide (tt = TT_3D) || bool_decide (tt = TT_2D) then
    MADNESS_ASSERT (dbl_pos eps) AssertThreshPositive ;;;
    let* t := (if Tensor_iscontiguous rhs then ret rhs else Tensor_copy rhs) in
    let* d := LowRankTensor_of_tensor t eps tt in
    let* a := new_object (LowRankTensor d) in
    new_handle (Some a)
  else new_handle None.

(** [GenTensor(const Tensor<T>& rhs, const TensorArgs& args)], the same body
    on the fields of [args]. *)
Definition GenTensor_of_tensor_args (rhs : Tensor) (args : TensorArgs) : M nat :=
  GenTensor_of_tensor rhs (targs_thresh args) (targs_tt args).

(** [clear()]: [_ptr.reset()].  The backend the handle pointed to is
    released; see [State] for what the model keeps of it. *)
Definition GenTensor_clear (this : nat) : M unit := set_ptr this None.

(** [operator=(const GenTensor<T>& rhs)], shallow: [_ptr=rhs._ptr].  The
    backend the handle pointed to is released, as by [clear()]. *)
Definition GenTensor_assign (this rhs : nat) : M unit :=
  let* p := get_ptr rhs in
  set_ptr this p.

(** [operator=(const SliceGenTensor<T>& rhs)], deep: g0 = g1(s) *)
Definition GenTensor_assign_slice (this : nat) (rhs : SliceGenTensor) : M unit :=
  GenTensor_clear this ;;;
  let* p := get_ptr (_refGT rhs) in
  let* '(a, _) := deref p in
  let* c := SepRepTensor_clone_slice a (_s rhs) in
  set_ptr this (Some c).

(** [GenTensor(const SliceGenTensor<T>& rhs)], deep *)
Definition GenTensor_of_slice (rhs : SliceGenTensor) : M nat :=
  let* this := new_handle None in
  GenTensor_assign_slice this rhs ;;;
  ret this.

(** [copy(const GenTensor<T>& rhs)], deep *)
Definition GenTensor_copy (rhs : nat) : M nat :=
  let* p := get_ptr rhs in
  match p with
  | Some a => let* c := SepRepTensor_copy_this a in new_handle (Some c)
  | None => new_handle None
  end.

(** [operator()(const std::vector<Slice>& s)] *)
Definition GenTensor_slice (this : nat) (s : list Slice) : SliceGenTensor :=
  mkSliceGenTensor this s.

(** [operator=(const double& fac)] *)
Definition GenTensor_assign_number (this : nat) (fac : Dbl) : M unit :=
  fail AssertZero.

(** [has_data()] *)
Definition GenTensor_has_data (this : nat) : M bool :=
  let* p := get_ptr this in
  match p with
  | None => ret false
  | Some a => let* o := load a in ret (SepRepTensor_has_data o)
  end.

(** [size()] *)
Definition GenTensor_size (this : nat) : M Z :=
  let* p := get_ptr this in
  match p with
  | Some a => let* o := load a in ret (SepRepTensor_size o)
  | None => ret 0
  end.

(** [type()] *)
Definition GenTensor_type (this : nat) : M TensorType :=
  let* p := get_ptr this in
  match p with
  | Some a => let* o := load a in ret (SepRepTensor_type o)
  | None => ret TT_NONE
  end.

(** [ndim()] *)
Definition GenTensor_ndim (this : nat) : M Z :=
  let* p := get_ptr this in
  match p with
  | Some a => let* o := load a in ret (SepRepTensor_ndim o)
  | None => ret (-1)
  end.

(** [rank()] *)
Definition GenTensor_rank (this : nat) : M Z :=
  let* p := get_ptr this in
  let* '(_, o) := deref p in
  ret (SepRepTensor_rank o).

(** [dim(i)] *)
Definition GenTensor_dim (this : nat) (i : Z) : M Z :=
  let* p := get_ptr this in
  let* '(_, o) := deref p in
  ret (SepRepTensor_dim o i).

(** [normf()] *)
Definition GenTensor_normf (this : nat) : M Dbl :=
  let* p := get_ptr this in
  let* '(a, _) := deref p in
  SepRepTensor_normf a.

(** [accumulate_into(GenTensor<T>& t, const double fac)]: t += fac * this *)
Definition GenTensor_accumulate_into (this t : nat) (fac : Dbl) : M unit :=
  let* p := get_ptr this in
  let* '(a, _) := deref p in
  let* q := get_ptr t in
  SepRepTensor_accumulate_into a q fac.

(** [accumulate_into(GenTensor<T>& rhs, const std::complex<double> fac)] *)
Definition GenTensor_accumulate_into_complex (this rhs : nat) : M unit :=
  fail (MadnessException "GenTensor::accumulate_into only with double fac").

(** [operator+=(const GenTensor<T>& rhs)] *)
Definition GenTensor_iadd (this rhs : nat) : M unit :=
  let* p := get_ptr this in
  let* '(_, o1) := deref p in
  let* q := get_ptr rhs in
  let* '(_, o2) := deref q in
  (if negb (bool_decide (SepRepTensor_type o1 = SepRepTensor_type o2))
   then MADNESS_ASSERT (bool_decide (SepRepTensor_type o1 = SepRepTensor_type o2))
          AssertTypeMismatch
   else ret tt) ;;;
  GenTensor_accumulate_into rhs this dbl_one.

(** [inplace_add(rhs, lhs_s, rhs_s)]: *this(s1) += rhs(s2) *)
Definition GenTensor_inplace_add (this rhs : nat) (lhs_s rhs_s : list Slice)
  : M unit :=
  let* p := get_ptr this in
  let* '(a, _) := deref p in
  let* q := get_ptr rhs in
  SepRepTensor_inplace_add a q lhs_s rhs_s.

(** [operator+=(const SliceGenTensor<T>& rhs)] *)
Definition GenTensor_iadd_slice (this : nat) (rhs : SliceGenTensor) : M unit :=
  let* p := get_ptr this in
  let* '(a, o1) := deref p in
  let* q := get_ptr (_refGT rhs) in
  let* '(_, o2) := deref q in
  MADNESS_ASSERT (bool_decide (SepRepTensor_type o1 = SepRepTensor_type o2))
    AssertTypeMismatch ;;;
  let* n := GenTensor_ndim this in
  let* s := full_slices n in
  SepRepTensor_inplace_add a q s (_s rhs).

(** [update_by(const GenTensor<T>& rhs)] *)
Definition GenTensor_update_by (this rhs : nat) : M unit :=
  let* p := get_ptr this in
  let* '(a, _) := deref p in
  let* q := get_ptr rhs in
  SepRepTensor_update_by a q.

(** [finalize_accumulate()] *)
Definition GenTensor_finalize_accumulate (this : nat) : M unit :=
  let* p := get_ptr this in
  let* '(a, _) := deref p in
  SepRepTensor_finalize_accumulate a.

(** [reduceRank(const double& eps)] *)
Definition GenTensor_reduceRank (this : nat) (eps : Dbl) : M unit :=
  let* p := get_ptr this in
  let* '(a, _) := deref p in
  SepRepTensor_reduceRank a eps.

(** [scale(Q x)]: the argument is converted to [T] at the call. *)
Definition GenTensor_scale (this : nat) (x : T) : M unit :=
  let* p := get_ptr this in
  match p with
  | Some a => SepRepTensor_scale a x
  | None => ret tt
  end.

(** [template <class Q> operator*(const Q& x)]: the overload chosen when the
    scalar is not of the element type. *)
Definition GenTensor_mul_Q {Q : Type} (this : nat) (x : Q) : M nat :=
  fail AssertZero.

(** [operator*(const T& x)] *)
Definition GenTensor_mul_T (this : nat) (x : T) : M nat :=
  let* tmp := GenTensor_copy this in
  let* result := GenTensor_copy_ctor tmp in
  GenTensor_scale result x ;;;
  ret result.

(** The expression [g * x]: overload resolution takes the non-template
    operator for a scalar of type [T] and the template for any other type. *)
Definition GenTensor_mul {Q : Type} (this : nat) (x : T + Q) : M nat :=
  match x with
  | inl x => GenTensor_mul_T this x
  | inr x => GenTensor_mul_Q this x
  end.

(** [gaxpy(std::complex<double> alpha, rhs, std::complex<double> beta)] *)
Definition GenTensor_gaxpy_complex (this rhs : nat) : M unit :=
  fail (MadnessException "GenTensor::gaxpy only with double factors").

(** [gaxpy(double alpha, const GenTensor<T>& rhs, double beta)] *)
Definition GenTensor_gaxpy (this : nat) (alpha : Dbl) (rhs : nat) (beta : Dbl)
  : M unit :=
  let* p := get_ptr this in
  let* '(a, _) := deref p in
  let* q := get_ptr rhs in
  SepRepTensor_gaxpy a alpha q beta.

(** [swapdim(long idim, long jdim)] *)
Definition GenTensor_swapdim (this : nat) (idim jdim : Z) : M nat :=
  MADNESS_ASSERT false AssertZero ;;;
  let* p := get_ptr this in
  let* '(a, _) := deref p in
  let* c := SepRepTensor_swapdim a idim jdim in
  new_handle (Some c).

(** [trace_conj(const GenTensor<T>& rhs)] *)
Definition GenTensor_trace_conj (this rhs : nat) : M T :=
  let* t1 := GenTensor_type this in
  let* t2 := GenTensor_type rhs in
  MADNESS_ASSERT (bool_decide (t1 = t2)) AssertTypeMismatch ;;;
  let* p := get_ptr this in
  let* '(a, _) := deref p in
  let* q := get_ptr rhs in
  SepRepTensor_trace_conj a q.

(** [emul(const GenTensor<T>& t)] *)
Definition GenTensor_emul (this t : nat) : M unit := fail AssertZero.

(** [full_tensor()] *)
Definition GenTensor_full_tensor (this : nat) : M Tensor :=
  let* p := get_ptr this in
  let* '(a, _) := deref p in
  SepRepTensor_fullTensor a.

(** [reconstruct_tensor()] *)
Definition GenTensor_reconstruct_tensor (this : nat) : M Tensor :=
  let* p := get_ptr this in
  let* '(a, _) := deref p in
  SepRepTensor_reconstructTensor a.

(** [full_tensor_copy()] *)
Definition GenTensor_full_tensor_copy (this : nat) : M Tensor :=
  let* p := get_ptr this in
  let* '(a, o) := deref p in
  match SepRepTensor_type o with
  | TT_FULL => SepRepTensor_fullTensor a
  | TT_NONE => ret Tensor_default
  | TT_3D | TT_2D => SepRepTensor_reconstructTensor a
  end.

(** ** The slice proxy [SliceGenTensor<T>] *)

(** [operator=(const GenTensor<T>& rhs)] *)
Definition SliceGenTensor_assign (this : SliceGenTensor) (rhs : nat) : M unit :=
  fail AssertZero.

(** [operator=(const SliceGenTensor<T>& rhs)] *)
Definition SliceGenTensor_assign_slice (this rhs : SliceGenTensor) : M unit :=
  fail AssertZero.

(** [operator+=(const GenTensor<T>& rhs)] *)
Definition SliceGenTensor_iadd (this : SliceGenTensor) (rhs : nat) : M unit :=
  let* n := GenTensor_ndim (_refGT this) in
  let* s := full_slices n in
  GenTensor_inplace_add (_refGT this) rhs (_s this) s.

(** [operator+=(const SliceGenTensor<T>& rhs)] *)
Definition SliceGenTensor_iadd_slice (this rhs : SliceGenTensor) : M unit :=
  GenTensor_inplace_add (_refGT this) (_refGT rhs) (_s this) (_s rhs).

(** [operator=(const double& number)], in-place zeroing *)
Definition SliceGenTensor_assign_number (this : SliceGenTensor) (number : Dbl)
  : M unit :=
  MADNESS_ASSERT (dbl_is_zero number) AssertNumberIsZero ;;;
  let* tmp := GenTensor_of_slice this in
  let* ty := GenTensor_type (_refGT this) in
  (if bool_decide (ty = TT_FULL)
   then let* c := GenTensor_copy tmp in GenTensor_assign tmp c
   else ret tt) ;;;
  GenTensor_scale tmp (of_double dbl_neg_one) ;;;
  GenTensor_inplace_add (_refGT this) tmp (_s this) (_s this).

(** [copy(const SliceGenTensor<T>& rhs)] *)
Definition SliceGenTensor_copy (rhs : SliceGenTensor) : M nat :=
  GenTensor_of_slice rhs.

(** ** Conversions *)

(** [to_full_rank(GenTensor<T>& arg)] *)
Definition to_full_rank (arg : nat) : M unit :=
  let* hd := GenTensor_has_data arg in
  if hd then
    let* ty := GenTensor_type arg in
    if bool_decide (ty = TT_FULL) then ret tt
    else if bool_decide (ty = TT_3D) then
      let* t := GenTensor_reconstruct_tensor arg in
      let* g := GenTensor_of_tensor t dbl_zero TT_FULL in
      GenTensor_assign arg g
    else fail (RuntimeError "unknown TensorType in to_full_tensor")
  else
    let* g := GenTensor_of_type TT_FULL in
    GenTensor_assign arg g.

(** [to_low_rank(GenTensor<T>& arg, const double& eps, const TensorType& target_type)] *)
Definition to_low_rank (arg : nat) (eps : Dbl) (target_type : TensorType)
  : M unit :=
  let* hd := GenTensor_has_data arg in
  if hd then
    let* ty := GenTensor_type arg in
    if bool_decide (ty = TT_FULL) then
      let* t1 := GenTensor_full_tensor arg in
      let* g := GenTensor_of_tensor t1 eps target_type in
      GenTensor_assign arg g
    else if bool_decide (ty = TT_3D) then ret tt
    else fail (RuntimeError "unknown TensorType in to_full_tensor")
  else
    let* g := GenTensor_of_type target_type in
    GenTensor_assign arg g.

(** [what_am_i()] of the handle *)
Definition GenTensor_what_am_i (this : nat) : M string :=
  let* p := get_ptr this in
  let* '(_, o) := deref p in
  SepRepTensor_what_am_i o.

(** ** Observations *)

(** What a handle holds: nothing, the elements of a dense tensor, or the
    value of a separated representation. *)
Inductive Content : Type :=
  | NoBackend
  | Dense (dims : list nat) (elems : list T)
  | Separated (d : SR).

Definition object_content (σ : State) (o : SepRepTensor) : option Content :=
  match o with
  | FullTensor t =>
      match Tensor_read σ t with
      | Some l => Some (Dense (Tensor_dims t) l)
      | None => None
      end
  | LowRankTensor d => Some (Separated d)
  end.

Definition content (σ : State) (g : nat) : option Content :=
  match handles σ !! g with
  | None => None
  | Some None => Some NoBackend
  | Some (Some a) =>
      match objects σ !! a with
      | None => None
      | Some o => object_content σ o
      end
  end.

(** The representation kind a handle reports, when the handle is in the
    store. *)
Definition kind (σ : State) (g : nat) : option TensorType :=
  match GenTensor_type g σ with
  | Done k _ => Some k
  | Failed _ _ => None
  end.

(** The backend a handle points to and the buffer that backend owns. *)
Definition backend_of (σ : State) (g : nat) : option nat :=
  match handles σ !! g with
  | Some p => p
  | None => None
  end.

Definition buffer_at (σ : State) (p : option nat) : option nat :=
  match p with
  | Some a =>
      match objects σ !! a with
      | Some (FullTensor t) => t_p t
      | _ => None
      end
  | None => None
  end.

Definition buffer_of (σ : State) (g : nat) : option nat :=
  buffer_at σ (backend_of σ g).

(** The content after [scale(x)]. *)
Definition scaled (x : T) (c : Content) : Content :=
  match c with
  | NoBackend => NoBackend
  | Dense ds l => Dense ds (map (fun y => tmul y x) l)
  | Separated d => Separated (sr_scale x d)
  end.

(** The content of a deep copy. *)
Definition copied (c : Content) : Content :=
  match c with
  | Separated d => Separated (sr_copy d)
  | _ => c
  end.

(** The operations that change the content of the handle they are applied
    to, the handle staying bound to its backend. *)
Inductive Mutation : Type :=
  | MScale (x : T)
  | MReduceRank (eps : Dbl)
  | MFinalizeAccumulate
  | MGaxpy (alpha : Dbl) (rhs : nat) (beta : Dbl)
  | MIadd (rhs : nat)
  | MIaddSlice (rhs : SliceGenTensor)
  | MUpdateBy (rhs : nat)
  | MAccumulateFrom (src : nat) (fac : Dbl)
  | MSliceIadd (s : list Slice) (rhs : nat)
  | MSliceIaddSlice (s : list Slice) (rhs : SliceGenTensor)
  | MSliceZero (s : list Slice) (number : Dbl).

Definition mutate (m : Mutation) (this : nat) : M unit :=
  match m with
  | MScale x => GenTensor_scale this x
  | MReduceRank eps => GenTensor_reduceRank this eps
  | MFinalizeAccumulate => GenTensor_finalize_accumulate this
  | MGaxpy alpha rhs beta => GenTensor_gaxpy this alpha rhs beta
  | MIadd rhs => GenTensor_iadd this rhs
  | MIaddSlice rhs => GenTensor_iadd_slice this rhs
  | MUpdateBy rhs => GenTensor_update_by this rhs
  | MAccumulateFrom src fac => GenTensor_accumulate_into src this fac
  | MSliceIadd s rhs => SliceGenTensor_iadd (GenTensor_slice this s) rhs
  | MSliceIaddSlice s rhs => SliceGenTensor_iadd_slice (GenTensor_slice this s) rhs
  | MSliceZero s number => SliceGenTensor_assign_number (GenTensor_slice this s) number
  end.

(** An in-place operation on a raw dense tensor. *)
Inductive TensorMutation : Type :=
  | TScale (x : T)
  | TGaxpy (alpha : Dbl) (o : Tensor) (beta : Dbl)
  | TIadd (o : Tensor).

Definition Tensor_mutate (m : TensorMutation) (t : Tensor) : M unit :=
  match m with
  | TScale x => Tensor_scale t x
  | TGaxpy alpha o beta => Tensor_gaxpy t alpha o beta
  | TIadd o => Tensor_iadd t o
  end.

(** One step of a client of the handles: a mutation through a handle, or an
    in-place operation on a raw dense tensor. *)
Inductive Step : Type :=
  | ViaHandle (via : nat) (m : Mutation)
  | OnTensor (t : Tensor) (m : TensorMutation).

Definition exec (s : Step) : M unit :=
  match s with
  | ViaHandle via m => mutate m via
  | OnTensor t m => Tensor_mutate m t
  end.

(** The store after a sequence of steps; each step starts from the store
    the previous one left, whether it returned or failed. *)
Definition run (tr : list Step) (σ : State) : State :=
  fold_left (fun s st => final (exec st s)) tr σ.

(** A mutation through the handle [h]. *)
Definition through (h : nat) (s : Step) : Prop :=
  match s with
  | ViaHandle via _ => via = h
  | OnTensor _ _ => False
  end.

(** A step on something that [σ] held: a mutation through a handle other
    than [h] that had content in [σ], or an operation on a dense tensor
    that [σ] could read. *)
Definition older (σ : State) (h : nat) (s : Step) : Prop :=
  match s with
  | ViaHandle via _ => via <> h /\ is_Some (content σ via)
  | OnTensor t _ => is_Some (Tensor_read σ t)
  end.

(** The handle [g] is bound, and to an allocated backend if to any. *)
Definition well_bound (σ : State) (g : nat) : Prop :=
  exists p, handles σ !! g = Some p /\
    forall a, p = Some a -> is_Some (objects σ !! a).

(** The step [s] works on a backend other than [A] and a buffer other than
    [B], as [σ] binds them. *)
Definition apart (σ : State) (A B : option nat) (s : Step) : Prop :=
  match s with
  | ViaHandle v _ =>
      well_bound σ v /\
      (forall a, A = Some a -> backend_of σ v <> Some a) /\
      (forall b, B = Some b -> buffer_of σ v <> Some b)
  | OnTensor t _ => forall b, B = Some b -> t_p t <> Some b
  end.

(** Two backends of the same class; for the dense one, on the same view. *)
Definition same_shape (o o' : SepRepTensor) : Prop :=
  match o, o' with
  | FullTensor t, FullTensor t' => t = t'
  | LowRankTensor _, LowRankTensor _ => True
  | _, _ => False
  end.

(** Every backend of [σ] is in [σ'], of the same class and on the same
    view. *)
Definition keeps_shapes (σ σ' : State) : Prop :=
  forall a o, objects σ !! a = Some o ->
    exists o', objects σ' !! a = Some o' /\ same_shape o o'.

(** [σ'] keeps every handle of [σ] but [G], every backend of [σ] but [A]
    and every buffer of [σ] but [B]; the backends it does not keep are
    still there, with another value. *)
Definition stable_outside (G A B : option nat) (σ σ' : State) : Prop :=
  (forall g p, G <> Some g -> handles σ !! g = Some p -> handles σ' !! g = Some p) /\
  (forall a o, A <> Some a -> objects σ !! a = Some o -> objects σ' !! a = Some o) /\
  (forall b l, B <> Some b -> buffers σ !! b = Some l -> buffers σ' !! b = Some l) /\
  keeps_shapes σ σ'.

(** [s] has the handles and the backends of [σ1] in their places, and the
    backend [A] and the buffer [B] with the values they have in [σ1]. *)
Definition keeps (σ1 s : State) (A B : option nat) : Prop :=
  (forall g p, handles σ1 !! g = Some p -> handles s !! g = Some p) /\
  keeps_shapes σ1 s /\
  (forall a o, A = Some a -> objects σ1 !! a = Some o -> objects s !! a = Some o) /\
  (forall b l, B = Some b -> buffers σ1 !! b = Some l -> buffers s !! b = Some l).

(** A computation that only reads the store. *)
Definition readonly {A} (m : M A) : Prop := forall σ, final (m σ) = σ.

(** The handle [h] of [σ1] is independent of the handles and dense tensors
    that [σ] held: they kept their content when [σ1] was reached and keep it
    under every sequence of mutations through [h], and [h] keeps its content
    under every sequence of steps on them. *)
Definition independent (σ σ1 : State) (h : nat) : Prop :=
  (forall g c, g <> h -> content σ g = Some c ->
     content σ1 g = Some c /\
     forall tr, Forall (through h) tr -> content (run tr σ1) g = Some c) /\
  (forall t l, Tensor_read σ t = Some l ->
     Tensor_read σ1 t = Some l /\
     forall tr, Forall (through h) tr -> Tensor_read (run tr σ1) t = Some l) /\
  (forall c', content σ1 h = Some c' ->
     forall tr, Forall (older σ h) tr -> content (run tr σ1) h = Some c').

(** [h] is bound in [σ1]; its backend and the buffer of its backend were
    not allocated in [σ]. *)
Definition fresh_footprint (σ σ1 : State) (h : nat) : Prop :=
  well_bound σ1 h /\
  (forall a, backend_of σ1 h = Some a -> objects σ !! a = None) /\
  (forall b, buffer_of σ1 h = Some b -> buffers σ !! b = None).

(** The backend [c] of [σ2] and its buffer were not allocated in [σ]. *)
Definition fresh_backend (σ σ2 : State) (c : nat) : Prop :=
  is_Some (objects σ2 !! c) /\
  objects σ !! c = None /\
  (forall b, buffer_at σ2 (Some c) = Some b -> buffers σ !! b = None).

(** A computation that allocates, and rebinds at most the handle [G]. *)
Definition frames {A} (G : option nat) (m : M A) : Prop :=
  forall σ, stable_outside G None None σ (final (m σ)).

(** The ways to build a handle that are documented as deep. *)
Inductive Construction : Type :=
  | FromTensor (rhs : Tensor) (eps : Dbl) (k : TensorType)
  | FromTensorArgs (rhs : Tensor) (args : TensorArgs)
  | FromSlice (rhs : SliceGenTensor)
  | AssignSlice (this : nat) (rhs : SliceGenTensor)
  | Copy (rhs : nat)
  | CopySlice (rhs : SliceGenTensor).

(** The handle a construction yields; for the assignment, the handle
    assigned to. *)
Definition construct (c : Construction) : M nat :=
  match c with
  | FromTensor rhs eps k => GenTensor_of_tensor rhs eps k
  | FromTensorArgs rhs args => GenTensor_of_tensor_args rhs args
  | FromSlice rhs => GenTensor_of_slice rhs
  | AssignSlice this rhs => GenTensor_assign_slice this rhs ;;; ret this
  | Copy rhs => GenTensor_copy rhs
  | CopySlice rhs => SliceGenTensor_copy rhs
  end.

(** What the constructor from a dense tensor builds from its arguments: a
    dense copy, a factorisation, or, for the kind [TT_NONE], for which the
    constructor has no branch, no backend at all. *)
Definition tensor_data (σ : State) (rhs : Tensor) (eps : Dbl) (k : TensorType)
  : option Content :=
  match k with
  | TT_FULL => object_content σ (FullTensor rhs)
  | TT_3D | TT_2D =>
      match Tensor_read σ rhs with
      | Some l =>
          match sr_of_tensor (Tensor_dims rhs) l eps k with
          | Some d => Some (Separated d)
          | None => None
          end
      | None => None
      end
  | TT_NONE => Some NoBackend
  end.

(** What [clone(s)] builds from a backend: the copy of the slice. *)
Definition backend_slice_data (σ : State) (a : nat) (s : list Slice)
  : option Content :=
  match objects σ !! a with
  | Some (FullTensor data) =>
      match Tensor_slice data s with
      | Some v => object_content σ (FullTensor v)
      | None => None
      end
  | Some (LowRankTensor d) =>
      match sr_slice d s with
      | Some d' => Some (Separated d')
      | None => None
      end
  | None => None
  end.

(** What the construction from a slice proxy builds. *)
Definition slice_data (σ : State) (rhs : SliceGenTensor) : option Content :=
  match backend_of σ (_refGT rhs) with
  | Some a => backend_slice_data σ a (_s rhs)
  | None => None
  end.

(** What a deep construction builds from its source, when it returns. *)
Definition source_data (c : Construction) (σ : State) : option Content :=
  match c with
  | FromTensor rhs eps k => tensor_data σ rhs eps k
  | FromTensorArgs rhs args => tensor_data σ rhs (targs_thresh args) (targs_tt args)
  | FromSlice rhs | AssignSlice _ rhs | CopySlice rhs => slice_data σ rhs
  | Copy rhs =>
      match content σ rhs with
      | Some c => Some (copied c)
      | None => None
      end
  end.

(** The view of the dense tensor behind [g] addresses each of its elements
    once. *)
Definition simple_view (σ : State) (g : nat) : Prop :=
  forall a t, backend_of σ g = Some a ->
              objects σ !! a = Some (FullTensor t) ->
              NoDup (Tensor_offsets t).

(** The two shallow copies: construction from a handle and assignment of a
    handle. *)
Inductive ShallowCopy : Type :=
  | CopyCtor (rhs : nat)
  | Assign (this rhs : nat).

(** The handle a shallow copy yields; for the assignment, the handle
    assigned to. *)
Definition shallow (c : ShallowCopy) : M nat :=
  match c with
  | CopyCtor rhs => GenTensor_copy_ctor rhs
  | Assign this rhs => GenTensor_assign this rhs ;;; ret this
  end.

Definition shallow_source (c : ShallowCopy) : nat :=
  match c with
  | CopyCtor rhs => rhs
  | Assign _ rhs => rhs
  end.

(** Two handles alias: they point to the same backend; after every sequence
    of steps both observe the same content; and [scale(x)] through one
    leaves, seen through the other, the content scaled by [x]. *)
Definition aliased (σ1 : State) (h1 h2 : nat) : Prop :=
  backend_of σ1 h2 = backend_of σ1 h1 /\
  (forall tr, content (run tr σ1) h1 = content (run tr σ1) h2) /\
  (forall x c0, content σ1 h1 = Some c0 -> simple_view σ1 h1 ->
     (exists σ2, GenTensor_scale h2 x σ1 = Done tt σ2 /\
                 content σ2 h1 = Some (scaled x c0)) /\
     (exists σ2, GenTensor_scale h1 x σ1 = Done tt σ2 /\
                 content σ2 h2 = Some (scaled x c0))).

(** The content of the handle [GenTensor(tt)] builds. *)
Definition empty_content (k : TensorType) : Content :=
  if bool_decide (k = TT_FULL) then Dense [] [] else Separated (sr_new k).

(** * Properties *)

(** ** Buffers and views *)

Lemma fresh_None {V} (m : gmap nat V) : m !! fresh (dom m) = None.
Proof. apply not_elem_of_dom, is_fresh. Qed.

Lemma fresh_ne {V} (m : gmap nat V) (k : nat) (v : V) :
  m !! k = Some v -> k <> fresh (dom m).
Proof. intros Hk ->. rewrite fresh_None in Hk. discriminate. Qed.

Lemma length_offsets (sh : list (nat * Z)) (off : Z) :
  length (offsets off sh) = product (map fst sh).
Proof.
  revert off. induction sh as [|[d st] sh IH]; intros off; simpl; [reflexivity|].
  generalize 0%nat at 1. induction d as [|d IHd]; intros k; simpl; [reflexivity|].
  rewrite List.length_app, IH, IHd. reflexivity.
Qed.

Lemma map_seq_shift {A} (g : nat -> A) (k n s : nat) :
  map (fun j => g (k + j)%nat) (seq s n) = map g (seq (k + s) n).
Proof.
  revert s. induction n as [|n IH]; intros s; simpl; [reflexivity|].
  f_equal. rewrite IH. f_equal. f_equal. lia.
Qed.

Lemma flat_map_seq_block (n d k : nat) (off : Z) :
  flat_map (fun i => map (fun j => off + Z.of_nat i * Z.of_nat n + Z.of_nat j)
                       (seq 0 n)) (seq k d)
  = map (fun j => off + Z.of_nat j) (seq (k * n) (d * n)).
Proof.
  revert k. induction d as [|d IH]; intros k; simpl; [reflexivity|].
  rewrite IH, seq_app, map_app. f_equal.
  - rewrite <- (Nat.add_0_r (k * n)) at 1.
    rewrite <- (map_seq_shift (fun j => off + Z.of_nat j) (k * n) n 0).
    apply map_ext. intros j. lia.
  - f_equal. f_equal. lia.
Qed.

Lemma offsets_contiguous (ds : list nat) (off : Z) :
  offsets off (contiguous_shape ds)
  = map (fun j => off + Z.of_nat j) (seq 0 (product ds)).
Proof.
  revert off. induction ds as [|d ds IH]; intros off; simpl.
  - f_equal. lia.
  - etransitivity; [|exact (flat_map_seq_block (product ds) d 0 off)].
    apply flat_map_ext. intros i. rewrite IH. reflexivity.
Qed.

Lemma map_fst_contiguous (ds : list nat) : map fst (contiguous_shape ds) = ds.
Proof. induction ds as [|d ds IH]; simpl; congruence. Qed.

Lemma buf_get_agree (B B' : gmap nat (list T)) (b : nat) (p : Z) :
  B' !! b = B !! b -> buf_get B' b p = buf_get B b p.
Proof. unfold buf_get. intros ->. reflexivity. Qed.

Lemma read_offsets_agree (B B' : gmap nat (list T)) (b : nat) (ps : list Z) :
  B' !! b = B !! b -> read_offsets B' b ps = read_offsets B b ps.
Proof. unfold read_offsets. intros ->. reflexivity. Qed.

(** A read that succeeds finds its buffer. *)
Lemma read_offsets_Some_dom (B : gmap nat (list T)) (b : nat) (ps : list Z)
    (l : list T) :
  read_offsets B b ps = Some l -> is_Some (B !! b).
Proof. unfold read_offsets. destruct (B !! b); [eauto|discriminate]. Qed.

Lemma read_offsets_preserved (B B' : gmap nat (list T)) (b : nat)
    (ps : list Z) (l : list T) :
  (forall k, B !! b = Some k -> B' !! b = Some k) ->
  read_offsets B b ps = Some l -> read_offsets B' b ps = Some l.
Proof.
  intros Hpres Hr. destruct (read_offsets_Some_dom _ _ _ _ Hr) as [k Hk].
  rewrite <- Hr. apply read_offsets_agree. rewrite Hk. auto.
Qed.

Lemma buf_set_lookup (B B' : gmap nat (list T)) (b : nat) (p : Z) (x : T) :
  buf_set B b p x = Some B' ->
  exists l, B !! b = Some l /\ 0 <= p < Z.of_nat (length l) /\
            B' = <[b := <[Z.to_nat p := x]> l]> B.
Proof.
  unfold buf_set. destruct (B !! b) as [l|]; [|discriminate].
  destruct (0 <=? p) eqn:H0; [|discriminate].
  destruct (p <? Z.of_nat (length l)) eqn:H1; [|discriminate].
  simpl. intros [= <-]. exists l. split; [reflexivity|]. split; [lia|reflexivity].
Qed.

Lemma buf_set_other (B B' : gmap nat (list T)) (b b' : nat) (p : Z) (x : T) :
  buf_set B b p x = Some B' -> b' <> b -> B' !! b' = B !! b'.
Proof.
  intros (l & _ & _ & ->)%buf_set_lookup Hne. apply lookup_insert_ne. congruence.
Qed.

Lemma map_inplace_other (f : T -> T) (ps : list Z) (B B' : gmap nat (list T))
    (b b' : nat) :
  map_inplace f B b ps = Some B' -> b' <> b -> B' !! b' = B !! b'.
Proof.
  revert B. induction ps as [|p ps IH]; intros B; simpl.
  - intros [= <-]. reflexivity.
  - destruct (buf_get B b p) as [x|]; [|discriminate].
    destruct (buf_set B b p (f x)) as [B1|] eqn:Hs; [|discriminate].
    intros Hm Hne. rewrite (IH _ Hm Hne). eapply buf_set_other; eauto.
Qed.

Lemma zip_inplace_other (f : T -> T -> T) (ps qs : list Z)
    (B B' : gmap nat (list T)) (bt bo b' : nat) :
  zip_inplace f B bt bo ps qs = Some B' -> b' <> bt -> B' !! b' = B !! b'.
Proof.
  revert qs B. induction ps as [|p ps IH]; intros qs B; simpl.
  - intros [= <-]. reflexivity.
  - destruct qs as [|q qs]; [intros [= <-]; reflexivity|].
    destruct (buf_get B bt p) as [x|]; [|discriminate].
    destruct (buf_get B bo q) as [y|]; [|discriminate].
    destruct (buf_set B bt p (f x y)) as [B1|] eqn:Hs; [|discriminate].
    intros Hm Hne. rewrite (IH _ _ Hm Hne). eapply buf_set_other; eauto.
Qed.

(** Scaling a whole buffer in place maps the function over it. *)
Lemma map_inplace_whole_aux (f : T -> T) (b : nat) (l2 l1 : list T)
    (B : gmap nat (list T)) :
  B !! b = Some (l1 ++ l2) ->
  map_inplace f B b (map (fun j => 0 + Z.of_nat j) (seq (length l1) (length l2)))
  = Some (<[b := l1 ++ map f l2]> B).
Proof.
  revert l1 B. induction l2 as [|x l2 IH]; intros l1 B HB; simpl.
  - rewrite insert_id; [reflexivity|]. exact HB.
  - unfold buf_get, buf_set. rewrite HB.
    rewrite (proj2 (Z.leb_le _ _)) by lia.
    replace (Z.to_nat (0 + Z.of_nat (length l1))) with (length l1) by lia.
    rewrite list_lookup_middle by reflexivity.
    rewrite (proj2 (Z.ltb_lt _ _)) by (rewrite List.length_app; simpl; lia).
    simpl.
    rewrite insert_app_r_alt by lia. rewrite Nat.sub_diag. simpl.
    specialize (IH (l1 ++ [f x]) (<[b := l1 ++ f x :: l2]> B)).
    rewrite List.length_app in IH. simpl in IH.
    rewrite Nat.add_1_r in IH. rewrite <- !app_assoc in IH. simpl in IH.
    rewrite IH by apply lookup_insert_eq.
    rewrite insert_insert_eq. reflexivity.
Qed.

Lemma map_inplace_whole (f : T -> T) (b : nat) (l : list T)
    (B : gmap nat (list T)) :
  B !! b = Some l ->
  map_inplace f B b (map (fun j => 0 + Z.of_nat j) (seq 0 (length l)))
  = Some (<[b := map f l]> B).
Proof. intros HB. apply (map_inplace_whole_aux f b l [] B HB). Qed.

Lemma read_list_whole_aux (l2 l1 : list T) :
  read_list (l1 ++ l2)
    (map (fun j => 0 + Z.of_nat j) (seq (length l1) (length l2)))
  = Some l2.
Proof.
  revert l1. induction l2 as [|x l2 IH]; intros l1; [reflexivity|].
  unfold read_list in *. simpl.
  rewrite (proj2 (Z.leb_le _ _)) by lia.
  replace (Z.to_nat (0 + Z.of_nat (length l1))) with (length l1) by lia.
  rewrite list_lookup_middle by reflexivity. simpl.
  specialize (IH (l1 ++ [x])). rewrite List.length_app in IH. simpl in IH.
  rewrite Nat.add_1_r, <- app_assoc in IH. simpl in IH. rewrite IH. reflexivity.
Qed.

Lemma read_offsets_whole (b : nat) (l : list T) (B : gmap nat (list T)) :
  B !! b = Some l ->
  read_offsets B b (map (fun j => 0 + Z.of_nat j) (seq 0 (length l))) = Some l.
Proof.
  intros HB. unfold read_offsets. rewrite HB. apply (read_list_whole_aux l []).
Qed.

Lemma read_offsets_length (B : gmap nat (list T)) (b : nat) (ps : list Z)
    (l : list T) :
  read_offsets B b ps = Some l -> length l = length ps.
Proof.
  unfold read_offsets, read_list. destruct (B !! b); [|discriminate].
  intros Hm. symmetry. eapply length_mapM. exact Hm.
Qed.

(** ** Running the primitives of the store *)

Lemma get_ptr_Some (σ : State) (g : nat) (p : option nat) :
  handles σ !! g = Some p -> get_ptr g σ = Done p σ.
Proof. intros H. unfold get_ptr. rewrite H. reflexivity. Qed.

Lemma load_Some (σ : State) (a : nat) (o : SepRepTensor) :
  objects σ !! a = Some o -> load a σ = Done o σ.
Proof. intros H. unfold load. rewrite H. reflexivity. Qed.

Lemma deref_Some (σ : State) (a : nat) (o : SepRepTensor) :
  objects σ !! a = Some o -> deref (Some a) σ = Done (a, o) σ.
Proof. intros H. unfold deref, bind. rewrite (load_Some _ _ _ H). reflexivity. Qed.

Lemma bind_Done {A B} (m : M A) (f : A -> M B) (σ σ' : State) (a : A) :
  m σ = Done a σ' -> bind m f σ = f a σ'.
Proof. intros H. unfold bind. rewrite H. reflexivity. Qed.

Lemma bind_Failed {A B} (m : M A) (f : A -> M B) (σ σ' : State) (e : Failure) :
  m σ = Failed e σ' -> bind m f σ = Failed e σ'.
Proof. intros H. unfold bind. rewrite H. reflexivity. Qed.

Lemma kind_inv (σ : State) (g : nat) (k : TensorType) :
  kind σ g = Some k ->
  exists p, handles σ !! g = Some p /\
    match p with
    | None => k = TT_NONE
    | Some a => exists o, objects σ !! a = Some o /\ k = SepRepTensor_type o
    end.
Proof.
  unfold kind, GenTensor_type, bind, get_ptr, load.
  destruct (handles σ !! g) as [[a|]|]; try discriminate.
  - destruct (objects σ !! a) as [o|] eqn:Ho; [|discriminate].
    intros [= <-]. exists (Some a). split; [reflexivity|].
    exists o. split; [exact Ho|reflexivity].
  - intros [= <-]. exists None. split; reflexivity.
Qed.

Lemma GenTensor_type_kind (σ : State) (g : nat) (k : TensorType) :
  kind σ g = Some k -> GenTensor_type g σ = Done k σ.
Proof.
  unfold kind, GenTensor_type, bind, get_ptr, load.
  destruct (handles σ !! g) as [[a|]|]; try discriminate.
  - destruct (objects σ !! a) as [o|]; [|discriminate]. intros [= <-]. reflexivity.
  - intros [= <-]. reflexivity.
Qed.

Lemma backend_of_Some (σ : State) (g a : nat) :
  backend_of σ g = Some a <-> handles σ !! g = Some (Some a).
Proof.
  unfold backend_of. destruct (handles σ !! g) as [p|]; split; congruence.
Qed.

Lemma assert_same_type_mismatch (σ : State) (o o2 : SepRepTensor) (b : nat) :
  objects σ !! b = Some o2 ->
  SepRepTensor_type o <> SepRepTensor_type o2 ->
  assert_same_type o (Some b) σ = Failed AssertTypeMismatch σ.
Proof.
  intros Hb Hne. unfold assert_same_type.
  rewrite (bind_Done _ _ _ _ _ (deref_Some _ _ _ Hb)).
  rewrite bool_decide_eq_false_2 by exact Hne. reflexivity.
Qed.

(** ** Kind mismatch *)

(** With backends of different kinds the virtual [gaxpy] stops at its first
    assertion, whichever backend receives the call. *)
Lemma SepRepTensor_gaxpy_mismatch (σ : State) (a b : nat) (o o2 : SepRepTensor)
    (alpha beta : Dbl) :
  objects σ !! a = Some o -> objects σ !! b = Some o2 ->
  SepRepTensor_type o <> SepRepTensor_type o2 ->
  SepRepTensor_gaxpy a alpha (Some b) beta σ = Failed AssertTypeMismatch σ.
Proof.
  intros Ha Hb Hne. unfold SepRepTensor_gaxpy.
  rewrite (bind_Done _ _ _ _ _ (load_Some _ _ _ Ha)).
  destruct o as [data|d];
    apply bind_Failed; eapply assert_same_type_mismatch; eassumption.
Qed.

(** C1 (as amended): for handles [a] and [b] whose kinds differ,
    [trace_conj] fails with the kind-mismatch assertion, and so do
    [a += b] and [gaxpy] with real factors when both handles have a backend
    attached; the failed call leaves the store, hence both operands, as it
    was. *)
Theorem kind_mismatch_fails_fast (σ : State) (a b : nat) (ka kb : TensorType) :
  kind σ a = Some ka -> kind σ b = Some kb -> ka <> kb ->
  GenTensor_trace_conj a b σ = Failed AssertTypeMismatch σ /\
  (is_Some (backend_of σ a) -> is_Some (backend_of σ b) ->
   GenTensor_iadd a b σ = Failed AssertTypeMismatch σ /\
   forall alpha beta : Dbl,
     GenTensor_gaxpy a alpha b beta σ = Failed AssertTypeMismatch σ).
Proof.
  intros Ha Hb Hne. split.
  - unfold GenTensor_trace_conj.
    rewrite (bind_Done _ _ _ _ _ (GenTensor_type_kind _ _ _ Ha)).
    rewrite (bind_Done _ _ _ _ _ (GenTensor_type_kind _ _ _ Hb)).
    rewrite bool_decide_eq_false_2 by exact Hne. reflexivity.
  - intros [pa Hpa] [pb Hpb].
    apply backend_of_Some in Hpa. apply backend_of_Some in Hpb.
    destruct (kind_inv _ _ _ Ha) as (p & Hp & Hka).
    rewrite Hpa in Hp. injection Hp as <-. destruct Hka as (oa & Hoa & ->).
    destruct (kind_inv _ _ _ Hb) as (q & Hq & Hkb).
    rewrite Hpb in Hq. injection Hq as <-. destruct Hkb as (ob & Hob & ->).
    split.
    + unfold GenTensor_iadd.
      rewrite (bind_Done _ _ _ _ _ (get_ptr_Some _ _ _ Hpa)).
      rewrite (bind_Done _ _ _ _ _ (deref_Some _ _ _ Hoa)).
      rewrite (bind_Done _ _ _ _ _ (get_ptr_Some _ _ _ Hpb)).
      rewrite (bind_Done _ _ _ _ _ (deref_Some _ _ _ Hob)).
      rewrite bool_decide_eq_false_2 by exact Hne. reflexivity.
    + intros alpha beta. unfold GenTensor_gaxpy.
      rewrite (bind_Done _ _ _ _ _ (get_ptr_Some _ _ _ Hpa)).
      rewrite (bind_Done _ _ _ _ _ (deref_Some _ _ _ Hoa)).
      rewrite (bind_Done _ _ _ _ _ (get_ptr_Some _ _ _ Hpb)).
      eapply SepRepTensor_gaxpy_mismatch; eauto.
Qed.

(** ** Queries on an empty handle *)

(** C10: on a handle with no backend attached, [has_data()] returns false,
    [size()] returns 0, [type()] returns [TT_NONE] and [ndim()] returns -1;
    none of them fails and none changes the store. *)
Theorem empty_handle_queries (σ : State) (g : nat) :
  handles σ !! g = Some None ->
  GenTensor_has_data g σ = Done false σ /\
  GenTensor_size g σ = Done 0 σ /\
  GenTensor_type g σ = Done TT_NONE σ /\
  GenTensor_ndim g σ = Done (-1) σ.
Proof.
  intros Hg.
  unfold GenTensor_has_data, GenTensor_size, GenTensor_type, GenTensor_ndim.
  rewrite !(bind_Done _ _ _ _ _ (get_ptr_Some _ _ _ Hg)). auto.
Qed.

(** ** Dimension swap *)

(** C9: [swapdim(i,j)] on a handle fails with the assertion
    [MADNESS_ASSERT(0)] for every handle, every kind of backend and all
    [i], [j]; the store is unchanged, so the dense backend's [swapdim] has
    not run and no backend was created. *)
Theorem GenTensor_swapdim_fails (σ : State) (g : nat) (idim jdim : Z) :
  GenTensor_swapdim g idim jdim σ = Failed AssertZero σ.
Proof. reflexivity. Qed.

(** ** Conversions on a low-rank tensor of kind [TT_2D] *)

Lemma GenTensor_has_data_backend (σ : State) (g a : nat) (o : SepRepTensor) :
  handles σ !! g = Some (Some a) -> objects σ !! a = Some o ->
  GenTensor_has_data g σ = Done (SepRepTensor_has_data o) σ.
Proof.
  intros Hg Ha. unfold GenTensor_has_data.
  rewrite (bind_Done _ _ _ _ _ (get_ptr_Some _ _ _ Hg)).
  rewrite (bind_Done _ _ _ _ _ (load_Some _ _ _ Ha)). reflexivity.
Qed.

Lemma GenTensor_type_backend (σ : State) (g a : nat) (o : SepRepTensor) :
  handles σ !! g = Some (Some a) -> objects σ !! a = Some o ->
  GenTensor_type g σ = Done (SepRepTensor_type o) σ.
Proof.
  intros Hg Ha. unfold GenTensor_type.
  rewrite (bind_Done _ _ _ _ _ (get_ptr_Some _ _ _ Hg)).
  rewrite (bind_Done _ _ _ _ _ (load_Some _ _ _ Ha)). reflexivity.
Qed.

(** C4 (the failing input): [to_full_rank] on a handle whose backend is a
    valid low-rank tensor of kind [TT_2D] throws the runtime error
    "unknown TensorType in to_full_tensor"; nothing is reconstructed and the
    handle keeps its low-rank backend. *)
Theorem to_full_rank_2D_throws (σ : State) (g a : nat) (d : SR) :
  handles σ !! g = Some (Some a) ->
  objects σ !! a = Some (LowRankTensor d) ->
  sr_is_valid d = true ->
  sr_tensor_type d = TT_2D ->
  to_full_rank g σ = Failed (RuntimeError "unknown TensorType in to_full_tensor") σ.
Proof.
  intros Hg Ha Hv Hk. unfold to_full_rank.
  rewrite (bind_Done _ _ _ _ _ (GenTensor_has_data_backend _ _ _ _ Hg Ha)).
  simpl. rewrite Hv.
  rewrite (bind_Done _ _ _ _ _ (GenTensor_type_backend _ _ _ _ Hg Ha)).
  simpl. rewrite Hk. reflexivity.
Qed.

(** C5 (the failing input): [to_low_rank] on a handle whose backend is a
    valid low-rank tensor of kind [TT_2D] throws the same runtime error for
    every accuracy and every target kind, the target [TT_2D] included. *)
Theorem to_low_rank_2D_throws (σ : State) (g a : nat) (d : SR) (eps : Dbl)
    (target_type : TensorType) :
  handles σ !! g = Some (Some a) ->
  objects σ !! a = Some (LowRankTensor d) ->
  sr_is_valid d = true ->
  sr_tensor_type d = TT_2D ->
  to_low_rank g eps target_type σ
  = Failed (RuntimeError "unknown TensorType in to_full_tensor") σ.
Proof.
  intros Hg Ha Hv Hk. unfold to_low_rank.
  rewrite (bind_Done _ _ _ _ _ (GenTensor_has_data_backend _ _ _ _ Hg Ha)).
  simpl. rewrite Hv.
  rewrite (bind_Done _ _ _ _ _ (GenTensor_type_backend _ _ _ _ Hg Ha)).
  simpl. rewrite Hk. reflexivity.
Qed.

(** ** Frames: what an operation may change *)

Lemma same_shape_refl (o : SepRepTensor) : same_shape o o.
Proof. destruct o; simpl; auto. Qed.

Lemma same_shape_trans (o1 o2 o3 : SepRepTensor) :
  same_shape o1 o2 -> same_shape o2 o3 -> same_shape o1 o3.
Proof. destruct o1, o2, o3; simpl; try tauto; congruence. Qed.

Lemma keeps_shapes_refl (σ : State) : keeps_shapes σ σ.
Proof. intros a o Ha. exists o. split; [exact Ha|apply same_shape_refl]. Qed.

Lemma keeps_shapes_trans (σ σ1 σ2 : State) :
  keeps_shapes σ σ1 -> keeps_shapes σ1 σ2 -> keeps_shapes σ σ2.
Proof.
  intros H1 H2 a o Ha. destruct (H1 a o Ha) as (o1 & Ha1 & S1).
  destruct (H2 a o1 Ha1) as (o2 & Ha2 & S2). exists o2.
  split; [exact Ha2|]. eapply same_shape_trans; eauto.
Qed.

Lemma keeps_shapes_objects (σ σ' : State) :
  (forall a o, objects σ !! a = Some o -> objects σ' !! a = Some o) ->
  keeps_shapes σ σ'.
Proof.
  intros H a o Ha. exists o. split; [apply H, Ha|apply same_shape_refl].
Qed.

Lemma stable_refl (G A B : option nat) (σ : State) : stable_outside G A B σ σ.
Proof. unfold stable_outside. auto using keeps_shapes_refl. Qed.

Lemma stable_trans (G A B : option nat) (σ σ1 σ2 : State) :
  stable_outside G A B σ σ1 -> stable_outside G A B σ1 σ2 ->
  stable_outside G A B σ σ2.
Proof.
  unfold stable_outside. intros (H1 & H2 & H3 & H4) (K1 & K2 & K3 & K4).
  split; [|split; [|split]]; eauto using keeps_shapes_trans.
Qed.

Lemma stable_weaken_None (G A B : option nat) (σ σ' : State) :
  (stable_outside None A B σ σ' -> stable_outside G A B σ σ') /\
  (stable_outside G None B σ σ' -> stable_outside G A B σ σ') /\
  (stable_outside G A None σ σ' -> stable_outside G A B σ σ').
Proof.
  unfold stable_outside.
  split; [|split]; intros (H1 & H2 & H3 & H4); (split; [|split; [|split]]);
    try exact H4; intros; eauto;
    (apply H1 || apply H2 || apply H3); auto; discriminate.
Qed.

Lemma stable_alloc (G A B : option nat) (σ σ' : State) :
  stable_outside None None None σ σ' -> stable_outside G A B σ σ'.
Proof.
  intros H.
  apply (proj2 (proj2 (stable_weaken_None G A B σ σ'))).
  apply (proj1 (proj2 (stable_weaken_None G A None σ σ'))).
  apply (proj1 (stable_weaken_None G None None σ σ')). exact H.
Qed.

(** The state a sequence ends in. *)
Lemma final_bind {A B} (m : M A) (f : A -> M B) (σ : State) (P : State -> Prop) :
  (forall e σ1, m σ = Failed e σ1 -> P σ1) ->
  (forall a σ1, m σ = Done a σ1 -> P (final (f a σ1))) ->
  P (final (bind m f σ)).
Proof.
  intros HF HD. unfold bind. destruct (m σ) as [a σ1|e σ1] eqn:E; simpl; eauto.
Qed.

Lemma readonly_Done {A} (m : M A) (σ σ1 : State) (a : A) :
  readonly m -> m σ = Done a σ1 -> σ1 = σ.
Proof. intros Hr E. specialize (Hr σ). rewrite E in Hr. exact Hr. Qed.

Lemma readonly_Failed {A} (m : M A) (σ σ1 : State) (e : Failure) :
  readonly m -> m σ = Failed e σ1 -> σ1 = σ.
Proof. intros Hr E. specialize (Hr σ). rewrite E in Hr. exact Hr. Qed.

Lemma final_bind_readonly {A B} (m : M A) (f : A -> M B) (σ : State)
    (P : State -> Prop) :
  readonly m -> P σ ->
  (forall a, m σ = Done a σ -> P (final (f a σ))) ->
  P (final (bind m f σ)).
Proof.
  intros Hr HP HD. apply final_bind.
  - intros e σ1 E. rewrite (readonly_Failed _ _ _ _ Hr E). exact HP.
  - intros a σ1 E. pose proof (readonly_Done _ _ _ _ Hr E) as ->. auto.
Qed.

Lemma readonly_bind {A B} (m : M A) (f : A -> M B) :
  readonly m -> (forall a, readonly (f a)) -> readonly (bind m f).
Proof.
  intros Hm Hf σ. apply final_bind_readonly; auto. intros a _. apply Hf.
Qed.

Lemma readonly_ret {A} (a : A) : readonly (ret a : M A).
Proof. intros σ. reflexivity. Qed.

Lemma readonly_fail {A} (e : Failure) : readonly (@fail T SR A e).
Proof. intros σ. reflexivity. Qed.

Lemma readonly_lift {A} (e : Failure) (o : option A) :
  readonly (lift e o : M A).
Proof. destruct o; intros σ; reflexivity. Qed.

Lemma readonly_assert (c : bool) (e : Failure) :
  readonly (MADNESS_ASSERT c e : M unit).
Proof. destruct c; intros σ; reflexivity. Qed.

Lemma readonly_get_ptr (g : nat) : readonly (get_ptr g : M (option nat)).
Proof. intros σ. unfold get_ptr. destruct (handles σ !! g); reflexivity. Qed.

Lemma readonly_load (a : nat) : readonly (load a).
Proof. intros σ. unfold load. destruct (objects σ !! a); reflexivity. Qed.

Lemma readonly_deref (p : option nat) :
  readonly (deref p : M (nat * SepRepTensor)).
Proof.
  destruct p as [a|]; simpl; [|apply readonly_fail].
  apply readonly_bind; [apply readonly_load|]. intros o. apply readonly_ret.
Qed.

Lemma readonly_as_FullTensor (rhs : option nat) :
  readonly (as_FullTensor rhs : M Tensor).
Proof.
  apply readonly_bind; [apply readonly_deref|]. intros [a [t|d]];
    [apply readonly_ret|apply readonly_fail].
Qed.

Lemma readonly_as_LowRankTensor (rhs : option nat) :
  readonly (as_LowRankTensor rhs).
Proof.
  apply readonly_bind; [apply readonly_deref|]. intros [a [t|d]];
    [apply readonly_fail|apply readonly_ret].
Qed.

Lemma readonly_assert_same_type (o : SepRepTensor) (rhs : option nat) :
  readonly (assert_same_type o rhs).
Proof.
  apply readonly_bind; [apply readonly_deref|]. intros [a o2].
  apply readonly_assert.
Qed.

Lemma readonly_full_slices (n : Z) :
  readonly (full_slices n : M (list Slice)).
Proof.
  unfold full_slices. destruct (n <? 0); [apply readonly_fail|apply readonly_ret].
Qed.

Lemma readonly_GenTensor_ndim (g : nat) :
  readonly (GenTensor_ndim g : M Z).
Proof.
  apply readonly_bind; [apply readonly_get_ptr|]. intros [a|];
    [|apply readonly_ret].
  apply readonly_bind; [apply readonly_load|]. intros o. apply readonly_ret.
Qed.

Lemma readonly_GenTensor_type (g : nat) : readonly (GenTensor_type g).
Proof.
  apply readonly_bind; [apply readonly_get_ptr|]. intros [a|];
    [|apply readonly_ret].
  apply readonly_bind; [apply readonly_load|]. intros o. apply readonly_ret.
Qed.

Lemma get_ptr_Done (σ σ1 : State) (g : nat) (p : option nat) :
  get_ptr g σ = Done p σ1 -> handles σ !! g = Some p.
Proof.
  unfold get_ptr. destruct (handles σ !! g); [|discriminate]. congruence.
Qed.

Lemma load_Done (σ σ1 : State) (a : nat) (o : SepRepTensor) :
  load a σ = Done o σ1 -> objects σ !! a = Some o.
Proof.
  unfold load. destruct (objects σ !! a); [|discriminate]. congruence.
Qed.

Lemma deref_Done (σ σ1 : State) (p : option nat) (a : nat) (o : SepRepTensor) :
  deref p σ = Done (a, o) σ1 -> p = Some a /\ objects σ !! a = Some o.
Proof.
  destruct p as [a'|]; simpl; [|discriminate].
  unfold bind, load. destruct (objects σ !! a') eqn:E; [|discriminate].
  unfold ret. intros [= <- <- <-]. auto.
Qed.

Lemma as_FullTensor_Done (σ σ1 : State) (p : option nat) (t : Tensor) :
  as_FullTensor p σ = Done t σ1 ->
  exists a, p = Some a /\ objects σ !! a = Some (FullTensor t).
Proof.
  unfold as_FullTensor, bind. destruct (deref p σ) as [[a o] σ2|] eqn:E;
    [|discriminate].
  apply deref_Done in E as [-> Ho]. destruct o; [|discriminate].
  unfold ret. intros [= <- <-]. eauto.
Qed.

Lemma as_LowRankTensor_Done (σ σ1 : State) (p : option nat) (a : nat) (d : SR) :
  as_LowRankTensor p σ = Done (a, d) σ1 ->
  p = Some a /\ objects σ !! a = Some (LowRankTensor d).
Proof.
  unfold as_LowRankTensor, bind. destruct (deref p σ) as [[a' o] σ2|] eqn:E;
    [|discriminate].
  apply deref_Done in E as [-> Ho]. destruct o; [discriminate|].
  unfold ret. intros [= <- <- <-]. auto.
Qed.

(** *** Allocation *)

Lemma new_buffer_stable (l : list T) (σ : State) :
  stable_outside None None None σ (final (new_buffer l σ)).
Proof.
  unfold new_buffer. simpl.
  split; [|split; [|split]]; auto; [|apply keeps_shapes_objects; auto].
  intros b k _ Hb. simpl. rewrite lookup_insert_ne; [exact Hb|].
  apply not_eq_sym. eapply fresh_ne; eauto.
Qed.

Lemma new_object_stable (o : SepRepTensor) (σ : State) :
  stable_outside None None None σ (final (new_object o σ)).
Proof.
  unfold new_object. simpl.
  assert (Hk : forall a k, objects σ !! a = Some k ->
                 <[fresh (dom (objects σ)) := o]> (objects σ) !! a = Some k).
  { intros a k Ha. rewrite lookup_insert_ne; [exact Ha|].
    apply not_eq_sym. eapply fresh_ne; eauto. }
  split; [|split; [|split]]; auto.
  apply keeps_shapes_objects. exact Hk.
Qed.

Lemma new_handle_stable (p : option nat) (σ : State) :
  stable_outside None None None σ (final (new_handle p σ)).
Proof.
  unfold new_handle. simpl.
  split; [|split; [|split]]; auto; [|apply keeps_shapes_objects; auto].
  intros g k _ Hg. simpl. rewrite lookup_insert_ne; [exact Hg|].
  apply not_eq_sym. eapply fresh_ne; eauto.
Qed.

Lemma store_stable (a : nat) (d d0 : SR) (σ : State) :
  objects σ !! a = Some (LowRankTensor d0) ->
  stable_outside None (Some a) None σ (final (store a (LowRankTensor d) σ)).
Proof.
  intros Ho. unfold store. rewrite Ho. simpl.
  split; [|split; [|split]]; auto.
  - intros a' k Hne Ha. simpl. rewrite lookup_insert_ne; [exact Ha|]. congruence.
  - intros a' k Ha. simpl. destruct (decide (a = a')) as [<-|Hne].
    + rewrite lookup_insert_eq. eexists. split; [reflexivity|].
      rewrite Ho in Ha. injection Ha as <-. exact I.
    + rewrite lookup_insert_ne by exact Hne. exists k.
      split; [exact Ha|apply same_shape_refl].
Qed.

Lemma set_ptr_stable (g : nat) (p : option nat) (σ : State) :
  stable_outside (Some g) None None σ (final (set_ptr g p σ)).
Proof.
  unfold set_ptr. destruct (handles σ !! g); simpl; [|apply stable_refl].
  split; [|split; [|split]]; auto; [|apply keeps_shapes_objects; auto].
  intros g' k Hne Hg. simpl.
  rewrite lookup_insert_ne; [exact Hg|]. congruence.
Qed.

Lemma Tensor_of_elements_stable (ds : list nat) (l : list T) (σ : State) :
  stable_outside None None None σ (final (Tensor_of_elements ds l σ)).
Proof. apply new_buffer_stable. Qed.

Lemma Tensor_copy_stable (t : Tensor) (σ : State) :
  stable_outside None None None σ (final (Tensor_copy t σ)).
Proof.
  unfold Tensor_copy. destruct (t_p t); [|apply stable_refl].
  destruct (Tensor_read σ t); [apply Tensor_of_elements_stable|apply stable_refl].
Qed.

(** *** In-place loops on a dense tensor *)

Lemma Tensor_update_stable (t : Tensor) loop (σ : State) :
  (forall B b B' b', loop B b = Some B' -> b' <> b -> B' !! b' = B !! b') ->
  stable_outside None None (t_p t) σ (final (Tensor_update t loop σ)).
Proof.
  intros Hloop. unfold Tensor_update. destruct (t_p t) as [b|]; [|apply stable_refl].
  destruct (loop (buffers σ) b) as [B'|] eqn:E; simpl; [|apply stable_refl].
  split; [|split; [|split]]; auto; [|apply keeps_shapes_objects; auto].
  intros b' l Hne Hb. simpl.
  rewrite (Hloop _ _ _ b' E); [exact Hb|]. congruence.
Qed.

Lemma Tensor_scale_stable (t : Tensor) (x : T) (σ : State) :
  stable_outside None None (t_p t) σ (final (Tensor_scale t x σ)).
Proof.
  apply Tensor_update_stable. intros B b B' b'. apply map_inplace_other.
Qed.

Lemma Tensor_zip_stable (f : T -> T -> T) (t o : Tensor) (σ : State) :
  stable_outside None None (t_p t) σ (final (Tensor_zip f t o σ)).
Proof.
  unfold Tensor_zip. destruct (conforms t o); [|apply stable_refl].
  destruct (t_p o) as [bo|]; [|apply stable_refl].
  apply Tensor_update_stable. intros B b B' b'. apply zip_inplace_other.
Qed.

Lemma Tensor_mutate_stable (m : TensorMutation) (t : Tensor) (σ : State) :
  stable_outside None None (t_p t) σ (final (Tensor_mutate m t σ)).
Proof.
  destruct m; simpl;
    [apply Tensor_scale_stable|apply Tensor_zip_stable|apply Tensor_zip_stable].
Qed.

Lemma Tensor_slice_p (t v : Tensor) (s : list Slice) :
  Tensor_slice t s = Some v -> t_p v = t_p t.
Proof.
  unfold Tensor_slice. destruct (t_p t) as [b|]; [|discriminate].
  destruct (slice_shape (t_off t) (t_shape t) s) as [[off sh]|]; [|discriminate].
  intros [= <-]. reflexivity.
Qed.

(** *** Mutations of a backend *)

Create HintDb readonly.

#[local] Hint Resolve readonly_ret readonly_fail readonly_lift readonly_assert
  readonly_get_ptr readonly_load readonly_deref readonly_as_FullTensor
  readonly_as_LowRankTensor readonly_assert_same_type readonly_full_slices
  readonly_GenTensor_ndim readonly_GenTensor_type : readonly.

Ltac step_readonly :=
  apply final_bind_readonly;
  [ solve [auto with readonly] | solve [apply stable_refl] | ].

Lemma stable_buffer (G A : option nat) (b : option nat) (σ σ' : State) :
  stable_outside None None b σ σ' -> stable_outside G A b σ σ'.
Proof.
  intros H.
  apply (proj1 (proj2 (stable_weaken_None G A b σ σ'))).
  apply (proj1 (stable_weaken_None G None b σ σ')). exact H.
Qed.

Lemma stable_object (G A B : option nat) (σ σ' : State) :
  stable_outside None A None σ σ' -> stable_outside G A B σ σ'.
Proof.
  intros H.
  apply (proj2 (proj2 (stable_weaken_None G A B σ σ'))).
  apply (proj1 (stable_weaken_None G A None σ σ')). exact H.
Qed.

Lemma buffer_at_Full (σ : State) (a : nat) (t : Tensor) :
  objects σ !! a = Some (FullTensor t) -> buffer_at σ (Some a) = t_p t.
Proof. intros H. simpl. rewrite H. reflexivity. Qed.

Lemma SepRepTensor_scale_stable (a : nat) (x : T) (σ : State) :
  stable_outside None (Some a) (buffer_at σ (Some a)) σ
    (final (SepRepTensor_scale a x σ)).
Proof.
  unfold SepRepTensor_scale. step_readonly. intros [data|d] Ho%load_Done.
  - rewrite (buffer_at_Full _ _ _ Ho). apply stable_buffer, Tensor_scale_stable.
  - eapply stable_object, store_stable; eassumption.
Qed.

Lemma SepRepTensor_reduceRank_stable (a : nat) (eps : Dbl) (σ : State) :
  stable_outside None (Some a) (buffer_at σ (Some a)) σ
    (final (SepRepTensor_reduceRank a eps σ)).
Proof.
  unfold SepRepTensor_reduceRank. step_readonly. intros [data|d] Ho%load_Done.
  - apply stable_refl.
  - eapply stable_object, store_stable; eassumption.
Qed.

Lemma SepRepTensor_finalize_accumulate_stable (a : nat) (σ : State) :
  stable_outside None (Some a) (buffer_at σ (Some a)) σ
    (final (SepRepTensor_finalize_accumulate a σ)).
Proof.
  unfold SepRepTensor_finalize_accumulate. step_readonly.
  intros [data|d] Ho%load_Done.
  - apply stable_refl.
  - eapply stable_object, store_stable; eassumption.
Qed.

Lemma SepRepTensor_gaxpy_stable (a : nat) (alpha beta : Dbl) (rhs : option nat)
    (σ : State) :
  stable_outside None (Some a) (buffer_at σ (Some a)) σ
    (final (SepRepTensor_gaxpy a alpha rhs beta σ)).
Proof.
  unfold SepRepTensor_gaxpy. step_readonly. intros [data|d] Ho%load_Done.
  - step_readonly. intros _ _. step_readonly. intros t _.
    rewrite (buffer_at_Full _ _ _ Ho). apply stable_buffer, Tensor_zip_stable.
  - step_readonly. intros _ _. step_readonly. intros [a2 o2] _.
    step_readonly. intros _ _. step_readonly. intros [a3 t] _.
    step_readonly. intros s _. step_readonly. intros d' _.
    eapply stable_object, store_stable; eassumption.
Qed.

Lemma SepRepTensor_inplace_add_stable (a : nat) (rhs : option nat)
    (lhs_s rhs_s : list Slice) (σ : State) :
  stable_outside None (Some a) (buffer_at σ (Some a)) σ
    (final (SepRepTensor_inplace_add a rhs lhs_s rhs_s σ)).
Proof.
  unfold SepRepTensor_inplace_add. step_readonly. intros [data|d] Ho%load_Done.
  - step_readonly. intros _ _. step_readonly. intros t _.
    apply final_bind_readonly; [auto with readonly|apply stable_refl|].
    intros l Hl. step_readonly. intros r _.
    rewrite (buffer_at_Full _ _ _ Ho).
    destruct (Tensor_slice data lhs_s) as [v|] eqn:Hv; [|discriminate].
    injection Hl as <-. rewrite <- (Tensor_slice_p _ _ _ Hv).
    apply stable_buffer, Tensor_zip_stable.
  - step_readonly. intros _ _. step_readonly. intros [a3 t] _.
    step_readonly. intros d' _. eapply stable_object, store_stable; eassumption.
Qed.

Lemma SepRepTensor_update_by_stable (a : nat) (rhs : option nat) (σ : State) :
  stable_outside None (Some a) (buffer_at σ (Some a)) σ
    (final (SepRepTensor_update_by a rhs σ)).
Proof.
  unfold SepRepTensor_update_by. step_readonly. intros [data|d] Ho%load_Done.
  - step_readonly. intros _ _. step_readonly. intros t _.
    rewrite (buffer_at_Full _ _ _ Ho). apply stable_buffer, Tensor_zip_stable.
  - step_readonly. intros _ _. step_readonly. intros [a3 t] _.
    step_readonly. intros d' _. eapply stable_object, store_stable; eassumption.
Qed.

(** [accumulate_into] changes its argument, not the backend it is called
    on. *)
Lemma SepRepTensor_accumulate_into_stable (a : nat) (rhs : option nat)
    (fac : Dbl) (σ : State) :
  stable_outside None rhs (buffer_at σ rhs) σ
    (final (SepRepTensor_accumulate_into a rhs fac σ)).
Proof.
  unfold SepRepTensor_accumulate_into. step_readonly. intros [data|d] _.
  - step_readonly. intros _ _.
    apply final_bind_readonly; [auto with readonly|apply stable_refl|].
    intros t (b & -> & Hb)%as_FullTensor_Done.
    rewrite (buffer_at_Full _ _ _ Hb). apply stable_buffer, Tensor_zip_stable.
  - apply final_bind_readonly; [auto with readonly|apply stable_refl|].
    intros [a2 other] [-> Hb]%as_LowRankTensor_Done.
    step_readonly. intros d' _. eapply stable_object, store_stable; eassumption.
Qed.

(** *** Mutations through a handle *)

Lemma backend_of_get_ptr (σ σ1 : State) (g : nat) (p : option nat) :
  get_ptr g σ = Done p σ1 -> backend_of σ g = p.
Proof. intros H%get_ptr_Done. unfold backend_of. rewrite H. reflexivity. Qed.

Ltac step_this :=
  apply final_bind_readonly;
  [ solve [auto with readonly] | solve [apply stable_refl] | ];
  let p := fresh "p" in let Hp := fresh "Hp" in
  intros p Hp; unfold buffer_of; rewrite (backend_of_get_ptr _ _ _ _ Hp);
  apply get_ptr_Done in Hp.

Ltac step_deref :=
  apply final_bind_readonly;
  [ solve [auto with readonly] | solve [apply stable_refl] | ];
  let a := fresh "a" in let o := fresh "o" in let H := fresh "H" in
  intros [a o] H; apply deref_Done in H as [-> H].


(** ** Content and footprint *)

Lemma Tensor_read_Some_dom (σ : State) (t : Tensor) (l : list T) (b : nat) :
  Tensor_read σ t = Some l -> t_p t = Some b -> is_Some (buffers σ !! b).
Proof.
  unfold Tensor_read. intros Hr Hb. rewrite Hb in Hr.
  eapply read_offsets_Some_dom; eauto.
Qed.

Lemma Tensor_read_stable (G A B : option nat) (σ σ' : State) (t : Tensor)
    (l : list T) :
  stable_outside G A B σ σ' -> Tensor_read σ t = Some l ->
  (forall b, t_p t = Some b -> B <> Some b) ->
  Tensor_read σ' t = Some l.
Proof.
  intros (_ & _ & HB & _) Hr Hne. unfold Tensor_read in *.
  destruct (t_p t) as [b|]; [|exact Hr].
  eapply read_offsets_preserved; [|exact Hr]. intros k Hk.
  apply HB; auto.
Qed.

(** What [content] tells about the store. *)
Lemma content_Some_inv (σ : State) (g : nat) (c : Content) :
  content σ g = Some c ->
  exists p, handles σ !! g = Some p /\
    forall a, p = Some a ->
      exists o, objects σ !! a = Some o /\
        forall t, o = FullTensor t ->
          exists l, Tensor_read σ t = Some l.
Proof.
  unfold content. destruct (handles σ !! g) as [[a|]|] eqn:Hg; [| |discriminate].
  - destruct (objects σ !! a) as [o|] eqn:Ha; [|discriminate].
    intros Hc. exists (Some a). split; [reflexivity|].
    intros a' [= <-]. exists o. split; [exact Ha|].
    intros t ->. simpl in Hc.
    destruct (Tensor_read σ t) as [l|]; [eauto|discriminate].
  - intros _. exists None. split; [reflexivity|]. discriminate.
Qed.

Lemma content_stable (G A B : option nat) (σ σ' : State) (g : nat) (c : Content) :
  stable_outside G A B σ σ' -> content σ g = Some c ->
  G <> Some g ->
  (forall a, backend_of σ g = Some a -> A <> Some a) ->
  (forall b, buffer_of σ g = Some b -> B <> Some b) ->
  content σ' g = Some c.
Proof.
  intros Hst Hc HG HA HB. pose proof Hst as (SH & SO & SB & _).
  unfold content, buffer_of, backend_of in *.
  destruct (handles σ !! g) as [p|] eqn:Hg; [|discriminate].
  rewrite (SH _ _ HG Hg). destruct p as [a|]; [|exact Hc].
  destruct (objects σ !! a) as [o|] eqn:Ha; [|discriminate].
  rewrite (SO _ _ (HA _ eq_refl) Ha). destruct o as [t|d]; [|exact Hc].
  simpl in HB. rewrite Ha in HB. simpl in *.
  destruct (Tensor_read σ t) as [l|] eqn:Hr; [|discriminate].
  rewrite (Tensor_read_stable _ _ _ _ _ _ _ Hst Hr); [exact Hc|].
  intros b Hb. apply HB. exact Hb.
Qed.

Lemma footprint_stable (G A B : option nat) (σ σ' : State) (g : nat)
    (c : Content) :
  stable_outside G A B σ σ' -> content σ g = Some c ->
  G <> Some g ->
  (forall a, backend_of σ g = Some a -> A <> Some a) ->
  backend_of σ' g = backend_of σ g /\ buffer_of σ' g = buffer_of σ g.
Proof.
  intros (SH & SO & SB & _) Hc HG HA.
  destruct (content_Some_inv _ _ _ Hc) as (p & Hg & Hp).
  unfold buffer_of, backend_of in *. rewrite Hg in *. rewrite (SH _ _ HG Hg).
  split; [reflexivity|]. destruct p as [a|]; [|reflexivity].
  destruct (Hp a eq_refl) as (o & Ho & _). simpl.
  rewrite Ho, (SO _ _ (HA _ eq_refl) Ho). reflexivity.
Qed.

(** The backend and the buffer of a handle with content are allocated. *)
Lemma content_backend_allocated (σ : State) (g a : nat) (c : Content) :
  content σ g = Some c -> backend_of σ g = Some a -> is_Some (objects σ !! a).
Proof.
  intros Hc Ha. destruct (content_Some_inv _ _ _ Hc) as (p & Hg & Hp).
  unfold backend_of in Ha. rewrite Hg in Ha. subst p.
  destruct (Hp a eq_refl) as (o & Ho & _). eauto.
Qed.

Lemma content_buffer_allocated (σ : State) (g b : nat) (c : Content) :
  content σ g = Some c -> buffer_of σ g = Some b -> is_Some (buffers σ !! b).
Proof.
  intros Hc Hb. destruct (content_Some_inv _ _ _ Hc) as (p & Hg & Hp).
  unfold buffer_of, backend_of in Hb. rewrite Hg in Hb.
  destruct p as [a|]; [|discriminate].
  destruct (Hp a eq_refl) as (o & Ho & Ht). simpl in Hb. rewrite Ho in Hb.
  destruct o as [t|d]; [|discriminate].
  destruct (Ht t eq_refl) as (l & Hl). eapply Tensor_read_Some_dom; eauto.
Qed.

Lemma well_bound_content (σ : State) (g : nat) (c : Content) :
  content σ g = Some c -> well_bound σ g.
Proof.
  intros Hc. destruct (content_Some_inv _ _ _ Hc) as (p & Hg & Hp).
  exists p. split; [exact Hg|]. intros a Ha.
  destruct (Hp a Ha) as (o & Ho & _). eauto.
Qed.

Lemma buffer_at_same_shape (σ σ' : State) (a : nat) (o o' : SepRepTensor) :
  objects σ !! a = Some o -> objects σ' !! a = Some o' -> same_shape o o' ->
  buffer_at σ' (Some a) = buffer_at σ (Some a).
Proof.
  intros Ho Ho' Hs. simpl. rewrite Ho, Ho'.
  destruct o, o'; simpl in Hs; try contradiction; congruence.
Qed.

(** A handle that stays bound to a backend that stays in its class keeps
    its footprint. *)
Lemma footprint_kept (σ σ' : State) (g : nat) :
  (forall p, handles σ !! g = Some p -> handles σ' !! g = Some p) ->
  keeps_shapes σ σ' -> well_bound σ g ->
  backend_of σ' g = backend_of σ g /\ buffer_of σ' g = buffer_of σ g /\
  well_bound σ' g.
Proof.
  intros SH KS (p & Hg & Hp). unfold buffer_of, backend_of, well_bound.
  rewrite Hg, (SH _ Hg). split; [reflexivity|].
  destruct p as [a|].
  - destruct (Hp a eq_refl) as [o Ho]. destruct (KS a o Ho) as (o' & Ho' & Hs).
    split; [eapply buffer_at_same_shape; eauto|].
    eexists. split; [reflexivity|]. intros a' [= <-]. eauto.
  - split; [reflexivity|]. eexists. split; [reflexivity|]. discriminate.
Qed.


(** ** Constructors and deep copies *)

Lemma bind_Done_inv {A B} (m : M A) (f : A -> M B) (σ σ2 : State) (b : B) :
  bind m f σ = Done b σ2 ->
  exists a σ1, m σ = Done a σ1 /\ f a σ1 = Done b σ2.
Proof.
  unfold bind. destruct (m σ) as [a σ1|e σ1]; [eauto|discriminate].
Qed.

Lemma frames_bind {A B} (G : option nat) (m : M A) (f : A -> M B) :
  frames G m -> (forall a, frames G (f a)) -> frames G (bind m f).
Proof.
  intros Hm Hf σ. apply final_bind.
  - intros e σ1 E. specialize (Hm σ). rewrite E in Hm. exact Hm.
  - intros a σ1 E. eapply stable_trans; [|apply Hf].
    specialize (Hm σ). rewrite E in Hm. exact Hm.
Qed.

Lemma frames_readonly {A} (G : option nat) (m : M A) : readonly m -> frames G m.
Proof. intros Hr σ. rewrite Hr. apply stable_refl. Qed.

Lemma frames_alloc {A} (G : option nat) (m : M A) : frames None m -> frames G m.
Proof. intros H σ. apply (proj1 (stable_weaken_None G None None _ _)), H. Qed.

Lemma frames_new_object (G : option nat) (o : SepRepTensor) :
  frames G (new_object o).
Proof. apply frames_alloc. intros σ. apply new_object_stable. Qed.

Lemma frames_new_handle (G : option nat) (p : option nat) :
  frames G (new_handle p).
Proof. apply frames_alloc. intros σ. apply new_handle_stable. Qed.

Lemma frames_Tensor_copy (G : option nat) (t : Tensor) : frames G (Tensor_copy t).
Proof. apply frames_alloc. intros σ. apply Tensor_copy_stable. Qed.

Lemma frames_set_ptr (g : nat) (p : option nat) : frames (Some g) (set_ptr g p).
Proof. intros σ. apply set_ptr_stable. Qed.

Lemma readonly_LowRankTensor_of_tensor (t : Tensor) (eps : Dbl) (k : TensorType) :
  readonly (LowRankTensor_of_tensor t eps k).
Proof.
  intros σ. unfold LowRankTensor_of_tensor.
  destruct (Tensor_read σ t); [apply readonly_lift|reflexivity].
Qed.

#[local] Hint Resolve frames_new_object frames_new_handle frames_Tensor_copy
  frames_set_ptr readonly_LowRankTensor_of_tensor : readonly.

Ltac frames_tac :=
  repeat first
    [ apply frames_bind; [|intros ?]
    | solve [auto with readonly]
    | solve [apply frames_readonly; auto with readonly]
    | match goal with
      | |- frames _ (match ?x with _ => _ end) => destruct x
      | |- frames _ (if ?x then _ else _) => destruct x
      | |- frames _ (let '(_, _) := ?x in _) => destruct x
      end ].

Lemma frames_copy_this (G : option nat) (a : nat) :
  frames G (SepRepTensor_copy_this a).
Proof. unfold SepRepTensor_copy_this. frames_tac. Qed.

Lemma frames_clone_slice (G : option nat) (a : nat) (s : list Slice) :
  frames G (SepRepTensor_clone_slice a s).
Proof. unfold SepRepTensor_clone_slice. frames_tac. Qed.

#[local] Hint Resolve frames_copy_this frames_clone_slice : readonly.

Lemma frames_GenTensor_copy (rhs : nat) : frames None (GenTensor_copy rhs).
Proof. unfold GenTensor_copy. frames_tac. Qed.

Lemma frames_GenTensor_of_tensor (rhs : Tensor) (eps : Dbl) (k : TensorType) :
  frames None (GenTensor_of_tensor rhs eps k).
Proof. unfold GenTensor_of_tensor. frames_tac. Qed.

Lemma frames_GenTensor_assign_slice (this : nat) (rhs : SliceGenTensor) :
  frames (Some this) (GenTensor_assign_slice this rhs).
Proof. unfold GenTensor_assign_slice, GenTensor_clear. frames_tac. Qed.

(** *** What an allocation returns *)

Lemma new_handle_Done (p : option nat) (σ σ1 : State) (h : nat) :
  new_handle p σ = Done h σ1 ->
  handles σ !! h = None /\ handles σ1 !! h = Some p /\
  objects σ1 = objects σ /\ buffers σ1 = buffers σ.
Proof.
  unfold new_handle. intros [= <- <-]. simpl.
  split; [apply fresh_None|]. split; [apply lookup_insert_eq|]. auto.
Qed.

Lemma new_object_Done (o : SepRepTensor) (σ σ1 : State) (c : nat) :
  new_object o σ = Done c σ1 ->
  objects σ !! c = None /\ objects σ1 !! c = Some o /\
  handles σ1 = handles σ /\ buffers σ1 = buffers σ.
Proof.
  unfold new_object. intros [= <- <-]. simpl.
  split; [apply fresh_None|]. split; [apply lookup_insert_eq|]. auto.
Qed.

Lemma set_ptr_Done (g : nat) (p : option nat) (σ σ1 : State) :
  set_ptr g p σ = Done tt σ1 ->
  handles σ1 !! g = Some p /\ objects σ1 = objects σ /\ buffers σ1 = buffers σ.
Proof.
  unfold set_ptr. destruct (handles σ !! g); [|discriminate].
  intros [= <-]. simpl. split; [apply lookup_insert_eq|]. auto.
Qed.

Lemma Tensor_of_elements_Done (ds : list nat) (l : list T) (σ σ1 : State)
    (t : Tensor) :
  Tensor_of_elements ds l σ = Done t σ1 ->
  exists b, t = mkTensor (Some b) 0 (contiguous_shape ds) /\
    buffers σ !! b = None /\ buffers σ1 = <[b := l]> (buffers σ) /\
    handles σ1 = handles σ /\ objects σ1 = objects σ.
Proof.
  unfold Tensor_of_elements, bind, new_buffer, ret. intros [= <- <-]. simpl.
  eexists. split; [reflexivity|]. split; [apply fresh_None|]. auto.
Qed.

Lemma Tensor_copy_Done (t t' : Tensor) (σ σ1 : State) :
  Tensor_copy t σ = Done t' σ1 ->
  handles σ1 = handles σ /\ objects σ1 = objects σ /\
  (forall b, t_p t' = Some b -> buffers σ !! b = None).
Proof.
  unfold Tensor_copy. destruct (t_p t).
  - destruct (Tensor_read σ t) as [l|]; [|discriminate].
    intros (b & -> & Hb & _ & Hh & Ho)%Tensor_of_elements_Done.
    split; [exact Hh|]. split; [exact Ho|]. simpl. intros b' [= <-]. exact Hb.
  - unfold ret. intros [= <- <-]. simpl. split; [reflexivity|].
    split; [reflexivity|]. discriminate.
Qed.

Lemma readonly_Done_eq {A} (m : M A) (σ σ1 : State) (a : A) :
  readonly m -> m σ = Done a σ1 -> m σ = Done a σ.
Proof. intros Hr E. rewrite E. f_equal. eapply readonly_Done; eauto. Qed.

(** A backend just allocated for a tensor that has a new buffer, or for a
    separated representation. *)
Lemma new_object_fresh (o : SepRepTensor) (σ σ1 σ2 : State) (c : nat) :
  new_object o σ1 = Done c σ2 ->
  objects σ1 = objects σ ->
  (forall t b, o = FullTensor t -> t_p t = Some b -> buffers σ !! b = None) ->
  fresh_backend σ σ2 c /\ handles σ2 = handles σ1.
Proof.
  intros (Hc & Hc2 & Hh & _)%new_object_Done Ho Hb. split; [|exact Hh].
  split; [eauto|]. split; [rewrite <- Ho; exact Hc|].
  intros b. simpl. rewrite Hc2. destruct o as [t|d]; [|discriminate].
  intros Ht. eapply Hb; eauto.
Qed.

Lemma SepRepTensor_copy_this_Done (a c : nat) (σ σ2 : State) :
  SepRepTensor_copy_this a σ = Done c σ2 ->
  fresh_backend σ σ2 c /\ handles σ2 = handles σ.
Proof.
  unfold SepRepTensor_copy_this.
  intros (o & σ1 & Ho & Hk)%bind_Done_inv.
  pose proof (readonly_Done _ _ _ _ (readonly_load a) Ho) as ->.
  destruct o as [data|d].
  - apply bind_Done_inv in Hk as (t' & σ3 & Ht & Hn).
    apply Tensor_copy_Done in Ht as (Hh & Hobj & Hb).
    destruct (new_object_fresh _ σ _ _ _ Hn Hobj) as [Hf Hh2].
    + intros t b [= <-]. apply Hb.
    + split; [exact Hf|]. congruence.
  - destruct (new_object_fresh _ σ _ _ _ Hk eq_refl) as [Hf Hh2].
    + discriminate.
    + split; [exact Hf|exact Hh2].
Qed.

Lemma SepRepTensor_clone_slice_Done (a c : nat) (s : list Slice) (σ σ2 : State) :
  SepRepTensor_clone_slice a s σ = Done c σ2 ->
  fresh_backend σ σ2 c /\ handles σ2 = handles σ.
Proof.
  unfold SepRepTensor_clone_slice.
  intros (o & σ1 & Ho & Hk)%bind_Done_inv.
  pose proof (readonly_Done _ _ _ _ (readonly_load a) Ho) as ->.
  destruct o as [data|d].
  - apply bind_Done_inv in Hk as (v & σ3 & Hv & Hk).
    pose proof (readonly_Done _ _ _ _ (readonly_lift _ _) Hv) as ->.
    apply bind_Done_inv in Hk as (t' & σ3 & Ht & Hn).
    apply Tensor_copy_Done in Ht as (Hh & Hobj & Hb).
    destruct (new_object_fresh _ σ _ _ _ Hn Hobj) as [Hf Hh2].
    + intros t b [= <-]. apply Hb.
    + split; [exact Hf|]. congruence.
  - apply bind_Done_inv in Hk as (d' & σ3 & Hv & Hk).
    pose proof (readonly_Done _ _ _ _ (readonly_lift _ _) Hv) as ->.
    destruct (new_object_fresh _ σ _ _ _ Hk eq_refl) as [Hf Hh2].
    + discriminate.
    + split; [exact Hf|exact Hh2].
Qed.

(** Binding a handle to a new backend gives it a new footprint. *)
Lemma fresh_backend_footprint (σ σ2 σ1 : State) (c h : nat) :
  fresh_backend σ σ2 c ->
  handles σ1 !! h = Some (Some c) -> objects σ1 = objects σ2 ->
  fresh_footprint σ σ1 h.
Proof.
  intros (Ha & Hc & Hb) Hh Ho.
  unfold fresh_footprint, well_bound, buffer_of, backend_of.
  rewrite Hh. split; [|split].
  - eexists. split; [reflexivity|]. intros a [= <-]. rewrite Ho. exact Ha.
  - intros a [= <-]. exact Hc.
  - intros b. simpl. rewrite Ho. apply Hb.
Qed.

Lemma empty_footprint (σ σ1 : State) (h : nat) :
  handles σ1 !! h = Some None -> fresh_footprint σ σ1 h.
Proof.
  intros Hh. unfold fresh_footprint, well_bound, buffer_of, backend_of.
  rewrite Hh. split; [|split]; try (intros; discriminate).
  eexists. split; [reflexivity|]. discriminate.
Qed.

Lemma GenTensor_copy_fresh (rhs h : nat) (σ σ1 : State) :
  GenTensor_copy rhs σ = Done h σ1 -> fresh_footprint σ σ1 h.
Proof.
  unfold GenTensor_copy. intros (p & σ' & Hp & Hk)%bind_Done_inv.
  pose proof (readonly_Done _ _ _ _ (readonly_get_ptr rhs) Hp) as ->.
  destruct p as [a|].
  - apply bind_Done_inv in Hk as (c & σ2 & Hc & Hn).
    apply SepRepTensor_copy_this_Done in Hc as [Hf _].
    apply new_handle_Done in Hn as (_ & Hh & Ho & _).
    eapply fresh_backend_footprint; eauto.
  - apply new_handle_Done in Hk as (_ & Hh & _). apply empty_footprint, Hh.
Qed.

Lemma GenTensor_assign_slice_fresh (this : nat) (rhs : SliceGenTensor)
    (σ σ1 : State) :
  GenTensor_assign_slice this rhs σ = Done tt σ1 -> fresh_footprint σ σ1 this.
Proof.
  unfold GenTensor_assign_slice, GenTensor_clear.
  intros ([] & σa & Hclr & Hk)%bind_Done_inv.
  apply set_ptr_Done in Hclr as (_ & Hoa & Hba).
  apply bind_Done_inv in Hk as (p & σb & Hp & Hk).
  pose proof (readonly_Done _ _ _ _ (readonly_get_ptr _) Hp) as ->.
  apply bind_Done_inv in Hk as ([a o] & σb & Hd & Hk).
  pose proof (readonly_Done _ _ _ _ (readonly_deref _) Hd) as ->.
  apply bind_Done_inv in Hk as (c & σ2 & Hc & Hs).
  apply SepRepTensor_clone_slice_Done in Hc as [(Hf0 & Hf1 & Hf2) _].
  apply set_ptr_Done in Hs as (Hh & Ho & _).
  eapply (fresh_backend_footprint σ σ2); eauto.
  split; [exact Hf0|]. split; [rewrite <- Hoa; exact Hf1|].
  intros b Hb. rewrite <- Hba. apply Hf2, Hb.
Qed.

Lemma GenTensor_of_tensor_fresh (rhs : Tensor) (eps : Dbl) (k : TensorType)
    (h : nat) (σ σ1 : State) :
  GenTensor_of_tensor rhs eps k σ = Done h σ1 -> fresh_footprint σ σ1 h.
Proof.
  unfold GenTensor_of_tensor. destruct (bool_decide (k = TT_FULL)).
  - intros (c & σa & Hc & Hk)%bind_Done_inv.
    apply Tensor_copy_Done in Hc as (Hh & Hobj & Hb).
    apply bind_Done_inv in Hk as (a & σ2 & Hn & Hk).
    destruct (new_object_fresh _ σ _ _ _ Hn Hobj) as [Hf _].
    { intros t b [= <-]. apply Hb. }
    apply new_handle_Done in Hk as (_ & Hh1 & Ho & _).
    eapply fresh_backend_footprint; eauto.
  - destruct (bool_decide (k = TT_3D) || bool_decide (k = TT_2D)).
    + intros ([] & σa & Ha & Hk)%bind_Done_inv.
      pose proof (readonly_Done _ _ _ _ (readonly_assert _ _) Ha) as ->.
      apply bind_Done_inv in Hk as (t & σb & Ht & Hk).
      apply bind_Done_inv in Hk as (d & σc & Hd & Hk).
      pose proof (readonly_Done _ _ _ _
                    (readonly_LowRankTensor_of_tensor _ _ _) Hd) as ->.
      apply bind_Done_inv in Hk as (a & σ2 & Hn & Hk).
      assert (Hobj : objects σb = objects σ).
      { destruct (Tensor_iscontiguous rhs).
        - unfold ret in Ht. congruence.
        - apply Tensor_copy_Done in Ht as (_ & Ho & _). exact Ho. }
      destruct (new_object_fresh _ σ _ _ _ Hn Hobj) as [Hf _]; [discriminate|].
      apply new_handle_Done in Hk as (_ & Hh1 & Ho & _).
      eapply fresh_backend_footprint; eauto.
    + intros (_ & Hh & _)%new_handle_Done. apply empty_footprint, Hh.
Qed.

(** *** The content of a deep copy *)

Lemma object_content_buffers (σ σ' : State) (o : SepRepTensor) :
  buffers σ' = buffers σ -> object_content σ' o = object_content σ o.
Proof.
  intros Hb. destruct o as [t|d]; [|reflexivity].
  unfold object_content, Tensor_read. rewrite Hb. reflexivity.
Qed.

Lemma content_bound (σ : State) (h c : nat) (o : SepRepTensor) :
  handles σ !! h = Some (Some c) -> objects σ !! c = Some o ->
  content σ h = object_content σ o.
Proof. intros Hh Ho. unfold content. rewrite Hh, Ho. reflexivity. Qed.

Lemma content_unbound (σ : State) (h : nat) :
  handles σ !! h = Some None -> content σ h = Some NoBackend.
Proof. intros Hh. unfold content. rewrite Hh. reflexivity. Qed.

(** [copy(t)] holds the elements of [t], in a buffer of its own. *)
Lemma Tensor_copy_read (t t' : Tensor) (σ σ1 : State) :
  Tensor_copy t σ = Done t' σ1 ->
  exists l, Tensor_read σ t = Some l /\ Tensor_read σ1 t' = Some l /\
            Tensor_dims t' = Tensor_dims t.
Proof.
  unfold Tensor_copy. destruct (t_p t) as [b0|] eqn:Hp.
  - destruct (Tensor_read σ t) as [l|] eqn:Hr; [|discriminate].
    intros (b & -> & Hb & HB & _)%Tensor_of_elements_Done.
    exists l. split; [reflexivity|]. split.
    + unfold Tensor_read. simpl. rewrite HB, offsets_contiguous.
      assert (Hlen : length l = product (t_dims t)).
      { unfold Tensor_read in Hr. rewrite Hp in Hr.
        rewrite (read_offsets_length _ _ _ _ Hr). apply length_offsets. }
      rewrite <- Hlen. apply read_offsets_whole, lookup_insert_eq.
    + unfold Tensor_dims. simpl. rewrite Hp. apply map_fst_contiguous.
  - unfold ret. intros [= <- <-]. exists []. unfold Tensor_read, Tensor_dims.
    rewrite Hp. simpl. auto.
Qed.

Lemma SepRepTensor_copy_this_content (a c : nat) (σ σ2 : State) :
  SepRepTensor_copy_this a σ = Done c σ2 ->
  exists o o' c0, objects σ !! a = Some o /\ objects σ2 !! c = Some o' /\
    object_content σ o = Some c0 /\ object_content σ2 o' = Some (copied c0).
Proof.
  unfold SepRepTensor_copy_this.
  intros (o & σ1 & Ho & Hk)%bind_Done_inv.
  pose proof (readonly_Done _ _ _ _ (readonly_load a) Ho) as ->.
  apply load_Done in Ho. destruct o as [data|d].
  - apply bind_Done_inv in Hk as (t' & σ3 & Ht & Hn).
    apply Tensor_copy_read in Ht as (l & Hr & Hr' & Hd).
    apply new_object_Done in Hn as (_ & Hc & _ & Hb).
    exists (FullTensor data), (FullTensor t'), (Dense (Tensor_dims data) l).
    split; [exact Ho|]. split; [exact Hc|]. split.
    + simpl. rewrite Hr. reflexivity.
    + rewrite (object_content_buffers _ _ _ Hb). simpl. rewrite Hr', Hd.
      reflexivity.
  - apply new_object_Done in Hk as (_ & Hc & _ & _).
    exists (LowRankTensor d), (LowRankTensor (sr_copy d)), (Separated d). auto.
Qed.

Lemma backend_slice_data_agree (σ σ' : State) (a : nat) (s : list Slice) :
  objects σ' = objects σ -> buffers σ' = buffers σ ->
  backend_slice_data σ' a s = backend_slice_data σ a s.
Proof.
  intros Ho Hb. unfold backend_slice_data. rewrite Ho.
  destruct (objects σ !! a) as [[data|d]|]; try reflexivity.
  destruct (Tensor_slice data s); [|reflexivity].
  apply object_content_buffers, Hb.
Qed.

Lemma SepRepTensor_clone_slice_content (a c : nat) (s : list Slice)
    (σ σ2 : State) :
  SepRepTensor_clone_slice a s σ = Done c σ2 ->
  exists o', objects σ2 !! c = Some o' /\
    object_content σ2 o' = backend_slice_data σ a s.
Proof.
  unfold SepRepTensor_clone_slice, backend_slice_data.
  intros (o & σ1 & Ho & Hk)%bind_Done_inv.
  pose proof (readonly_Done _ _ _ _ (readonly_load a) Ho) as ->.
  apply load_Done in Ho. rewrite Ho. destruct o as [data|d].
  - apply bind_Done_inv in Hk as (v & σ3 & Hv & Hk).
    pose proof (readonly_Done _ _ _ _ (readonly_lift _ _) Hv) as ->.
    destruct (Tensor_slice data s) as [v'|]; [|discriminate].
    injection Hv as ->.
    apply bind_Done_inv in Hk as (t' & σ3 & Ht & Hn).
    apply Tensor_copy_read in Ht as (l & Hr & Hr' & Hd).
    apply new_object_Done in Hn as (_ & Hc & _ & Hb).
    exists (FullTensor t'). split; [exact Hc|].
    rewrite (object_content_buffers _ _ _ Hb). simpl.
    rewrite Hr, Hr', Hd. reflexivity.
  - apply bind_Done_inv in Hk as (d' & σ3 & Hv & Hk).
    pose proof (readonly_Done _ _ _ _ (readonly_lift _ _) Hv) as ->.
    destruct (sr_slice d s) as [d''|]; [|discriminate].
    injection Hv as ->.
    apply new_object_Done in Hk as (_ & Hc & _ & _).
    exists (LowRankTensor d'). auto.
Qed.

Lemma GenTensor_copy_content (rhs h : nat) (σ σ1 : State) :
  GenTensor_copy rhs σ = Done h σ1 ->
  content σ1 h = source_data (Copy rhs) σ.
Proof.
  unfold GenTensor_copy. intros (p & σ' & Hp & Hk)%bind_Done_inv.
  pose proof (readonly_Done _ _ _ _ (readonly_get_ptr rhs) Hp) as ->.
  apply get_ptr_Done in Hp. simpl. destruct p as [a|].
  - apply bind_Done_inv in Hk as (c & σ2 & Hc & Hn).
    apply SepRepTensor_copy_this_content in Hc
      as (o & o' & c0 & Ho & Ho' & Hc0 & Hc1).
    apply new_handle_Done in Hn as (_ & Hh & Hobj & Hb).
    rewrite (content_bound _ _ _ _ Hp Ho), Hc0.
    rewrite <- Hobj in Ho'.
    rewrite (content_bound _ _ _ _ Hh Ho').
    rewrite (object_content_buffers _ _ _ Hb). exact Hc1.
  - apply new_handle_Done in Hk as (_ & Hh & _).
    rewrite (content_unbound _ _ Hp), (content_unbound _ _ Hh). reflexivity.
Qed.

Lemma GenTensor_assign_slice_content (this : nat) (rhs : SliceGenTensor)
    (σ σ1 : State) :
  GenTensor_assign_slice this rhs σ = Done tt σ1 ->
  content σ1 this = slice_data σ rhs.
Proof.
  unfold GenTensor_assign_slice, GenTensor_clear.
  intros ([] & σa & Hclr & Hk)%bind_Done_inv.
  assert (Hha : handles σa = <[this := None]> (handles σ)
                /\ objects σa = objects σ /\ buffers σa = buffers σ).
  { unfold set_ptr in Hclr. destruct (handles σ !! this); [|discriminate].
    injection Hclr as <-. auto. }
  destruct Hha as (Hha & Hoa & Hba).
  apply bind_Done_inv in Hk as (p & σb & Hp & Hk).
  pose proof (readonly_Done _ _ _ _ (readonly_get_ptr _) Hp) as ->.
  apply get_ptr_Done in Hp.
  apply bind_Done_inv in Hk as ([a o] & σb & Hd & Hk).
  pose proof (readonly_Done _ _ _ _ (readonly_deref _) Hd) as ->.
  apply deref_Done in Hd as [-> Ho].
  assert (Hne : _refGT rhs <> this).
  { intros E. rewrite E, Hha, lookup_insert_eq in Hp. discriminate. }
  rewrite Hha, lookup_insert_ne in Hp by congruence.
  apply bind_Done_inv in Hk as (c & σ2 & Hc & Hs).
  apply SepRepTensor_clone_slice_content in Hc as (o' & Ho' & Hc).
  apply set_ptr_Done in Hs as (Hh & Hobj & Hb).
  rewrite <- Hobj in Ho'. rewrite (content_bound _ _ _ _ Hh Ho').
  rewrite (object_content_buffers _ _ _ Hb), Hc.
  unfold slice_data, backend_of. rewrite Hp.
  apply backend_slice_data_agree; assumption.
Qed.

Lemma GenTensor_of_slice_Done (rhs : SliceGenTensor) (h : nat) (σ σ1 : State) :
  GenTensor_of_slice rhs σ = Done h σ1 ->
  exists σa, new_handle None σ = Done h σa /\
             GenTensor_assign_slice h rhs σa = Done tt σ1.
Proof.
  unfold GenTensor_of_slice.
  intros (this & σa & Hn & Hk)%bind_Done_inv.
  apply bind_Done_inv in Hk as ([] & σb & Ha & Hr).
  unfold ret in Hr. injection Hr as <- <-. eauto.
Qed.

Lemma GenTensor_of_slice_content (rhs : SliceGenTensor) (h : nat) (σ σ1 : State) :
  GenTensor_of_slice rhs σ = Done h σ1 ->
  content σ1 h = slice_data σ rhs.
Proof.
  intros (σa & Hn & Ha)%GenTensor_of_slice_Done.
  rewrite (GenTensor_assign_slice_content _ _ _ _ Ha).
  unfold new_handle in Hn. injection Hn as <- <-. unfold slice_data, backend_of.
  simpl. destruct (decide (_refGT rhs = fresh (dom (handles σ)))) as [E|E].
  - rewrite E, lookup_insert_eq, fresh_None. reflexivity.
  - rewrite lookup_insert_ne by congruence. reflexivity.
Qed.

Lemma GenTensor_of_slice_stable (rhs : SliceGenTensor) (h : nat) (σ σ1 : State) :
  GenTensor_of_slice rhs σ = Done h σ1 ->
  stable_outside (Some h) None None σ σ1 /\ fresh_footprint σ σ1 h.
Proof.
  intros (σa & Hn & Ha)%GenTensor_of_slice_Done. split.
  - eapply stable_trans.
    + pose proof (frames_new_handle (Some h) None σ) as Hf.
      rewrite Hn in Hf. exact Hf.
    + pose proof (frames_GenTensor_assign_slice h rhs σa) as Hf.
      rewrite Ha in Hf. exact Hf.
  - apply GenTensor_assign_slice_fresh in Ha as (Hwb & FA & FB).
    apply new_handle_Done in Hn as (_ & _ & Ho & Hb).
    split; [exact Hwb|].
    split; intros x Hx; [rewrite <- Ho|rewrite <- Hb]; auto.
Qed.

Lemma GenTensor_of_tensor_content (rhs : Tensor) (eps : Dbl) (k : TensorType)
    (h : nat) (σ σ1 : State) :
  GenTensor_of_tensor rhs eps k σ = Done h σ1 ->
  content σ1 h = tensor_data σ rhs eps k.
Proof.
  unfold GenTensor_of_tensor. destruct (bool_decide (k = TT_FULL)) eqn:Hk.
  - apply bool_decide_eq_true in Hk as ->.
    intros (c & σa & Hc & Hn)%bind_Done_inv.
    apply Tensor_copy_read in Hc as (l & Hr & Hr' & Hd).
    apply bind_Done_inv in Hn as (a & σ2 & Hn & Hh).
    apply new_object_Done in Hn as (_ & Ha & _ & Hb).
    apply new_handle_Done in Hh as (_ & Hh & Hobj & Hb1).
    rewrite <- Hobj in Ha. rewrite (content_bound _ _ _ _ Hh Ha).
    rewrite (object_content_buffers _ _ _ Hb1).
    rewrite (object_content_buffers _ _ _ Hb). simpl.
    rewrite Hr, Hr', Hd. reflexivity.
  - apply bool_decide_eq_false in Hk.
    destruct (bool_decide (k = TT_3D) || bool_decide (k = TT_2D)) eqn:Hk2.
    + intros ([] & σa & Has & Hn)%bind_Done_inv.
      pose proof (readonly_Done _ _ _ _ (readonly_assert _ _) Has) as ->.
      apply bind_Done_inv in Hn as (t & σb & Ht & Hn).
      apply bind_Done_inv in Hn as (d & σc & Hd & Hn).
      pose proof (readonly_Done _ _ _ _
                    (readonly_LowRankTensor_of_tensor _ _ _) Hd) as ->.
      apply bind_Done_inv in Hn as (a & σ2 & Hn & Hh).
      apply new_object_Done in Hn as (_ & Ha & _ & _).
      apply new_handle_Done in Hh as (_ & Hh & Hobj & _).
      rewrite <- Hobj in Ha. rewrite (content_bound _ _ _ _ Hh Ha). simpl.
      assert (Hsrc : exists l, Tensor_read σ rhs = Some l /\
                Tensor_read σb t = Some l /\ Tensor_dims t = Tensor_dims rhs).
      { destruct (Tensor_iscontiguous rhs).
        - unfold ret in Ht. injection Ht as <- <-.
          unfold LowRankTensor_of_tensor in Hd.
          destruct (Tensor_read σ rhs) as [l|]; [eauto|discriminate].
        - apply Tensor_copy_read in Ht. exact Ht. }
      destruct Hsrc as (l & Hr & Hr' & Hdim).
      unfold LowRankTensor_of_tensor in Hd. rewrite Hr', Hdim in Hd.
      unfold tensor_data. rewrite Hr.
      destruct (sr_of_tensor (Tensor_dims rhs) l eps k) as [d'|];
        [|discriminate].
      injection Hd as ->.
      apply orb_true_iff in Hk2 as [E|E]; apply bool_decide_eq_true in E;
        subst k; reflexivity.
    + intros (_ & Hh & _)%new_handle_Done. rewrite (content_unbound _ _ Hh).
      apply orb_false_iff in Hk2 as [E1 E2].
      apply bool_decide_eq_false in E1, E2.
      destruct k; try reflexivity; congruence.
Qed.


(** ** Mutations and sequences of steps *)

Lemma GenTensor_scale_stable (h : nat) (x : T) (σ : State) :
  stable_outside None (backend_of σ h) (buffer_of σ h) σ
    (final (GenTensor_scale h x σ)).
Proof.
  unfold GenTensor_scale. step_this. destruct p as [a|]; [|apply stable_refl].
  apply SepRepTensor_scale_stable.
Qed.

Lemma GenTensor_inplace_add_stable (this rhs : nat) (lhs_s rhs_s : list Slice)
    (σ : State) :
  stable_outside None (backend_of σ this) (buffer_of σ this) σ
    (final (GenTensor_inplace_add this rhs lhs_s rhs_s σ)).
Proof.
  unfold GenTensor_inplace_add. step_this. step_deref. step_readonly.
  intros q _. apply SepRepTensor_inplace_add_stable.
Qed.

(** A step on cells that [σ] did not have leaves the cells of [σ] alone. *)
Lemma stable_fresh_step (G A B : option nat) (σ σ1 σ2 : State) :
  stable_outside None None None σ σ1 -> stable_outside G A B σ1 σ2 ->
  (forall g, G = Some g -> handles σ !! g = None) ->
  (forall a, A = Some a -> objects σ !! a = None) ->
  (forall b, B = Some b -> buffers σ !! b = None) ->
  stable_outside None None None σ σ2.
Proof.
  intros (H1 & H2 & H3 & H4) (K1 & K2 & K3 & K4) HG HA HB.
  split; [|split; [|split]].
  - intros g p _ Hg. apply K1; [|apply H1; auto; discriminate].
    intros E. rewrite (HG _ E) in Hg. discriminate.
  - intros a o _ Ha. apply K2; [|apply H2; auto; discriminate].
    intros E. rewrite (HA _ E) in Ha. discriminate.
  - intros b l _ Hb. apply K3; [|apply H3; auto; discriminate].
    intros E. rewrite (HB _ E) in Hb. discriminate.
  - eapply keeps_shapes_trans; eauto.
Qed.

Lemma stable_unallocated (σ σ1 : State) :
  stable_outside None None None σ σ1 ->
  (forall g, handles σ1 !! g = None -> handles σ !! g = None) /\
  (forall a, objects σ1 !! a = None -> objects σ !! a = None) /\
  (forall b, buffers σ1 !! b = None -> buffers σ !! b = None).
Proof.
  intros (H1 & H2 & H3 & _). split; [|split].
  - intros g Hg. destruct (handles σ !! g) as [p|] eqn:E; [|reflexivity].
    rewrite (H1 g p) in Hg; [discriminate|discriminate|exact E].
  - intros a Ha. destruct (objects σ !! a) as [o|] eqn:E; [|reflexivity].
    rewrite (H2 a o) in Ha; [discriminate|discriminate|exact E].
  - intros b Hb. destruct (buffers σ !! b) as [l|] eqn:E; [|reflexivity].
    rewrite (H3 b l) in Hb; [discriminate|discriminate|exact E].
Qed.

(** The constructor from a slice allocates a handle, a backend and a
    buffer; it changes nothing that was there. *)
Lemma GenTensor_of_slice_frames (rhs : SliceGenTensor) (σ : State) :
  stable_outside None None None σ (final (GenTensor_of_slice rhs σ)).
Proof.
  unfold GenTensor_of_slice. apply final_bind.
  - intros e σ1 E. discriminate.
  - intros this σa E.
    pose proof (new_handle_stable None σ) as Hn. rewrite E in Hn. simpl in Hn.
    apply new_handle_Done in E as (Hfresh & _).
    eapply (stable_fresh_step (Some this) None None); [exact Hn| | | |].
    + apply (frames_bind (Some this)).
      * apply frames_GenTensor_assign_slice.
      * intros []. apply frames_readonly, readonly_ret.
    + intros g [= <-]. exact Hfresh.
    + discriminate.
    + discriminate.
Qed.

(** The handle a slice refers to is bound when the construction from the
    slice returns. *)
Lemma GenTensor_of_slice_source (rhs : SliceGenTensor) (h : nat) (σ σ1 : State) :
  GenTensor_of_slice rhs σ = Done h σ1 -> well_bound σ (_refGT rhs).
Proof.
  intros (σa & Hn & Ha)%GenTensor_of_slice_Done.
  unfold new_handle in Hn. injection Hn as <- <-.
  unfold GenTensor_assign_slice, GenTensor_clear in Ha.
  apply bind_Done_inv in Ha as ([] & σb & Hclr & Hk).
  unfold set_ptr in Hclr. simpl in Hclr. rewrite lookup_insert_eq in Hclr.
  injection Hclr as <-.
  apply bind_Done_inv in Hk as (p & σc & Hp & Hk).
  pose proof (readonly_Done _ _ _ _ (readonly_get_ptr _) Hp) as ->.
  apply get_ptr_Done in Hp. simpl in Hp.
  apply bind_Done_inv in Hk as ([a o] & σc & Hd & _).
  apply deref_Done in Hd as [-> Ho]. simpl in Ho.
  rewrite insert_insert_eq in Hp.
  destruct (decide (_refGT rhs = fresh (dom (handles σ)))) as [E|E].
  - rewrite E, lookup_insert_eq in Hp. discriminate.
  - rewrite lookup_insert_ne in Hp by congruence.
    exists (Some a). split; [exact Hp|]. intros a' [= <-]. eauto.
Qed.

(** The second copy that the zeroing of a slice makes of a dense slice. *)
Lemma recopy_stable (tmp : nat) (again : bool) (σ σa : State) :
  stable_outside None None None σ σa ->
  handles σ !! tmp = None ->
  fresh_footprint σ σa tmp ->
  let r := (if again
            then let* c := GenTensor_copy tmp in GenTensor_assign tmp c
            else ret tt) σa in
  stable_outside None None None σ (final r) /\
  (forall σc, r = Done tt σc -> fresh_footprint σ σc tmp).
Proof.
  intros Hpre Htmp Hfr. destruct again; simpl.
  2:{ split; [exact Hpre|]. unfold ret. intros σc [= <-]. exact Hfr. }
  destruct (stable_unallocated _ _ Hpre) as (_ & UO & UB).
  unfold bind. destruct (GenTensor_copy tmp σa) as [c σb|e σb] eqn:Ecp; simpl.
  2:{ split; [|discriminate]. eapply stable_trans; [exact Hpre|].
      pose proof (frames_GenTensor_copy tmp σa) as Hf. rewrite Ecp in Hf.
      exact Hf. }
  pose proof (frames_GenTensor_copy tmp σa) as Hab. rewrite Ecp in Hab.
  simpl in Hab.
  pose proof (GenTensor_copy_fresh _ _ _ _ Ecp) as ((p & Hc & Hal) & FA & FB).
  assert (Hpre_b : stable_outside None None None σ σb)
    by (eapply stable_trans; eauto).
  unfold GenTensor_assign.
  rewrite (bind_Done _ _ _ _ _ (get_ptr_Some _ _ _ Hc)).
  pose proof (set_ptr_stable tmp p σb) as Hset.
  destruct (set_ptr tmp p σb) as [[] σc|e σc] eqn:Es; simpl in *.
  2:{ split; [|discriminate].
      eapply (stable_fresh_step (Some tmp) None None); eauto.
      - intros g [= <-]. exact Htmp.
      - discriminate.
      - discriminate. }
  split.
  - eapply (stable_fresh_step (Some tmp) None None); eauto.
    + intros g [= <-]. exact Htmp.
    + discriminate.
    + discriminate.
  - intros σc' [= <-]. apply set_ptr_Done in Es as (Hh & Ho & Hb).
    unfold fresh_footprint, well_bound, buffer_of, backend_of in *.
    rewrite Hh. rewrite Hc in FA, FB. split; [|split].
    + exists p. split; [reflexivity|]. rewrite Ho. exact Hal.
    + intros a Ha. apply UO, FA, Ha.
    + intros b Hb'. apply UB, FB. rewrite <- Hb'.
      destruct p as [a|]; [|reflexivity]. simpl. rewrite Ho. reflexivity.
Qed.

(** Zeroing a slice works on temporaries of its own and on the backend of
    the handle the slice refers to. *)
Lemma SliceGenTensor_assign_number_stable (this : nat) (s : list Slice)
    (number : Dbl) (σ : State) :
  stable_outside None (backend_of σ this) (buffer_of σ this) σ
    (final (SliceGenTensor_assign_number (GenTensor_slice this s) number σ)).
Proof.
  unfold SliceGenTensor_assign_number. simpl. step_readonly. intros _ _.
  pose proof (GenTensor_of_slice_frames (GenTensor_slice this s) σ) as Hos.
  apply final_bind.
  { intros e σ1 E. rewrite E in Hos. apply stable_alloc. exact Hos. }
  intros tmp σa E. rewrite E in Hos. simpl in Hos.
  pose proof (GenTensor_of_slice_source _ _ _ _ E) as Hwb. simpl in Hwb.
  destruct (GenTensor_of_slice_stable _ _ _ _ E) as [_ Hfr].
  assert (Htmp : handles σ !! tmp = None).
  { apply GenTensor_of_slice_Done in E as (σn & Hn & _).
    apply new_handle_Done in Hn as (Hn & _). exact Hn. }
  apply final_bind_readonly; [auto with readonly|apply stable_alloc, Hos|].
  intros ty _.
  destruct (recopy_stable tmp (bool_decide (ty = TT_FULL)) σ σa Hos Htmp Hfr)
    as [Hre Hre_fr].
  apply final_bind.
  { intros e σ1 E1. rewrite E1 in Hre. apply stable_alloc. exact Hre. }
  intros [] σc Ec. rewrite Ec in Hre. simpl in Hre.
  specialize (Hre_fr σc Ec). destruct Hre_fr as (Hwbt & FA & FB).
  pose proof (GenTensor_scale_stable tmp (of_double dbl_neg_one) σc) as Hsc.
  assert (Hd : stable_outside None None None σ
                 (final (GenTensor_scale tmp (of_double dbl_neg_one) σc))).
  { eapply stable_fresh_step; [exact Hre|exact Hsc| | |].
    - discriminate.
    - exact FA.
    - exact FB. }
  apply final_bind.
  { intros e σ1 E1. rewrite E1 in Hd. apply stable_alloc. exact Hd. }
  intros [] σd Ed. rewrite Ed in Hd. simpl in Hd.
  destruct Hd as (D1 & D2 & D3 & D4).
  destruct (footprint_kept σ σd this) as (Eb & Ef & _);
    [intros p Hp; apply D1; [discriminate|exact Hp]|exact D4|exact Hwb|].
  eapply stable_trans.
  - apply stable_alloc. split; [|split; [|split]]; eassumption.
  - rewrite <- Eb, <- Ef. apply GenTensor_inplace_add_stable.
Qed.

(** Every mutation through a handle changes at most the backend the handle
    points to and the buffer that backend owns. *)
Lemma mutate_stable (m : Mutation) (h : nat) (σ : State) :
  stable_outside None (backend_of σ h) (buffer_of σ h) σ
    (final (mutate m h σ)).
Proof.
  destruct m; simpl.
  - apply GenTensor_scale_stable.
  - unfold GenTensor_reduceRank. step_this. step_deref.
    apply SepRepTensor_reduceRank_stable.
  - unfold GenTensor_finalize_accumulate. step_this. step_deref.
    apply SepRepTensor_finalize_accumulate_stable.
  - unfold GenTensor_gaxpy. step_this. step_deref. step_readonly. intros q _.
    apply SepRepTensor_gaxpy_stable.
  - unfold GenTensor_iadd. step_this. step_deref. step_readonly. intros q _.
    step_readonly. intros [a2 o2] _.
    apply final_bind_readonly; [|apply stable_refl|].
    { destruct (negb _); auto with readonly. }
    intros _ _. unfold GenTensor_accumulate_into.
    step_readonly. intros q2 _. step_readonly. intros [a3 o3] _.
    apply final_bind_readonly; [auto with readonly|apply stable_refl|].
    intros q3 Hq3%get_ptr_Done.
    assert (q3 = Some a) as -> by congruence.
    apply SepRepTensor_accumulate_into_stable.
  - unfold GenTensor_iadd_slice. step_this. step_deref. step_readonly.
    intros q _. step_readonly. intros [a2 o2] _. step_readonly. intros _ _.
    step_readonly. intros n _. step_readonly. intros s _.
    apply SepRepTensor_inplace_add_stable.
  - unfold GenTensor_update_by. step_this. step_deref. step_readonly. intros q _.
    apply SepRepTensor_update_by_stable.
  - unfold GenTensor_accumulate_into. step_readonly. intros q _.
    step_readonly. intros [a o] _.
    apply final_bind_readonly; [auto with readonly|apply stable_refl|].
    intros p Hp. unfold buffer_of. rewrite (backend_of_get_ptr _ _ _ _ Hp).
    apply SepRepTensor_accumulate_into_stable.
  - unfold SliceGenTensor_iadd, GenTensor_inplace_add. simpl.
    step_readonly. intros n _. step_readonly. intros s0 _.
    step_this. step_deref. step_readonly. intros q _.
    apply SepRepTensor_inplace_add_stable.
  - unfold SliceGenTensor_iadd_slice. simpl. apply GenTensor_inplace_add_stable.
  - apply SliceGenTensor_assign_number_stable.
Qed.

(** *** Sequences of steps *)

Lemma exec_stable (st : Step) (σ : State) :
  match st with
  | ViaHandle v _ =>
      stable_outside None (backend_of σ v) (buffer_of σ v) σ (final (exec st σ))
  | OnTensor t _ =>
      stable_outside None None (t_p t) σ (final (exec st σ))
  end.
Proof.
  destruct st as [v m|t m]; simpl;
    [apply mutate_stable|apply Tensor_mutate_stable].
Qed.

Lemma keeps_refl (σ : State) (A B : option nat) : keeps σ σ A B.
Proof. unfold keeps. auto using keeps_shapes_refl. Qed.

Lemma keeps_step (σ1 s s' : State) (A B A' B' : option nat) :
  keeps σ1 s A B -> stable_outside None A' B' s s' ->
  (forall a, A = Some a -> A' <> Some a) ->
  (forall b, B = Some b -> B' <> Some b) ->
  keeps σ1 s' A B.
Proof.
  intros (KH & KS & KO & KB) (SH & SO & SB & SS) HA HB.
  split; [|split; [|split]].
  - intros g p Hg. apply SH; [discriminate|]. apply KH, Hg.
  - eapply keeps_shapes_trans; eauto.
  - intros a o Ha Ho. apply SO; [apply HA, Ha|]. eapply KO; eauto.
  - intros b l Hb Hl. apply SB; [apply HB, Hb|]. eapply KB; eauto.
Qed.

(** Steps that work apart from a backend and a buffer leave both as they
    were, however many they are. *)
Lemma run_keeps (tr : list Step) (σ1 : State) (A B : option nat) :
  Forall (apart σ1 A B) tr -> keeps σ1 (run tr σ1) A B.
Proof.
  intros Htr. unfold run.
  assert (Hgen : forall s, keeps σ1 s A B ->
            keeps σ1 (fold_left (fun s st => final (exec st s)) tr s) A B).
  { induction Htr as [|st tr Hst Htr IH]; intros s Hk; [exact Hk|].
    simpl. apply IH. pose proof (exec_stable st s) as Hex.
    destruct st as [v m|t m]; simpl in *.
    - destruct Hst as (Hwb & HA & HB).
      destruct Hk as (KH & KS & KO & KB).
      destruct (footprint_kept σ1 s v) as (Eb & Ef & _); auto.
      eapply keeps_step; [split; [|split; [|split]]; eassumption|exact Hex| |].
      + intros a Ha. rewrite Eb. apply HA, Ha.
      + intros b Hb. rewrite Ef. apply HB, Hb.
    - eapply keeps_step; [exact Hk|exact Hex| |].
      + discriminate.
      + exact Hst. }
  apply Hgen, keeps_refl.
Qed.

Lemma keeps_content (σ1 s : State) (g : nat) (c : Content) :
  keeps σ1 s (backend_of σ1 g) (buffer_of σ1 g) ->
  content σ1 g = Some c -> content s g = Some c.
Proof.
  intros (KH & KS & KO & KB) Hc. unfold content, buffer_of, backend_of in *.
  destruct (handles σ1 !! g) as [p|] eqn:Hg; [|discriminate].
  rewrite (KH _ _ Hg). destruct p as [a|]; [|exact Hc].
  destruct (objects σ1 !! a) as [o|] eqn:Ha; [|discriminate].
  rewrite (KO _ _ eq_refl Ha). destruct o as [t|d]; [|exact Hc].
  simpl in *. rewrite Ha in KB.
  unfold Tensor_read in *. destruct (t_p t) as [b|]; [|exact Hc].
  destruct (read_offsets (buffers σ1) b _) as [l|] eqn:Hr; [|discriminate].
  rewrite (read_offsets_preserved _ (buffers s) _ _ _ (fun k => KB b k eq_refl) Hr).
  exact Hc.
Qed.

Lemma keeps_Tensor_read (σ1 s : State) (t : Tensor) (l : list T) :
  keeps σ1 s None (t_p t) ->
  Tensor_read σ1 t = Some l -> Tensor_read s t = Some l.
Proof.
  intros (_ & _ & _ & KB) Hr. unfold Tensor_read in *.
  destruct (t_p t) as [b|]; [|exact Hr].
  eapply read_offsets_preserved; [|exact Hr]. intros k. apply KB. reflexivity.
Qed.

(** Handles are never rebound by a step. *)
Lemma run_handles (tr : list Step) (σ : State) (g : nat) (p : option nat) :
  handles σ !! g = Some p -> handles (run tr σ) !! g = Some p.
Proof.
  unfold run. revert σ. induction tr as [|st tr IH]; intros σ Hg; [exact Hg|].
  simpl. apply IH. pose proof (exec_stable st σ) as Hex.
  destruct st; destruct Hex as (SH & _); apply SH; auto; discriminate.
Qed.

(** A handle whose backend and buffer are new is independent of all that
    was there before. *)
Lemma independent_intro (G : option nat) (σ σ1 : State) (h : nat) :
  stable_outside G None None σ σ1 ->
  (forall g, g <> h -> G <> Some g) ->
  fresh_footprint σ σ1 h ->
  independent σ σ1 h.
Proof.
  intros Hst HG (Hwb & FA & FB).
  assert (Hold : forall g c, g <> h -> content σ g = Some c ->
            content σ1 g = Some c /\
            (forall a, backend_of σ1 g = Some a -> backend_of σ1 h <> Some a) /\
            (forall b, buffer_of σ1 g = Some b -> buffer_of σ1 h <> Some b)).
  { intros g c Hne Hc.
    assert (Hc1 : content σ1 g = Some c).
    { eapply content_stable; [exact Hst|exact Hc|auto| |]; intros; discriminate. }
    destruct (footprint_stable _ _ _ _ _ _ _ Hst Hc (HG _ Hne)) as [Eb Ef];
      [intros; discriminate|].
    split; [exact Hc1|]. split.
    - intros a Ha Hh. rewrite Eb in Ha.
      destruct (content_backend_allocated _ _ _ _ Hc Ha) as [o Ho].
      rewrite (FA _ Hh) in Ho. discriminate.
    - intros b Hb Hh. rewrite Ef in Hb.
      destruct (content_buffer_allocated _ _ _ _ Hc Hb) as [l Hl].
      rewrite (FB _ Hh) in Hl. discriminate. }
  assert (Htens : forall t l, Tensor_read σ t = Some l ->
            Tensor_read σ1 t = Some l /\
            (forall b, t_p t = Some b -> buffer_of σ1 h <> Some b)).
  { intros t l Hr. split.
    - eapply Tensor_read_stable; [exact Hst|exact Hr|]. intros; discriminate.
    - intros b Hb Hh.
      destruct (Tensor_read_Some_dom _ _ _ _ Hr Hb) as [k Hk].
      rewrite (FB _ Hh) in Hk. discriminate. }
  split; [|split].
  - intros g c Hne Hc. destruct (Hold g c Hne Hc) as (Hc1 & Dobj & Dbuf).
    split; [exact Hc1|]. intros tr Htr.
    apply (keeps_content σ1); [|exact Hc1]. apply run_keeps.
    eapply Forall_impl; [exact Htr|]. intros [v m|t m]; simpl; [|contradiction].
    intros ->. split; [exact Hwb|]. split; [exact Dobj|exact Dbuf].
  - intros t l Hr. destruct (Htens t l Hr) as (Hr1 & Dbuf).
    split; [exact Hr1|]. intros tr Htr.
    apply (keeps_Tensor_read σ1); [|exact Hr1]. apply run_keeps.
    eapply Forall_impl; [exact Htr|]. intros [v m|t' m]; simpl; [|contradiction].
    intros ->. split; [exact Hwb|]. split; [discriminate|exact Dbuf].
  - intros c' Hh tr Htr.
    apply (keeps_content σ1); [|exact Hh]. apply run_keeps.
    eapply Forall_impl; [exact Htr|]. intros [v m|t m]; simpl.
    + intros [Hne [c Hc]]. destruct (Hold v c Hne Hc) as (Hc1 & Dobj & Dbuf).
      split; [eapply well_bound_content; eauto|]. split.
      * intros a Ha Hv. exact (Dobj a Hv Ha).
      * intros b Hb Hv. exact (Dbuf b Hv Hb).
    + intros [l Hr]. destruct (Htens t l Hr) as (_ & Dbuf).
      intros b Hb Ht. exact (Dbuf b Ht Hb).
Qed.

(** A deep construction (from a raw dense tensor, from a slice proxy by
    construction, assignment or [copy], and [copy] of a handle) that
    returns leaves the handle with what [source_data] describes, in a
    backend of its own: every handle and every dense tensor that existed
    before keeps its content under every mutation of the new handle, and the
    new handle keeps its content under every mutation of theirs.  Nothing
    is said here of a construction that does not return. *)
Lemma deep_construction_independent (c : Construction) (σ σ1 : State) (h : nat) :
  construct c σ = Done h σ1 ->
  content σ1 h = source_data c σ /\ independent σ σ1 h.
Proof.
  destruct c as [rhs eps k|rhs args|rhs|this rhs|rhs|rhs]; simpl; intros Hc.
  - split; [apply GenTensor_of_tensor_content, Hc|].
    apply (independent_intro None).
    + pose proof (frames_GenTensor_of_tensor rhs eps k σ) as Hf.
      rewrite Hc in Hf. exact Hf.
    + discriminate.
    + eapply GenTensor_of_tensor_fresh, Hc.
  - unfold GenTensor_of_tensor_args in Hc.
    split; [apply GenTensor_of_tensor_content, Hc|].
    apply (independent_intro None).
    + pose proof (frames_GenTensor_of_tensor rhs (targs_thresh args)
                    (targs_tt args) σ) as Hf.
      rewrite Hc in Hf. exact Hf.
    + discriminate.
    + eapply GenTensor_of_tensor_fresh, Hc.
  - split; [apply GenTensor_of_slice_content, Hc|].
    destruct (GenTensor_of_slice_stable _ _ _ _ Hc) as [Hs Hf].
    apply (independent_intro (Some h)); [exact Hs|congruence|exact Hf].
  - apply bind_Done_inv in Hc as ([] & σb & Ha & Hr).
    unfold ret in Hr. injection Hr as <- <-.
    split; [apply GenTensor_assign_slice_content, Ha|].
    apply (independent_intro (Some this)).
    + pose proof (frames_GenTensor_assign_slice this rhs σ) as Hf.
      rewrite Ha in Hf. exact Hf.
    + congruence.
    + apply GenTensor_assign_slice_fresh in Ha. exact Ha.
  - split; [apply GenTensor_copy_content, Hc|].
    apply (independent_intro None).
    + pose proof (frames_GenTensor_copy rhs σ) as Hf.
      rewrite Hc in Hf. exact Hf.
    + discriminate.
    + eapply GenTensor_copy_fresh, Hc.
  - unfold SliceGenTensor_copy in Hc.
    split; [apply GenTensor_of_slice_content, Hc|].
    destruct (GenTensor_of_slice_stable _ _ _ _ Hc) as [Hs Hf].
    apply (independent_intro (Some h)); [exact Hs|congruence|exact Hf].
Qed.

(** ** Scaling in place *)

Lemma read_list_cons (k : list T) (p : Z) (ps : list Z) (l : list T) :
  read_list k (p :: ps) = Some l ->
  exists x l', 0 <= p /\ k !! Z.to_nat p = Some x /\
               read_list k ps = Some l' /\ l = x :: l'.
Proof.
  unfold read_list. simpl. destruct (0 <=? p) eqn:Hp; [|discriminate].
  destruct (k !! Z.to_nat p) as [x|]; [|discriminate]. simpl.
  destruct (mapM _ ps) as [l'|]; [|discriminate]. simpl.
  intros [= <-]. exists x, l'. repeat split; auto. lia.
Qed.

Lemma read_list_insert_notin (k : list T) (p : Z) (y : T) (ps : list Z) :
  0 <= p -> p ∉ ps ->
  read_list (<[Z.to_nat p := y]> k) ps = read_list k ps.
Proof.
  intros Hp Hn. unfold read_list. apply Forall_mapM_ext.
  apply Forall_forall. intros q Hq. destruct (0 <=? q) eqn:Hq0; [|reflexivity].
  apply list_lookup_insert_ne. intros E.
  assert (p = q) by lia. subst q. contradiction.
Qed.

Lemma map_inplace_read (f : T -> T) (b : nat) (ps : list Z) :
  forall (B : gmap nat (list T)) (k l : list T),
    NoDup ps -> B !! b = Some k -> read_list k ps = Some l ->
    exists k', map_inplace f B b ps = Some (<[b := k']> B) /\
               read_list k' ps = Some (map f l) /\
               (forall q, 0 <= q -> q ∉ ps -> k' !! Z.to_nat q = k !! Z.to_nat q).
Proof.
  induction ps as [|p ps IH]; intros B k l Hnd HB Hr.
  - injection Hr as <-. exists k. simpl. rewrite insert_id by exact HB. auto.
  - apply NoDup_cons in Hnd as [Hp Hnd].
    apply read_list_cons in Hr as (x & l' & Hp0 & Hx & Hr & ->).
    assert (Hlt : (Z.to_nat p < length k)%nat) by (eapply lookup_lt_Some; eauto).
    set (k1 := <[Z.to_nat p := f x]> k).
    destruct (IH (<[b := k1]> B) k1 l' Hnd) as (k' & Hm & Hr' & Hq).
    { apply lookup_insert_eq. }
    { unfold k1. rewrite read_list_insert_notin; auto. }
    exists k'. split; [|split].
    + simpl. unfold buf_get, buf_set. rewrite HB.
      rewrite (proj2 (Z.leb_le _ _)) by lia. rewrite Hx.
      rewrite (proj2 (Z.ltb_lt _ _)) by lia. simpl. fold k1.
      rewrite Hm, insert_insert_eq. reflexivity.
    + unfold read_list in *. simpl.
      rewrite (proj2 (Z.leb_le _ _)) by lia.
      rewrite (Hq p Hp0 Hp). unfold k1.
      rewrite list_lookup_insert_eq by exact Hlt. simpl. rewrite Hr'. reflexivity.
    + intros q Hq0 Hqn. apply not_elem_of_cons in Hqn as [Hne Hqn].
      rewrite (Hq q Hq0 Hqn). unfold k1. apply list_lookup_insert_ne. lia.
Qed.

(** [t *= x] on a view that addresses each element once multiplies each
    element by [x]. *)
Lemma Tensor_scale_read (t : Tensor) (x : T) (σ : State) (l : list T) :
  Tensor_read σ t = Some l -> NoDup (Tensor_offsets t) ->
  exists σ', Tensor_scale t x σ = Done tt σ' /\
    Tensor_read σ' t = Some (map (fun y => tmul y x) l) /\
    handles σ' = handles σ /\ objects σ' = objects σ.
Proof.
  unfold Tensor_scale, Tensor_update, Tensor_read, Tensor_offsets.
  destruct (t_p t) as [b|].
  - intros Hr Hnd. unfold read_offsets in Hr.
    destruct (buffers σ !! b) as [k|] eqn:HB; [|discriminate].
    destruct (map_inplace_read (fun y => tmul y x) b _ _ k l Hnd HB Hr)
      as (k' & Hm & Hr' & _).
    rewrite Hm. eexists. split; [reflexivity|]. simpl.
    unfold read_offsets. rewrite lookup_insert_eq. auto.
  - intros [= <-] _. exists σ. auto.
Qed.

Lemma GenTensor_scale_content (h : nat) (x : T) (σ : State) (c0 : Content) :
  content σ h = Some c0 -> simple_view σ h ->
  exists σ', GenTensor_scale h x σ = Done tt σ' /\
             content σ' h = Some (scaled x c0).
Proof.
  intros Hc Hv. unfold GenTensor_scale, content in *.
  destruct (handles σ !! h) as [[a|]|] eqn:Hh; [| |discriminate].
  - rewrite (bind_Done _ _ _ _ _ (get_ptr_Some _ _ _ Hh)).
    destruct (objects σ !! a) as [o|] eqn:Ho; [|discriminate].
    unfold SepRepTensor_scale.
    rewrite (bind_Done _ _ _ _ _ (load_Some _ _ _ Ho)).
    destruct o as [t|d]; simpl in Hc.
    + destruct (Tensor_read σ t) as [l|] eqn:Hr; [|discriminate].
      injection Hc as <-.
      destruct (Tensor_scale_read t x σ l Hr) as (σ' & Hs & Hr' & Hh' & Ho').
      { apply (Hv a); [|exact Ho]. unfold backend_of. rewrite Hh. reflexivity. }
      exists σ'. split; [exact Hs|].
      rewrite Hh', Hh, Ho', Ho. simpl. rewrite Hr'. reflexivity.
    + injection Hc as <-. unfold store. rewrite Ho. eexists.
      split; [reflexivity|]. simpl. rewrite Hh, lookup_insert_eq. reflexivity.
  - injection Hc as <-.
    rewrite (bind_Done _ _ _ _ _ (get_ptr_Some _ _ _ Hh)).
    exists σ. split; [reflexivity|]. rewrite Hh. reflexivity.
Qed.

(** ** Shallow copies *)

Lemma shallow_Done (c : ShallowCopy) (σ σ1 : State) (h2 : nat) :
  shallow c σ = Done h2 σ1 ->
  exists p, handles σ1 !! h2 = Some p /\ handles σ1 !! shallow_source c = Some p.
Proof.
  destruct c as [rhs|this rhs]; simpl.
  - unfold GenTensor_copy_ctor. intros (p & σ' & Hp & Hn)%bind_Done_inv.
    pose proof (readonly_Done _ _ _ _ (readonly_get_ptr rhs) Hp) as ->.
    apply get_ptr_Done in Hp. unfold new_handle in Hn.
    injection Hn as <- <-. simpl. exists p. rewrite lookup_insert_eq.
    split; [reflexivity|]. rewrite lookup_insert_ne; [exact Hp|].
    apply not_eq_sym. eapply fresh_ne; eauto.
  - intros ([] & σa & Ha & Hr)%bind_Done_inv. unfold ret in Hr.
    injection Hr as <- <-. unfold GenTensor_assign in Ha.
    apply bind_Done_inv in Ha as (p & σ' & Hp & Hs).
    pose proof (readonly_Done _ _ _ _ (readonly_get_ptr rhs) Hp) as ->.
    apply get_ptr_Done in Hp. unfold set_ptr in Hs.
    destruct (handles σ !! this); [|discriminate]. injection Hs as <-. simpl.
    exists p. rewrite lookup_insert_eq. split; [reflexivity|].
    destruct (decide (this = rhs)) as [->|Hne].
    + apply lookup_insert_eq.
    + rewrite lookup_insert_ne by exact Hne. exact Hp.
Qed.

Lemma content_same_ptr (σ : State) (g h : nat) :
  handles σ !! g = handles σ !! h -> content σ g = content σ h.
Proof. intros E. unfold content. rewrite E. reflexivity. Qed.

Lemma run_keeps_alias (tr : list Step) (g h : nat) (σ : State)
    (p : option nat) :
  handles σ !! g = Some p -> handles σ !! h = Some p ->
  content (run tr σ) g = content (run tr σ) h.
Proof.
  intros Hg Hh. apply content_same_ptr.
  rewrite (run_handles tr σ g p Hg), (run_handles tr σ h p Hh). reflexivity.
Qed.

Lemma simple_view_same_ptr (σ : State) (g h : nat) :
  handles σ !! g = handles σ !! h -> simple_view σ g -> simple_view σ h.
Proof.
  intros E Hv a t Ha. apply Hv. unfold backend_of in *. rewrite E. exact Ha.
Qed.

(** Two handles with the same pointer alias. *)
Lemma aliased_same_ptr (σ1 : State) (h1 h2 : nat) (p : option nat) :
  handles σ1 !! h1 = Some p -> handles σ1 !! h2 = Some p -> aliased σ1 h1 h2.
Proof.
  intros H1 H2. split; [|split].
  - unfold backend_of. rewrite H1, H2. reflexivity.
  - intros tr. eapply run_keeps_alias; eauto.
  - intros x c0 Hc0 Hv. split.
    + assert (Hc2 : content σ1 h2 = Some c0).
      { rewrite <- Hc0. apply content_same_ptr. congruence. }
      destruct (GenTensor_scale_content h2 x σ1 c0 Hc2) as (σ2 & Hs & Hr).
      { eapply simple_view_same_ptr; [|exact Hv]. congruence. }
      exists σ2. split; [exact Hs|]. rewrite <- Hr.
      pose proof (run_keeps_alias [ViaHandle h2 (MScale x)] h1 h2 σ1 p H1 H2) as E.
      unfold run in E. simpl in E. rewrite Hs in E. exact E.
    + destruct (GenTensor_scale_content h1 x σ1 c0 Hc0 Hv) as (σ2 & Hs & Hr).
      exists σ2. split; [exact Hs|]. rewrite <- Hr.
      pose proof (run_keeps_alias [ViaHandle h1 (MScale x)] h2 h1 σ1 p H2 H1) as E.
      unfold run in E. simpl in E. rewrite Hs in E. exact E.
Qed.

(** C2: the copy construction [GenTensor h2(h1)] and the copy assignment
    [h2 = h1] of a handle [h1] that points to [p] return.  The construction
    yields a handle [h2] that did not exist, the assignment works on its
    left-hand side.  Afterwards [h2] points to [p], the backend [h1] had,
    and [h1] still points to it; every other handle points where it did;
    [h1] holds the content it held and [h2] holds the same.  The two handles
    alias: whatever sequence of mutations is then made, through either
    handle or any other, both observe the same content, and [scale(x)]
    through one of them leaves, seen through the other, the content scaled
    by [x]. *)
Theorem shallow_copy_aliases (c : ShallowCopy) (σ : State) (p : option nat) :
  handles σ !! shallow_source c = Some p ->
  match c with
  | CopyCtor _ => True
  | Assign this _ => is_Some (handles σ !! this)
  end ->
  exists h2 σ1,
    shallow c σ = Done h2 σ1 /\
    match c with
    | CopyCtor _ => handles σ !! h2 = None
    | Assign this _ => h2 = this
    end /\
    handles σ1 !! h2 = Some p /\
    handles σ1 !! shallow_source c = Some p /\
    (forall g q, g <> h2 -> handles σ !! g = Some q ->
                 handles σ1 !! g = Some q) /\
    content σ1 (shallow_source c) = content σ (shallow_source c) /\
    content σ1 h2 = content σ (shallow_source c) /\
    aliased σ1 (shallow_source c) h2.
Proof.
  intros Hsrc Hdst. set (h1 := shallow_source c) in *.
  assert (Hpost : forall h2,
    (h2 = h1 \/ h2 <> h1) ->
    let σ1 := mkState (<[h2 := p]> (handles σ)) (objects σ) (buffers σ) in
    handles σ1 !! h2 = Some p /\
    handles σ1 !! h1 = Some p /\
    (forall g q, g <> h2 -> handles σ !! g = Some q ->
                 handles σ1 !! g = Some q) /\
    content σ1 h1 = content σ h1 /\
    content σ1 h2 = content σ h1 /\
    aliased σ1 h1 h2).
  { intros h2 _ σ1.
    assert (H2 : handles σ1 !! h2 = Some p) by apply lookup_insert_eq.
    assert (H1 : handles σ1 !! h1 = Some p).
    { unfold σ1. simpl. destruct (decide (h2 = h1)) as [->|Hne].
      - apply lookup_insert_eq.
      - rewrite lookup_insert_ne by exact Hne. exact Hsrc. }
    assert (C1 : content σ1 h1 = content σ h1).
    { unfold content. rewrite H1, Hsrc. reflexivity. }
    split; [exact H2|]. split; [exact H1|]. split; [|split; [|split]].
    - intros g q Hne Hg. unfold σ1. simpl.
      rewrite lookup_insert_ne by congruence. exact Hg.
    - exact C1.
    - rewrite <- C1. apply content_same_ptr. congruence.
    - apply (aliased_same_ptr σ1 h1 h2 p H1 H2). }
  destruct c as [rhs|this rhs]; subst h1; cbn [shallow shallow_source] in *.
  - set (h2 := fresh (dom (handles σ))).
    exists h2, (mkState (<[h2 := p]> (handles σ)) (objects σ) (buffers σ)).
    split.
    { unfold GenTensor_copy_ctor, bind, get_ptr. rewrite Hsrc. reflexivity. }
    split; [apply fresh_None|].
    apply Hpost. right. apply not_eq_sym. eapply fresh_ne; eauto.
  - destruct Hdst as (q & Hq).
    exists this, (mkState (<[this := p]> (handles σ)) (objects σ) (buffers σ)).
    split.
    { unfold GenTensor_assign, bind, get_ptr, set_ptr, ret.
      rewrite Hsrc, Hq. reflexivity. }
    split; [reflexivity|].
    apply Hpost. destruct (decide (this = rhs)); auto.
Qed.

(** ** Multiplication by a scalar *)

Lemma Tensor_copy_total (t : Tensor) (σ : State) (l : list T) :
  Tensor_read σ t = Some l -> exists t' σ1, Tensor_copy t σ = Done t' σ1.
Proof.
  intros Hr. unfold Tensor_copy. destruct (t_p t); [|unfold ret; eauto].
  rewrite Hr. unfold Tensor_of_elements, bind, new_buffer, ret. eauto.
Qed.

Lemma GenTensor_copy_total (g : nat) (σ : State) (c0 : Content) :
  content σ g = Some c0 -> exists h σ1, GenTensor_copy g σ = Done h σ1.
Proof.
  intros Hc. unfold GenTensor_copy, content in *.
  destruct (handles σ !! g) as [[a|]|] eqn:Hg; [| |discriminate].
  - rewrite (bind_Done _ _ _ _ _ (get_ptr_Some _ _ _ Hg)).
    destruct (objects σ !! a) as [o|] eqn:Ho; [|discriminate].
    unfold SepRepTensor_copy_this, bind. rewrite (load_Some _ _ _ Ho).
    destruct o as [t|d]; simpl in Hc.
    + destruct (Tensor_read σ t) as [l|] eqn:Hr; [|discriminate].
      destruct (Tensor_copy_total t σ l Hr) as (t' & σ1 & Ht).
      rewrite Ht. unfold new_object, new_handle. eauto.
    + unfold new_object, new_handle. eauto.
  - rewrite (bind_Done _ _ _ _ _ (get_ptr_Some _ _ _ Hg)).
    unfold new_handle. eauto.
Qed.

Lemma NoDup_contiguous (ds : list nat) :
  NoDup (offsets 0 (contiguous_shape ds)).
Proof.
  rewrite offsets_contiguous. apply NoDup_fmap_2; [|apply NoDup_seq].
  intros i j E. lia.
Qed.

Lemma Tensor_copy_simple (t t' : Tensor) (σ σ1 : State) :
  Tensor_copy t σ = Done t' σ1 -> NoDup (Tensor_offsets t').
Proof.
  unfold Tensor_copy. destruct (t_p t).
  - destruct (Tensor_read σ t); [|discriminate].
    intros (b & -> & _)%Tensor_of_elements_Done.
    unfold Tensor_offsets. simpl. apply NoDup_contiguous.
  - unfold ret. intros [= <- _]. apply NoDup_nil_2.
Qed.

Lemma GenTensor_copy_simple_view (g h : nat) (σ σ1 : State) :
  GenTensor_copy g σ = Done h σ1 -> simple_view σ1 h.
Proof.
  unfold GenTensor_copy. intros (p & σ' & Hp & Hk)%bind_Done_inv.
  pose proof (readonly_Done _ _ _ _ (readonly_get_ptr g) Hp) as ->.
  intros a t Ha Ho. destruct p as [a0|].
  - apply bind_Done_inv in Hk as (c & σ2 & Hc & Hn).
    apply new_handle_Done in Hn as (_ & Hh & Hobj & _).
    unfold backend_of in Ha. rewrite Hh in Ha. injection Ha as ->.
    rewrite Hobj in Ho. unfold SepRepTensor_copy_this in Hc.
    apply bind_Done_inv in Hc as (o & σ3 & Hl & Hc).
    destruct o as [data|d].
    + apply bind_Done_inv in Hc as (t' & σ4 & Ht & Hn).
      apply new_object_Done in Hn as (_ & Hc' & _).
      rewrite Hc' in Ho. injection Ho as <-.
      eapply Tensor_copy_simple; eauto.
    + apply new_object_Done in Hc as (_ & Hc' & _).
      rewrite Hc' in Ho. discriminate.
  - apply new_handle_Done in Hk as (_ & Hh & _).
    unfold backend_of in Ha. rewrite Hh in Ha. discriminate.
Qed.

(** C8: [g * x] with [x] of a type other than the element type fails with
    [MADNESS_ASSERT(0)] and returns nothing; with [x] of the element type it
    returns a new handle that holds the content of a deep copy of [g]
    scaled by [x], and [g] keeps its content. *)
Theorem scalar_multiplication {Q : Type} (g : nat) (σ : State) :
  (forall q : Q, GenTensor_mul g (inr q) σ = Failed AssertZero σ) /\
  (forall (x : T) (c0 : Content), content σ g = Some c0 ->
     exists r σ', GenTensor_mul (Q := Q) g (inl x) σ = Done r σ' /\
       content σ r = None /\
       content σ' r = Some (scaled x (copied c0)) /\
       content σ' g = Some c0).
Proof.
  split; [reflexivity|]. intros x c0 Hc. simpl. unfold GenTensor_mul_T.
  destruct (GenTensor_copy_total g σ c0 Hc) as (tmp & σa & Hcp).
  rewrite (bind_Done _ _ _ _ _ Hcp).
  pose proof (GenTensor_copy_content _ _ _ _ Hcp) as Htmp.
  simpl in Htmp. rewrite Hc in Htmp.
  pose proof (GenTensor_copy_simple_view _ _ _ _ Hcp) as Hsv.
  pose proof (GenTensor_copy_fresh _ _ _ _ Hcp) as (Hwb & FA & FB).
  pose proof (frames_GenTensor_copy g σ) as Hst. rewrite Hcp in Hst.
  simpl in Hst.
  assert (Hp : exists p, handles σa !! tmp = Some p).
  { unfold content in Htmp. destruct (handles σa !! tmp); [eauto|discriminate]. }
  destruct Hp as (p & Hp).
  set (r := fresh (dom (handles σa))).
  set (σb := mkState (<[r := p]> (handles σa)) (objects σa) (buffers σa)).
  assert (Hctor : GenTensor_copy_ctor tmp σa = Done r σb).
  { unfold GenTensor_copy_ctor.
    rewrite (bind_Done _ _ _ _ _ (get_ptr_Some _ _ _ Hp)). reflexivity. }
  rewrite (bind_Done _ _ _ _ _ Hctor).
  assert (Hr : handles σb !! r = Some p) by apply lookup_insert_eq.
  assert (Hrn : handles σa !! r = None) by apply fresh_None.
  assert (Htb : handles σb !! tmp = Some p).
  { simpl. rewrite lookup_insert_ne; [exact Hp|]. congruence. }
  assert (Hcr : content σb r = Some (copied c0)).
  { rewrite <- Htmp. unfold content. simpl. rewrite lookup_insert_eq, Hp.
    reflexivity. }
  assert (Hsr : simple_view σb r).
  { intros a t Ha Ho. apply (Hsv a t); [|exact Ho].
    unfold backend_of in *. rewrite Hr in Ha. rewrite Hp. exact Ha. }
  destruct (GenTensor_scale_content r x σb _ Hcr Hsr) as (σ' & Hs & Hc').
  rewrite (bind_Done _ _ _ _ _ Hs).
  exists r, σ'. split; [reflexivity|].
  assert (Hrσ : handles σ !! r = None).
  { destruct Hst as (SH & _ & _ & _). destruct (handles σ !! r) as [q|] eqn:E;
      [|reflexivity].
    rewrite (SH r q) in Hrn; [discriminate|discriminate|exact E]. }
  split; [unfold content; rewrite Hrσ; reflexivity|].
  split; [exact Hc'|].
  assert (Hind : independent σ σb r).
  { apply (independent_intro None).
    - eapply stable_trans; [exact Hst|]. apply (new_handle_stable p σa).
    - discriminate.
    - destruct Hwb as (p' & Hp' & Hal). rewrite Hp in Hp'. injection Hp' as <-.
      unfold fresh_footprint, well_bound, buffer_of, backend_of in *. simpl.
      rewrite lookup_insert_eq. rewrite Hp in FA, FB. eauto. }
  destruct Hind as [Hind _].
  destruct (Hind g c0) as (_ & Hmut); [|exact Hc|].
  { intros ->. unfold content in Hc. rewrite Hrσ in Hc. discriminate. }
  specialize (Hmut [ViaHandle r (MScale x)]). unfold run in Hmut.
  simpl in Hmut. rewrite Hs in Hmut. apply Hmut.
  constructor; [reflexivity|constructor].
Qed.

(** ** The conversions where they are defined *)

Lemma GenTensor_assign_bound (this rhs : nat) (σ : State) (p q : option nat) :
  handles σ !! this = Some p -> handles σ !! rhs = Some q ->
  GenTensor_assign this rhs σ
  = Done tt (mkState (<[this := q]> (handles σ)) (objects σ) (buffers σ)).
Proof.
  intros Ht Hr. unfold GenTensor_assign.
  rewrite (bind_Done _ _ _ _ _ (get_ptr_Some _ _ _ Hr)).
  unfold set_ptr. rewrite Ht. reflexivity.
Qed.

Lemma content_rebound (σ : State) (this rhs : nat) (q : option nat) :
  handles σ !! rhs = Some q ->
  content (mkState (<[this := q]> (handles σ)) (objects σ) (buffers σ)) this
  = content σ rhs.
Proof.
  intros Hr. unfold content at 1. simpl. rewrite lookup_insert_eq.
  unfold content. rewrite Hr. reflexivity.
Qed.

Lemma GenTensor_of_type_Done (k : TensorType) (σ : State) :
  exists h σ1, GenTensor_of_type k σ = Done h σ1 /\
    handles σ !! h = None /\
    content σ1 h = Some (empty_content k) /\
    stable_outside None None None σ σ1.
Proof.
  unfold GenTensor_of_type, empty_content.
  set (o := if bool_decide (k = TT_FULL)
            then FullTensor Tensor_default else LowRankTensor (sr_new k)).
  assert (Ho : (if bool_decide (k = TT_FULL)
                then new_object (FullTensor Tensor_default)
                else new_object (LowRankTensor (sr_new k))) = new_object o).
  { unfold o. destruct (bool_decide (k = TT_FULL)); reflexivity. }
  rewrite Ho.
  destruct (new_object o σ) as [a σa|] eqn:Ea; [|discriminate].
  rewrite (bind_Done _ _ _ _ _ Ea).
  destruct (new_handle (Some a) σa) as [h σ1|] eqn:Eh; [|discriminate].
  exists h, σ1. split; [reflexivity|].
  pose proof (new_object_stable o σ) as Sa.
  rewrite Ea in Sa. pose proof (new_handle_stable (Some a) σa) as Sh.
  rewrite Eh in Sh. simpl in Sa, Sh.
  apply new_object_Done in Ea as (_ & Ha & Hh & _).
  apply new_handle_Done in Eh as (Hn & Hh1 & Hobj & _).
  split; [rewrite <- Hh; exact Hn|]. split.
  - rewrite <- Hobj in Ha. rewrite (content_bound _ _ _ _ Hh1 Ha).
    unfold o. destruct (bool_decide (k = TT_FULL)); reflexivity.
  - eapply stable_trans; eauto.
Qed.

(** Rebinding a handle without data to [GenTensor(tt)]. *)
Lemma rebind_to_empty (k : TensorType) (g : nat) (σ : State) :
  GenTensor_has_data g σ = Done false σ ->
  exists σ', (let* h := GenTensor_of_type k in GenTensor_assign g h) σ
             = Done tt σ' /\
             content σ' g = Some (empty_content k).
Proof.
  intros Hd.
  assert (Hg : exists p, handles σ !! g = Some p).
  { unfold GenTensor_has_data, bind, get_ptr in Hd.
    destruct (handles σ !! g); [eauto|discriminate]. }
  destruct Hg as (p & Hg).
  destruct (GenTensor_of_type_Done k σ) as (h & σ1 & Eh & Hn & Hc & Hst).
  rewrite (bind_Done _ _ _ _ _ Eh).
  destruct Hst as (SH & _).
  assert (Hg1 : handles σ1 !! g = Some p) by (apply SH; [discriminate|exact Hg]).
  assert (Hh : exists q, handles σ1 !! h = Some q).
  { unfold content in Hc. destruct (handles σ1 !! h); [eauto|discriminate]. }
  destruct Hh as (q & Hh).
  rewrite (GenTensor_assign_bound _ _ _ _ _ Hg1 Hh). eexists.
  split; [reflexivity|]. rewrite (content_rebound _ _ _ _ Hh). exact Hc.
Qed.

(** X1: [to_full_rank] on a dense handle that has data returns and leaves
    the whole store as it was. *)
Theorem to_full_rank_dense (σ : State) (g a : nat) (t : Tensor) :
  handles σ !! g = Some (Some a) ->
  objects σ !! a = Some (FullTensor t) ->
  Tensor_size t <> 0 ->
  to_full_rank g σ = Done tt σ.
Proof.
  intros Hg Ha Hs. unfold to_full_rank.
  rewrite (bind_Done _ _ _ _ _ (GenTensor_has_data_backend _ _ _ _ Hg Ha)).
  simpl. rewrite (proj2 (Z.eqb_neq _ _) Hs). simpl.
  rewrite (bind_Done _ _ _ _ _ (GenTensor_type_backend _ _ _ _ Hg Ha)).
  reflexivity.
Qed.

(** X2: [to_full_rank] on a handle for which [has_data()] is false (an
    empty handle, or a backend without data) returns, and the handle is then
    bound to an empty dense backend. *)
Theorem to_full_rank_no_data (σ : State) (g : nat) :
  GenTensor_has_data g σ = Done false σ ->
  exists σ', to_full_rank g σ = Done tt σ' /\
             content σ' g = Some (Dense [] []).
Proof.
  intros Hd. unfold to_full_rank. rewrite (bind_Done _ _ _ _ _ Hd).
  apply (rebind_to_empty TT_FULL g σ Hd).
Qed.

(** X3: [to_low_rank] on a handle for which [has_data()] is false returns,
    whatever the accuracy, and the handle is then bound to what
    [GenTensor(target_type)] builds: an empty low-rank backend of the target
    kind, or an empty dense backend when the target kind is [TT_FULL]. *)
Theorem to_low_rank_no_data (σ : State) (g : nat) (eps : Dbl) (k : TensorType) :
  GenTensor_has_data g σ = Done false σ ->
  exists σ', to_low_rank g eps k σ = Done tt σ' /\
             content σ' g = Some (empty_content k).
Proof.
  intros Hd. unfold to_low_rank. rewrite (bind_Done _ _ _ _ _ Hd).
  apply (rebind_to_empty k g σ Hd).
Qed.

(** X4: [to_low_rank] on a valid low-rank handle of kind [TT_3D] returns
    and leaves the whole store as it was, whatever the accuracy and whatever
    the target kind: the handle stays [TT_3D] also when [TT_2D] was asked
    for. *)
Theorem to_low_rank_3D (σ : State) (g a : nat) (d : SR) (eps : Dbl)
    (target_type : TensorType) :
  handles σ !! g = Some (Some a) ->
  objects σ !! a = Some (LowRankTensor d) ->
  sr_is_valid d = true -> sr_tensor_type d = TT_3D ->
  to_low_rank g eps target_type σ = Done tt σ.
Proof.
  intros Hg Ha Hv Hk. unfold to_low_rank.
  rewrite (bind_Done _ _ _ _ _ (GenTensor_has_data_backend _ _ _ _ Hg Ha)).
  simpl. rewrite Hv.
  rewrite (bind_Done _ _ _ _ _ (GenTensor_type_backend _ _ _ _ Hg Ha)).
  simpl. rewrite Hk. reflexivity.
Qed.

(** [to_full_rank] on a valid low-rank handle of kind [TT_3D] rebinds the
    handle to a dense backend that holds the reconstruction. *)
Lemma to_full_rank_3D_run (σ : State) (g a : nat) (d : SR) (ds : list nat)
    (l : list T) :
  handles σ !! g = Some (Some a) ->
  objects σ !! a = Some (LowRankTensor d) ->
  sr_is_valid d = true -> sr_tensor_type d = TT_3D ->
  sr_reconstructTensor d = Some (ds, l) -> length l = product ds ->
  exists σ', to_full_rank g σ = Done tt σ' /\
             content σ' g = Some (Dense ds l).
Proof.
  intros Hg Ha Hv Hk Hrec Hlen. unfold to_full_rank.
  rewrite (bind_Done _ _ _ _ _ (GenTensor_has_data_backend _ _ _ _ Hg Ha)).
  simpl. rewrite Hv.
  rewrite (bind_Done _ _ _ _ _ (GenTensor_type_backend _ _ _ _ Hg Ha)).
  simpl. rewrite Hk. simpl.
  destruct (Tensor_of_elements ds l σ) as [t σa|] eqn:Et; [|discriminate].
  assert (Hrt : GenTensor_reconstruct_tensor g σ = Done t σa).
  { unfold GenTensor_reconstruct_tensor.
    rewrite (bind_Done _ _ _ _ _ (get_ptr_Some _ _ _ Hg)).
    rewrite (bind_Done _ _ _ _ _ (deref_Some _ _ _ Ha)).
    unfold SepRepTensor_reconstructTensor.
    rewrite (bind_Done _ _ _ _ _ (load_Some _ _ _ Ha)).
    rewrite Hv, Hrec. exact Et. }
  rewrite (bind_Done _ _ _ _ _ Hrt).
  pose proof (Tensor_of_elements_stable ds l σ) as Sa. rewrite Et in Sa.
  simpl in Sa.
  apply Tensor_of_elements_Done in Et as (b & -> & Hb & HB & Hh & Ho).
  assert (Hr : Tensor_read σa (mkTensor (Some b) 0 (contiguous_shape ds)) = Some l).
  { unfold Tensor_read. simpl. rewrite HB, offsets_contiguous, <- Hlen.
    apply read_offsets_whole, lookup_insert_eq. }
  set (t := mkTensor (Some b) 0 (contiguous_shape ds)) in *.
  destruct (GenTensor_of_tensor t dbl_zero TT_FULL σa) as [h σ1|e σ1] eqn:Eh.
  2:{ exfalso. unfold GenTensor_of_tensor in Eh. simpl in Eh.
      destruct (Tensor_copy_total t σa l Hr) as (t' & σb & Ec).
      rewrite (bind_Done _ _ _ _ _ Ec) in Eh. discriminate. }
  rewrite (bind_Done _ _ _ _ _ Eh).
  pose proof (GenTensor_of_tensor_content _ _ _ _ _ _ Eh) as Hc.
  simpl in Hc. rewrite Hr in Hc.
  pose proof (frames_GenTensor_of_tensor t dbl_zero TT_FULL σa) as S1.
  rewrite Eh in S1. simpl in S1. destruct S1 as (SH & _).
  assert (Hg1 : handles σ1 !! g = Some (Some a)).
  { apply SH; [discriminate|]. rewrite Hh. exact Hg. }
  assert (Hq : exists q, handles σ1 !! h = Some q).
  { unfold content in Hc. destruct (handles σ1 !! h); [eauto|discriminate]. }
  destruct Hq as (q & Hq).
  rewrite (GenTensor_assign_bound _ _ _ _ _ Hg1 Hq). eexists.
  split; [reflexivity|]. rewrite (content_rebound _ _ _ _ Hq), Hc.
  unfold Tensor_dims, t_dims, t. simpl. rewrite map_fst_contiguous.
  reflexivity.
Qed.

(** [to_low_rank] on a dense handle with data, towards [TT_2D] or [TT_3D]
    and with a positive accuracy, rebinds the handle to a low-rank backend
    that holds the factorisation of the content. *)
Lemma to_low_rank_dense_run (σ : State) (g a : nat) (t : Tensor) (l : list T)
    (eps : Dbl) (k : TensorType) (d : SR) :
  handles σ !! g = Some (Some a) ->
  objects σ !! a = Some (FullTensor t) ->
  Tensor_size t <> 0 ->
  Tensor_read σ t = Some l ->
  k = TT_2D \/ k = TT_3D ->
  dbl_pos eps = true ->
  sr_of_tensor (Tensor_dims t) l eps k = Some d ->
  exists σ', to_low_rank g eps k σ = Done tt σ' /\
             content σ' g = Some (Separated d).
Proof.
  intros Hg Ha Hs Hr Hk Hpos Hd. unfold to_low_rank.
  rewrite (bind_Done _ _ _ _ _ (GenTensor_has_data_backend _ _ _ _ Hg Ha)).
  simpl. rewrite (proj2 (Z.eqb_neq _ _) Hs). simpl.
  rewrite (bind_Done _ _ _ _ _ (GenTensor_type_backend _ _ _ _ Hg Ha)).
  simpl.
  assert (Hft : GenTensor_full_tensor g σ = Done t σ).
  { unfold GenTensor_full_tensor.
    rewrite (bind_Done _ _ _ _ _ (get_ptr_Some _ _ _ Hg)).
    rewrite (bind_Done _ _ _ _ _ (deref_Some _ _ _ Ha)).
    unfold SepRepTensor_fullTensor.
    rewrite (bind_Done _ _ _ _ _ (load_Some _ _ _ Ha)). reflexivity. }
  rewrite (bind_Done _ _ _ _ _ Hft).
  destruct (GenTensor_of_tensor t eps k σ) as [h σ1|e σ1] eqn:Eh.
  2:{ exfalso. unfold GenTensor_of_tensor in Eh.
      assert (Hb : bool_decide (k = TT_FULL) = false)
        by (apply bool_decide_eq_false; destruct Hk; congruence).
      assert (Hb2 : bool_decide (k = TT_3D) || bool_decide (k = TT_2D) = true).
      { apply orb_true_iff. destruct Hk as [->| ->]; [right|left];
          apply bool_decide_eq_true; reflexivity. }
      rewrite Hb, Hb2, Hpos in Eh. simpl in Eh. unfold bind at 1 in Eh.
      simpl in Eh.
      destruct (Tensor_iscontiguous t).
      - unfold bind, ret, LowRankTensor_of_tensor in Eh.
        rewrite Hr, Hd in Eh. simpl in Eh. discriminate.
      - destruct (Tensor_copy_total t σ l Hr) as (t' & σb & Ec).
        pose proof (Tensor_copy_read _ _ _ _ Ec) as (l' & Hr0 & Hr' & Hdim).
        rewrite Hr in Hr0. injection Hr0 as <-.
        unfold bind, LowRankTensor_of_tensor in Eh.
        rewrite Ec, Hr', Hdim, Hd in Eh. simpl in Eh. discriminate. }
  rewrite (bind_Done _ _ _ _ _ Eh).
  pose proof (GenTensor_of_tensor_content _ _ _ _ _ _ Eh) as Hc.
  assert (Htd : tensor_data σ t eps k = Some (Separated d)).
  { unfold tensor_data. rewrite Hr, Hd. destruct Hk as [->| ->]; reflexivity. }
  rewrite Htd in Hc.
  pose proof (frames_GenTensor_of_tensor t eps k σ) as S1.
  rewrite Eh in S1. simpl in S1. destruct S1 as (SH & _).
  assert (Hg1 : handles σ1 !! g = Some (Some a))
    by (apply SH; [discriminate|exact Hg]).
  assert (Hq : exists q, handles σ1 !! h = Some q).
  { unfold content in Hc. destruct (handles σ1 !! h); [eauto|discriminate]. }
  destruct Hq as (q & Hq).
  rewrite (GenTensor_assign_bound _ _ _ _ _ Hg1 Hq). eexists.
  split; [reflexivity|]. rewrite (content_rebound _ _ _ _ Hq). exact Hc.
Qed.

(** ** More on the conversions *)

Lemma readonly_GenTensor_has_data (g : nat) : readonly (GenTensor_has_data g).
Proof.
  apply readonly_bind; [apply readonly_get_ptr|]. intros [a|];
    [|apply readonly_ret].
  apply readonly_bind; [apply readonly_load|]. intros o. apply readonly_ret.
Qed.

Lemma readonly_GenTensor_size (g : nat) : readonly (GenTensor_size g).
Proof.
  apply readonly_bind; [apply readonly_get_ptr|]. intros [a|];
    [|apply readonly_ret].
  apply readonly_bind; [apply readonly_load|]. intros o. apply readonly_ret.
Qed.

Lemma readonly_SepRepTensor_fullTensor (a : nat) :
  readonly (SepRepTensor_fullTensor a).
Proof.
  apply readonly_bind; [apply readonly_load|]. intros [t|d];
    [apply readonly_ret|apply readonly_fail].
Qed.

Lemma readonly_GenTensor_full_tensor (g : nat) :
  readonly (GenTensor_full_tensor g).
Proof.
  apply readonly_bind; [apply readonly_get_ptr|]. intros p.
  apply readonly_bind; [apply readonly_deref|]. intros [a o].
  apply readonly_SepRepTensor_fullTensor.
Qed.

Lemma frames_Tensor_of_elements (G : option nat) (ds : list nat) (l : list T) :
  frames G (Tensor_of_elements ds l).
Proof. apply frames_alloc. intros σ. apply Tensor_of_elements_stable. Qed.

#[local] Hint Resolve readonly_GenTensor_has_data readonly_GenTensor_size
  readonly_GenTensor_full_tensor readonly_SepRepTensor_fullTensor
  frames_Tensor_of_elements : readonly.

Lemma frames_SepRepTensor_reconstructTensor (G : option nat) (a : nat) :
  frames G (SepRepTensor_reconstructTensor a).
Proof.
  unfold SepRepTensor_reconstructTensor. frames_tac.
  apply frames_alloc. intros σ. apply new_buffer_stable.
Qed.

Lemma frames_GenTensor_reconstruct_tensor (G : option nat) (g : nat) :
  frames G (GenTensor_reconstruct_tensor g).
Proof.
  unfold GenTensor_reconstruct_tensor.
  apply frames_bind; [apply frames_readonly; auto with readonly|]. intros p.
  apply frames_bind; [apply frames_readonly; auto with readonly|].
  intros [a o]. apply frames_SepRepTensor_reconstructTensor.
Qed.

Lemma frames_GenTensor_of_type (G : option nat) (k : TensorType) :
  frames G (GenTensor_of_type k).
Proof. unfold GenTensor_of_type. frames_tac. Qed.

Lemma frames_GenTensor_of_tensor_any (G : option nat) (rhs : Tensor)
    (eps : Dbl) (k : TensorType) :
  frames G (GenTensor_of_tensor rhs eps k).
Proof. apply frames_alloc, frames_GenTensor_of_tensor. Qed.

Lemma frames_GenTensor_assign (this rhs : nat) :
  frames (Some this) (GenTensor_assign this rhs).
Proof. unfold GenTensor_assign. frames_tac. Qed.

#[local] Hint Resolve frames_GenTensor_reconstruct_tensor
  frames_GenTensor_of_type frames_GenTensor_of_tensor_any
  frames_GenTensor_assign : readonly.

(** The frame of a composite: the calls it makes are taken whole. *)
Ltac frames_calls :=
  repeat first
    [ solve [auto with readonly]
    | solve [apply frames_readonly; auto with readonly]
    | apply frames_bind; [|intros ?]
    | match goal with
      | |- frames _ (match ?x with _ => _ end) => destruct x
      | |- frames _ (if ?x then _ else _) => destruct x
      end ].

Lemma frames_to_full_rank (g : nat) : frames (Some g) (to_full_rank g).
Proof. unfold to_full_rank. frames_calls. Qed.

Lemma frames_to_low_rank (g : nat) (eps : Dbl) (k : TensorType) :
  frames (Some g) (to_low_rank g eps k).
Proof. unfold to_low_rank. frames_calls. Qed.

(** What the other handles keep when at most the handle [g] was rebound
    and nothing that existed was written to. *)
Lemma rebound_only (g : nat) (σ σ' : State) :
  stable_outside (Some g) None None σ σ' ->
  (forall h p, h <> g -> handles σ !! h = Some p -> handles σ' !! h = Some p) /\
  (forall h c, h <> g -> content σ h = Some c -> content σ' h = Some c).
Proof.
  intros Hst. pose proof Hst as (SH & _). split.
  - intros h p Hne. apply SH. congruence.
  - intros h c Hne Hc. eapply content_stable; eauto; try congruence;
      intros; discriminate.
Qed.

(** X5: a conversion rebinds the handle it is given and no other, whether
    it returns or fails: every other handle keeps its pointer and holds the
    content it held, so a handle that shared the backend of the converted
    one still holds the content in its old representation. *)
Theorem conversion_rebinds_only_its_argument (g : nat) (eps : Dbl)
    (k : TensorType) (σ σ' : State) :
  σ' = final (to_full_rank g σ) \/ σ' = final (to_low_rank g eps k σ) ->
  (forall h p, h <> g -> handles σ !! h = Some p -> handles σ' !! h = Some p) /\
  (forall h c, h <> g -> content σ h = Some c -> content σ' h = Some c).
Proof.
  intros [-> | ->]; apply rebound_only.
  - apply frames_to_full_rank.
  - apply frames_to_low_rank.
Qed.

(** [to_low_rank] on a dense handle with data is the construction from the
    dense tensor followed by the shallow assignment. *)
Lemma to_low_rank_dense_unfold (σ : State) (g a : nat) (t : Tensor)
    (eps : Dbl) (k : TensorType) :
  handles σ !! g = Some (Some a) ->
  objects σ !! a = Some (FullTensor t) ->
  Tensor_size t <> 0 ->
  to_low_rank g eps k σ
  = (let* h := GenTensor_of_tensor t eps k in GenTensor_assign g h) σ.
Proof.
  intros Hg Ha Hs. unfold to_low_rank.
  rewrite (bind_Done _ _ _ _ _ (GenTensor_has_data_backend _ _ _ _ Hg Ha)).
  simpl. rewrite (proj2 (Z.eqb_neq _ _) Hs). simpl.
  rewrite (bind_Done _ _ _ _ _ (GenTensor_type_backend _ _ _ _ Hg Ha)).
  simpl.
  assert (Hft : GenTensor_full_tensor g σ = Done t σ).
  { unfold GenTensor_full_tensor.
    rewrite (bind_Done _ _ _ _ _ (get_ptr_Some _ _ _ Hg)).
    rewrite (bind_Done _ _ _ _ _ (deref_Some _ _ _ Ha)).
    unfold SepRepTensor_fullTensor.
    rewrite (bind_Done _ _ _ _ _ (load_Some _ _ _ Ha)). reflexivity. }
  rewrite (bind_Done _ _ _ _ _ Hft). reflexivity.
Qed.

(** X6: [to_full_rank] on a valid low-rank handle of kind [TT_3D] returns,
    and the handle is then bound to a dense backend that holds the
    reconstruction of the separated representation; every other handle, one
    that shared the low-rank backend among them, holds what it held. *)
Theorem to_full_rank_reconstructs (σ : State) (g a : nat) (d : SR)
    (ds : list nat) (l : list T) :
  handles σ !! g = Some (Some a) ->
  objects σ !! a = Some (LowRankTensor d) ->
  sr_is_valid d = true -> sr_tensor_type d = TT_3D ->
  sr_reconstructTensor d = Some (ds, l) -> length l = product ds ->
  exists σ', to_full_rank g σ = Done tt σ' /\
             content σ' g = Some (Dense ds l) /\
             (forall h c, h <> g -> content σ h = Some c ->
                          content σ' h = Some c).
Proof.
  intros Hg Ha Hv Hk Hrec Hlen.
  destruct (to_full_rank_3D_run σ g a d ds l Hg Ha Hv Hk Hrec Hlen)
    as (σ' & E & C).
  exists σ'. split; [exact E|]. split; [exact C|].
  pose proof (frames_to_full_rank g σ) as St. rewrite E in St.
  apply (rebound_only g σ σ' St).
Qed.

(** X7: [to_low_rank] on a dense handle with data, towards [TT_2D] or
    [TT_3D] and with a positive accuracy, returns when the factorisation
    does, and the handle is then bound to a low-rank backend that holds the
    factorisation of the elements at that accuracy; every other handle,
    one that shared the dense backend among them, holds what it held. *)
Theorem to_low_rank_factorises (σ : State) (g a : nat) (t : Tensor)
    (l : list T) (eps : Dbl) (k : TensorType) (d : SR) :
  handles σ !! g = Some (Some a) ->
  objects σ !! a = Some (FullTensor t) ->
  Tensor_size t <> 0 ->
  Tensor_read σ t = Some l ->
  k = TT_2D \/ k = TT_3D ->
  dbl_pos eps = true ->
  sr_of_tensor (Tensor_dims t) l eps k = Some d ->
  exists σ', to_low_rank g eps k σ = Done tt σ' /\
             content σ' g = Some (Separated d) /\
             (forall h c, h <> g -> content σ h = Some c ->
                          content σ' h = Some c).
Proof.
  intros Hg Ha Hs Hr Hk Hpos Hd.
  destruct (to_low_rank_dense_run σ g a t l eps k d Hg Ha Hs Hr Hk Hpos Hd)
    as (σ' & E & C).
  exists σ'. split; [exact E|]. split; [exact C|].
  pose proof (frames_to_low_rank g eps k σ) as St. rewrite E in St.
  apply (rebound_only g σ σ' St).
Qed.

(** X8: [to_low_rank] on a dense handle with data, towards [TT_2D] or
    [TT_3D], fails with the assertion [eps>0.0] when the accuracy is not
    positive, and the store is left as it was. *)
Theorem to_low_rank_checks_accuracy (σ : State) (g a : nat) (t : Tensor)
    (eps : Dbl) (k : TensorType) :
  handles σ !! g = Some (Some a) ->
  objects σ !! a = Some (FullTensor t) ->
  Tensor_size t <> 0 ->
  k = TT_2D \/ k = TT_3D ->
  dbl_pos eps = false ->
  to_low_rank g eps k σ = Failed AssertThreshPositive σ.
Proof.
  intros Hg Ha Hs Hk Hpos.
  rewrite (to_low_rank_dense_unfold _ _ _ _ _ _ Hg Ha Hs).
  unfold GenTensor_of_tensor.
  destruct Hk as [-> | ->]; simpl; unfold bind; simpl; rewrite Hpos;
    reflexivity.
Qed.

(** X9: [to_low_rank] on a dense handle with data, towards the kind
    [TT_NONE], returns whatever the accuracy and leaves the handle empty:
    the constructor from a dense tensor builds no backend for that kind,
    and the data is no longer reachable through the handle. *)
Theorem to_low_rank_none_drops_data (σ : State) (g a : nat) (t : Tensor)
    (eps : Dbl) :
  handles σ !! g = Some (Some a) ->
  objects σ !! a = Some (FullTensor t) ->
  Tensor_size t <> 0 ->
  exists σ', to_low_rank g eps TT_NONE σ = Done tt σ' /\
             handles σ' !! g = Some None /\
             content σ' g = Some NoBackend /\
             GenTensor_has_data g σ' = Done false σ'.
Proof.
  intros Hg Ha Hs.
  rewrite (to_low_rank_dense_unfold _ _ _ _ _ _ Hg Ha Hs).
  unfold GenTensor_of_tensor. simpl.
  destruct (new_handle None σ) as [h σ1|] eqn:Eh; [|discriminate].
  rewrite (bind_Done _ _ _ _ _ Eh).
  pose proof (new_handle_stable None σ) as Sh. rewrite Eh in Sh.
  simpl in Sh. destruct Sh as (SH & _).
  apply new_handle_Done in Eh as (_ & Hh & _ & _).
  assert (Hg1 : handles σ1 !! g = Some (Some a))
    by (apply SH; [discriminate|exact Hg]).
  rewrite (GenTensor_assign_bound _ _ _ _ _ Hg1 Hh). eexists.
  split; [reflexivity|].
  assert (Hn : handles (mkState (<[g := None]> (handles σ1)) (objects σ1)
                          (buffers σ1)) !! g = Some None)
    by (simpl; apply lookup_insert_eq).
  split; [exact Hn|]. split; [apply content_unbound, Hn|].
  unfold GenTensor_has_data.
  rewrite (bind_Done _ _ _ _ _ (get_ptr_Some _ _ _ Hn)). reflexivity.
Qed.

(** ** Assignment from a slice *)

(** X11: [g0 = g1(s)] clears [g0] before it reads [g1].  When [g1] is [g0]
    itself, or an empty handle, the assignment dereferences the null
    pointer, and [g0] is left empty: its old backend is no longer reachable
    through it. *)
Theorem assign_slice_clears_first (σ : State) (this : nat)
    (rhs : SliceGenTensor) (p : option nat) :
  handles σ !! this = Some p ->
  _refGT rhs = this \/ handles σ !! _refGT rhs = Some None ->
  let σ' := mkState (<[this := None]> (handles σ)) (objects σ) (buffers σ) in
  GenTensor_assign_slice this rhs σ = Failed NullDereference σ' /\
  content σ' this = Some NoBackend.
Proof.
  intros Ht Hsrc σ'.
  assert (Hc : GenTensor_clear this σ = Done tt σ').
  { unfold GenTensor_clear, set_ptr. rewrite Ht. reflexivity. }
  assert (Hr : handles σ' !! _refGT rhs = Some None).
  { unfold σ'. simpl. destruct (decide (this = _refGT rhs)) as [E|E].
    - rewrite <- E. apply lookup_insert_eq.
    - rewrite lookup_insert_ne by exact E.
      destruct Hsrc as [E'|H]; [congruence|exact H]. }
  split.
  - unfold GenTensor_assign_slice. rewrite (bind_Done _ _ _ _ _ Hc).
    rewrite (bind_Done _ _ _ _ _ (get_ptr_Some _ _ _ Hr)). reflexivity.
  - apply content_unbound. unfold σ'. simpl. apply lookup_insert_eq.
Qed.

(** ** Construction with dimensions or with a kind *)


Lemma Tensor_read_new (σ : State) (b : nat) (ds : list nat) (l : list T) :
  buffers σ !! b = Some l -> length l = product ds ->
  Tensor_read σ (mkTensor (Some b) 0 (contiguous_shape ds)) = Some l.
Proof.
  intros HB Hlen. unfold Tensor_read. simpl.
  rewrite offsets_contiguous, <- Hlen. apply read_offsets_whole, HB.
Qed.

(** X14: [GenTensor(TT_FULL)] always returns a new handle that has a
    backend and no data: [type()] is [TT_FULL], [has_data()] is false and
    [size()] is 0. *)
Theorem dense_of_type_has_no_data (σ : State) :
  exists h σ', GenTensor_of_type TT_FULL σ = Done h σ' /\
    handles σ !! h = None /\
    is_Some (backend_of σ' h) /\
    GenTensor_type h σ' = Done TT_FULL σ' /\
    GenTensor_has_data h σ' = Done false σ' /\
    GenTensor_size h σ' = Done 0 σ'.
Proof.
  unfold GenTensor_of_type. simpl.
  set (a := fresh (dom (objects σ))).
  set (h := fresh (dom (handles σ))).
  set (σ' := mkState (<[h := Some a]> (handles σ))
                     (<[a := FullTensor Tensor_default]> (objects σ))
                     (buffers σ)).
  exists h, σ'. split; [reflexivity|].
  assert (Hh : handles σ' !! h = Some (Some a)) by apply lookup_insert_eq.
  assert (Ha : objects σ' !! a = Some (FullTensor Tensor_default))
    by apply lookup_insert_eq.
  split; [apply fresh_None|].
  split; [unfold backend_of; rewrite Hh; eauto|].
  split; [apply (GenTensor_type_backend _ _ _ _ Hh Ha)|].
  split; [apply (GenTensor_has_data_backend _ _ _ _ Hh Ha)|].
  unfold GenTensor_size.
  rewrite (bind_Done _ _ _ _ _ (get_ptr_Some _ _ _ Hh)).
  rewrite (bind_Done _ _ _ _ _ (load_Some _ _ _ Ha)). reflexivity.
Qed.

(** ** Queries *)

(** X15: a handle for which [has_data()] is false has [size()] 0, whether
    it is empty, dense or low-rank. *)
Theorem no_data_size_zero (σ : State) (g : nat) :
  GenTensor_has_data g σ = Done false σ -> GenTensor_size g σ = Done 0 σ.
Proof.
  unfold GenTensor_has_data, GenTensor_size, bind, get_ptr, load, ret.
  destruct (handles σ !! g) as [[a|]|]; [| reflexivity | discriminate].
  destruct (objects σ !! a) as [[t|d]|]; [| | discriminate]; simpl.
  - intros [= H]. apply negb_false_iff, Z.eqb_eq in H. rewrite H.
    reflexivity.
  - intros [= ->]. reflexivity.
Qed.

Lemma content_Dense_inv (σ : State) (g : nat) (ds : list nat) (l : list T) :
  content σ g = Some (Dense ds l) ->
  exists a t, handles σ !! g = Some (Some a) /\
              objects σ !! a = Some (FullTensor t) /\
              Tensor_read σ t = Some l /\ Tensor_dims t = ds.
Proof.
  unfold content. intros Hc.
  destruct (handles σ !! g) as [[a|]|] eqn:Hg; try discriminate Hc.
  destruct (objects σ !! a) as [[t|d']|] eqn:Ha; simpl in Hc;
    try discriminate Hc.
  destruct (Tensor_read σ t) as [l'|] eqn:Hr; [|discriminate Hc].
  injection Hc as <- <-. exists a, t. auto.
Qed.

(** X16: the [size()] of a handle that holds a dense tensor is the number
    of elements of its content, and [has_data()] tells whether there is
    one. *)
Theorem dense_size_counts_elements (σ : State) (g : nat) (ds : list nat)
    (l : list T) :
  content σ g = Some (Dense ds l) ->
  GenTensor_size g σ = Done (Z.of_nat (length l)) σ /\
  GenTensor_has_data g σ = Done (negb (Z.of_nat (length l) =? 0)) σ.
Proof.
  intros (a & t & Hg & Ha & Hr & _)%content_Dense_inv.
  assert (Hs : Tensor_size t = Z.of_nat (length l)).
  { unfold Tensor_size, Tensor_read, t_dims in *. destruct (t_p t) as [b|].
    - rewrite (read_offsets_length _ _ _ _ Hr), length_offsets. reflexivity.
    - injection Hr as <-. reflexivity. }
  split.
  - unfold GenTensor_size.
    rewrite (bind_Done _ _ _ _ _ (get_ptr_Some _ _ _ Hg)).
    rewrite (bind_Done _ _ _ _ _ (load_Some _ _ _ Ha)). simpl.
    rewrite Hs. reflexivity.
  - rewrite (GenTensor_has_data_backend _ _ _ _ Hg Ha). simpl.
    rewrite Hs. reflexivity.
Qed.

Lemma readonly_Tensor_normf (t : Tensor) : readonly (Tensor_normf t).
Proof. intros σ. unfold Tensor_normf. destruct (Tensor_read σ t); reflexivity. Qed.

Lemma readonly_Tensor_trace_conj (t o : Tensor) :
  readonly (Tensor_trace_conj t o).
Proof.
  intros σ. unfold Tensor_trace_conj. destruct (conforms t o); [|reflexivity].
  destruct (Tensor_read σ t); [|reflexivity].
  destruct (Tensor_read σ o); reflexivity.
Qed.

Lemma readonly_SepRepTensor_what_am_i (o : SepRepTensor) :
  readonly (SepRepTensor_what_am_i o).
Proof.
  destruct o as [t|d]; simpl; [apply readonly_ret|].
  destruct (bool_decide _); [apply readonly_ret|].
  destruct (bool_decide _); [apply readonly_ret|apply readonly_fail].
Qed.

#[local] Hint Resolve readonly_Tensor_normf readonly_Tensor_trace_conj
  readonly_SepRepTensor_what_am_i readonly_bind : readonly.

Ltac readonly_tac :=
  repeat first
    [ solve [auto with readonly]
    | apply readonly_bind; [|intros ?]
    | match goal with
      | |- readonly (match ?x with _ => _ end) => destruct x
      | |- readonly (if ?x then _ else _) => destruct x
      end ].

(** X17: the queries of a handle only read the store: whether they return
    or fail, [has_data], [size], [type], [ndim], [rank], [dim], [normf],
    [trace_conj], [full_tensor] and [what_am_i] leave every handle, backend
    and buffer as it was. *)
Theorem queries_leave_the_store (g h : nat) (i : Z) (σ : State) :
  final (GenTensor_has_data g σ) = σ /\
  final (GenTensor_size g σ) = σ /\
  final (GenTensor_type g σ) = σ /\
  final (GenTensor_ndim g σ) = σ /\
  final (GenTensor_rank g σ) = σ /\
  final (GenTensor_dim g i σ) = σ /\
  final (GenTensor_normf g σ) = σ /\
  final (GenTensor_trace_conj g h σ) = σ /\
  final (GenTensor_full_tensor g σ) = σ /\
  final (GenTensor_what_am_i g σ) = σ.
Proof.
  assert (Hrank : readonly (GenTensor_rank g))
    by (unfold GenTensor_rank; readonly_tac).
  assert (Hdim : readonly (GenTensor_dim g i))
    by (unfold GenTensor_dim; readonly_tac).
  assert (Hnormf : readonly (GenTensor_normf g))
    by (unfold GenTensor_normf, SepRepTensor_normf; readonly_tac).
  assert (Htr : readonly (GenTensor_trace_conj g h))
    by (unfold GenTensor_trace_conj, SepRepTensor_trace_conj; readonly_tac).
  assert (Hw : readonly (GenTensor_what_am_i g))
    by (unfold GenTensor_what_am_i; readonly_tac).
  repeat split;
    [ apply readonly_GenTensor_has_data | apply readonly_GenTensor_size
    | apply readonly_GenTensor_type | apply readonly_GenTensor_ndim
    | apply Hrank | apply Hdim | apply Hnormf | apply Htr
    | apply readonly_GenTensor_full_tensor | apply Hw ].
Qed.

(** ** Empty handles *)

(** X18: of the operations of a handle, [scale] alone is guarded like the
    queries: on an empty handle [g] it returns and does nothing.  [rank],
    [dim], [normf], [reduceRank], [finalize_accumulate], [full_tensor],
    [reconstruct_tensor], [full_tensor_copy], [what_am_i], [g.update_by(r)],
    [g.accumulate_into(r,fac)], [g += r], [g.gaxpy(alpha,r,beta)],
    [g += r(s)] and [g(s1) += r(s2)] dereference the null pointer;
    [trace_conj] of two empty handles passes its kind check ([TT_NONE] on
    both sides) and then dereferences it; [g(s) += r] builds a vector of
    [ndim() = -1] slices and ends on the length error.  With [g] as the
    right operand of a handle [l] that has a backend, [l.update_by(g)],
    [l.gaxpy(alpha,g,beta)], [l.accumulate_into(g,fac)] and
    [l(s1) += g(s2)] dereference the null pointer.  None of these calls
    changes the store. *)
Theorem empty_handle_operations (σ : State) (g : nat) :
  handles σ !! g = Some None ->
  (forall x, GenTensor_scale g x σ = Done tt σ) /\
  GenTensor_rank g σ = Failed NullDereference σ /\
  (forall i, GenTensor_dim g i σ = Failed NullDereference σ) /\
  GenTensor_normf g σ = Failed NullDereference σ /\
  (forall eps, GenTensor_reduceRank g eps σ = Failed NullDereference σ) /\
  GenTensor_finalize_accumulate g σ = Failed NullDereference σ /\
  GenTensor_full_tensor g σ = Failed NullDereference σ /\
  GenTensor_reconstruct_tensor g σ = Failed NullDereference σ /\
  GenTensor_full_tensor_copy g σ = Failed NullDereference σ /\
  GenTensor_what_am_i g σ = Failed NullDereference σ /\
  (forall r, GenTensor_update_by g r σ = Failed NullDereference σ) /\
  (forall r fac, GenTensor_accumulate_into g r fac σ
                 = Failed NullDereference σ) /\
  (forall r, GenTensor_iadd g r σ = Failed NullDereference σ) /\
  (forall r alpha beta, GenTensor_gaxpy g alpha r beta σ
                        = Failed NullDereference σ) /\
  (forall r, GenTensor_iadd_slice g r σ = Failed NullDereference σ) /\
  (forall s r, SliceGenTensor_iadd_slice (GenTensor_slice g s) r σ
               = Failed NullDereference σ) /\
  (forall s r, SliceGenTensor_iadd (GenTensor_slice g s) r σ
               = Failed BadLength σ) /\
  (forall h, handles σ !! h = Some None ->
             GenTensor_trace_conj g h σ = Failed NullDereference σ) /\
  (forall l a o, handles σ !! l = Some (Some a) -> objects σ !! a = Some o ->
     GenTensor_update_by l g σ = Failed NullDereference σ /\
     (forall alpha beta,
        GenTensor_gaxpy l alpha g beta σ = Failed NullDereference σ) /\
     (forall fac,
        GenTensor_accumulate_into l g fac σ = Failed NullDereference σ) /\
     (forall s1 s2, SliceGenTensor_iadd_slice (GenTensor_slice l s1)
                      (GenTensor_slice g s2) σ = Failed NullDereference σ)).
Proof.
  intros Hg.
  pose proof (get_ptr_Some _ _ _ Hg) as Pg.
  repeat match goal with |- _ /\ _ => split end; intros;
    try (unfold GenTensor_scale, GenTensor_rank, GenTensor_dim,
           GenTensor_normf, GenTensor_reduceRank,
           GenTensor_finalize_accumulate, GenTensor_full_tensor,
           GenTensor_reconstruct_tensor, GenTensor_full_tensor_copy,
           GenTensor_what_am_i, GenTensor_update_by,
           GenTensor_accumulate_into, SliceGenTensor_iadd_slice,
           GenTensor_inplace_add, GenTensor_iadd, GenTensor_gaxpy,
           GenTensor_iadd_slice; simpl;
         rewrite (bind_Done _ _ _ _ _ Pg); reflexivity).
  - unfold SliceGenTensor_iadd. simpl.
    assert (Nd : GenTensor_ndim g σ = Done (-1) σ)
      by (unfold GenTensor_ndim; rewrite (bind_Done _ _ _ _ _ Pg);
          reflexivity).
    rewrite (bind_Done _ _ _ _ _ Nd). reflexivity.
  - assert (Tg : GenTensor_type g σ = Done TT_NONE σ)
      by (unfold GenTensor_type; rewrite (bind_Done _ _ _ _ _ Pg); reflexivity).
    assert (Th : GenTensor_type h σ = Done TT_NONE σ).
    { unfold GenTensor_type.
      rewrite (bind_Done _ _ _ _ _ (get_ptr_Some _ _ _ H)). reflexivity. }
    unfold GenTensor_trace_conj.
    rewrite (bind_Done _ _ _ _ _ Tg), (bind_Done _ _ _ _ _ Th).
    unfold bind, get_ptr. simpl. rewrite Hg. reflexivity.
  - pose proof (get_ptr_Some _ _ _ H) as Pl.
    pose proof (deref_Some _ _ _ H0) as Dl.
    pose proof (load_Some _ _ _ H0) as Ll.
    assert (Hast : forall o', assert_same_type o' None σ
                              = Failed NullDereference σ) by reflexivity.
    split; [|split; [|split]]; intros.
    + unfold GenTensor_update_by.
      rewrite (bind_Done _ _ _ _ _ Pl), (bind_Done _ _ _ _ _ Dl),
        (bind_Done _ _ _ _ _ Pg).
      unfold SepRepTensor_update_by. rewrite (bind_Done _ _ _ _ _ Ll).
      destruct o; rewrite (bind_Failed _ _ _ _ _ (Hast _)); reflexivity.
    + unfold GenTensor_gaxpy.
      rewrite (bind_Done _ _ _ _ _ Pl), (bind_Done _ _ _ _ _ Dl),
        (bind_Done _ _ _ _ _ Pg).
      unfold SepRepTensor_gaxpy. rewrite (bind_Done _ _ _ _ _ Ll).
      destruct o; rewrite (bind_Failed _ _ _ _ _ (Hast _)); reflexivity.
    + unfold GenTensor_accumulate_into.
      rewrite (bind_Done _ _ _ _ _ Pl), (bind_Done _ _ _ _ _ Dl),
        (bind_Done _ _ _ _ _ Pg).
      unfold SepRepTensor_accumulate_into. rewrite (bind_Done _ _ _ _ _ Ll).
      destruct o; [rewrite (bind_Failed _ _ _ _ _ (Hast _))|]; reflexivity.
    + unfold SliceGenTensor_iadd_slice, GenTensor_inplace_add. simpl.
      rewrite (bind_Done _ _ _ _ _ Pl), (bind_Done _ _ _ _ _ Dl),
        (bind_Done _ _ _ _ _ Pg).
      unfold SepRepTensor_inplace_add. rewrite (bind_Done _ _ _ _ _ Ll).
      destruct o; rewrite (bind_Failed _ _ _ _ _ (Hast _)); reflexivity.
Qed.

(** ** Arithmetic between dense handles *)

Lemma assert_same_type_same (σ : State) (o o2 : SepRepTensor) (b : nat) :
  objects σ !! b = Some o2 ->
  SepRepTensor_type o = SepRepTensor_type o2 ->
  assert_same_type o (Some b) σ = Done tt σ.
Proof.
  intros Hb Hk. unfold assert_same_type.
  rewrite (bind_Done _ _ _ _ _ (deref_Some _ _ _ Hb)).
  rewrite (bool_decide_eq_true_2 _ Hk). reflexivity.
Qed.

Lemma as_FullTensor_Some (σ : State) (b : nat) (t : Tensor) :
  objects σ !! b = Some (FullTensor t) ->
  as_FullTensor (Some b) σ = Done t σ.
Proof.
  intros Hb. unfold as_FullTensor.
  rewrite (bind_Done _ _ _ _ _ (deref_Some _ _ _ Hb)). reflexivity.
Qed.

Section Dense_pair.

Variables (σ : State) (ga gb a b : nat) (ta tb : Tensor).
Hypothesis Hga : handles σ !! ga = Some (Some a).
Hypothesis Ha : objects σ !! a = Some (FullTensor ta).
Hypothesis Hgb : handles σ !! gb = Some (Some b).
Hypothesis Hb : objects σ !! b = Some (FullTensor tb).

Lemma GenTensor_gaxpy_dense (alpha beta : Dbl) :
  GenTensor_gaxpy ga alpha gb beta σ = Tensor_gaxpy ta alpha tb beta σ.
Proof.
  unfold GenTensor_gaxpy.
  rewrite (bind_Done _ _ _ _ _ (get_ptr_Some _ _ _ Hga)).
  rewrite (bind_Done _ _ _ _ _ (deref_Some _ _ _ Ha)).
  rewrite (bind_Done _ _ _ _ _ (get_ptr_Some _ _ _ Hgb)).
  unfold SepRepTensor_gaxpy. rewrite (bind_Done _ _ _ _ _ (load_Some _ _ _ Ha)).
  rewrite (bind_Done _ _ _ _ _
             (assert_same_type_same σ (FullTensor ta) _ b Hb eq_refl)).
  rewrite (bind_Done _ _ _ _ _ (as_FullTensor_Some _ _ _ Hb)). reflexivity.
Qed.

Lemma GenTensor_accumulate_into_dense (fac : Dbl) :
  GenTensor_accumulate_into gb ga fac σ = Tensor_gaxpy ta dbl_one tb fac σ.
Proof.
  unfold GenTensor_accumulate_into.
  rewrite (bind_Done _ _ _ _ _ (get_ptr_Some _ _ _ Hgb)).
  rewrite (bind_Done _ _ _ _ _ (deref_Some _ _ _ Hb)).
  rewrite (bind_Done _ _ _ _ _ (get_ptr_Some _ _ _ Hga)).
  unfold SepRepTensor_accumulate_into.
  rewrite (bind_Done _ _ _ _ _ (load_Some _ _ _ Hb)).
  rewrite (bind_Done _ _ _ _ _
             (assert_same_type_same σ (FullTensor tb) _ a Ha eq_refl)).
  rewrite (bind_Done _ _ _ _ _ (as_FullTensor_Some _ _ _ Ha)). reflexivity.
Qed.

Lemma GenTensor_iadd_dense :
  GenTensor_iadd ga gb σ = Tensor_gaxpy ta dbl_one tb dbl_one σ.
Proof.
  unfold GenTensor_iadd.
  rewrite (bind_Done _ _ _ _ _ (get_ptr_Some _ _ _ Hga)).
  rewrite (bind_Done _ _ _ _ _ (deref_Some _ _ _ Ha)).
  rewrite (bind_Done _ _ _ _ _ (get_ptr_Some _ _ _ Hgb)).
  rewrite (bind_Done _ _ _ _ _ (deref_Some _ _ _ Hb)).
  simpl. unfold bind at 1. simpl. apply GenTensor_accumulate_into_dense.
Qed.

Lemma GenTensor_update_by_dense :
  GenTensor_update_by ga gb σ = Tensor_iadd ta tb σ.
Proof.
  unfold GenTensor_update_by.
  rewrite (bind_Done _ _ _ _ _ (get_ptr_Some _ _ _ Hga)).
  rewrite (bind_Done _ _ _ _ _ (deref_Some _ _ _ Ha)).
  rewrite (bind_Done _ _ _ _ _ (get_ptr_Some _ _ _ Hgb)).
  unfold SepRepTensor_update_by.
  rewrite (bind_Done _ _ _ _ _ (load_Some _ _ _ Ha)).
  rewrite (bind_Done _ _ _ _ _
             (assert_same_type_same σ (FullTensor ta) _ b Hb eq_refl)).
  rewrite (bind_Done _ _ _ _ _ (as_FullTensor_Some _ _ _ Hb)). reflexivity.
Qed.

End Dense_pair.

(** X19: between two dense handles, [a += b], [b.accumulate_into(a, 1.0)]
    and [a.gaxpy(1.0, b, 1.0)] are the same computation: the same result
    and the same store, whether they return or fail. *)
Theorem dense_iadd_is_gaxpy (σ : State) (ga gb a b : nat) (ta tb : Tensor) :
  handles σ !! ga = Some (Some a) ->
  objects σ !! a = Some (FullTensor ta) ->
  handles σ !! gb = Some (Some b) ->
  objects σ !! b = Some (FullTensor tb) ->
  GenTensor_iadd ga gb σ = GenTensor_gaxpy ga dbl_one gb dbl_one σ /\
  GenTensor_accumulate_into gb ga dbl_one σ
  = GenTensor_gaxpy ga dbl_one gb dbl_one σ.
Proof.
  intros Hga Ha Hgb Hb.
  rewrite (GenTensor_iadd_dense σ ga gb a b ta tb Hga Ha Hgb Hb).
  rewrite (GenTensor_gaxpy_dense σ ga gb a b ta tb Hga Ha Hgb Hb).
  rewrite (GenTensor_accumulate_into_dense σ ga gb a b ta tb Hga Ha Hgb Hb).
  split; reflexivity.
Qed.

(** The loop over two views on different buffers. *)
Lemma zip_inplace_read (f : T -> T -> T) (bt bo : nat) (lo : list T)
    (ps : list Z) :
  forall (qs : list Z) (B : gmap nat (list T)) (k l r : list T),
    bt <> bo -> NoDup ps -> B !! bt = Some k -> B !! bo = Some lo ->
    read_list k ps = Some l -> read_list lo qs = Some r ->
    length ps = length qs ->
    exists k', zip_inplace f B bt bo ps qs = Some (<[bt := k']> B) /\
               read_list k' ps = Some (zip_with f l r) /\
               (forall q, 0 <= q -> q ∉ ps ->
                          k' !! Z.to_nat q = k !! Z.to_nat q).
Proof.
  induction ps as [|p ps IH]; intros qs B k l r Hne Hnd HB HO Hl Hr Hlen.
  - destruct qs; [|discriminate]. injection Hl as <-.
    exists k. simpl. rewrite insert_id by exact HB. auto.
  - destruct qs as [|q qs]; [discriminate|]. injection Hlen as Hlen.
    apply NoDup_cons in Hnd as [Hp Hnd].
    apply read_list_cons in Hl as (x & l' & Hp0 & Hx & Hl & ->).
    apply read_list_cons in Hr as (y & r' & Hq0 & Hy & Hr & ->).
    assert (Hlt : (Z.to_nat p < length k)%nat) by (eapply lookup_lt_Some; eauto).
    set (k1 := <[Z.to_nat p := f x y]> k).
    destruct (IH qs (<[bt := k1]> B) k1 l' r' Hne Hnd)
      as (k' & Hm & Hr' & Hq); auto.
    { apply lookup_insert_eq. }
    { rewrite lookup_insert_ne by exact Hne. exact HO. }
    { unfold k1. rewrite read_list_insert_notin; auto. }
    exists k'. split; [|split].
    + simpl. unfold buf_get, buf_set. rewrite HB, HO.
      rewrite (proj2 (Z.leb_le _ _) Hp0), (proj2 (Z.leb_le _ _) Hq0).
      rewrite Hx, Hy.
      rewrite (proj2 (Z.ltb_lt _ _)) by lia. simpl. fold k1.
      rewrite Hm, insert_insert_eq. reflexivity.
    + unfold read_list in *. simpl.
      rewrite (proj2 (Z.leb_le _ _) Hp0).
      rewrite (Hq p Hp0 Hp). unfold k1.
      rewrite list_lookup_insert_eq by exact Hlt. simpl. rewrite Hr'.
      reflexivity.
    + intros q' Hq0' Hqn. apply not_elem_of_cons in Hqn as [Hne' Hqn].
      rewrite (Hq q' Hq0' Hqn). unfold k1. apply list_lookup_insert_ne. lia.
Qed.

(** The loop over one view taken twice is the loop over the view. *)
Lemma zip_inplace_self (f : T -> T -> T) (b : nat) (ps : list Z) :
  forall B : gmap nat (list T),
    zip_inplace f B b b ps ps = map_inplace (fun x => f x x) B b ps.
Proof.
  induction ps as [|p ps IH]; intros B; [reflexivity|]. simpl.
  destruct (buf_get B b p) as [x|]; [|reflexivity].
  destruct (buf_set B b p (f x x)) as [B'|]; [apply IH|reflexivity].
Qed.

Lemma Tensor_zip_read (f : T -> T -> T) (t o : Tensor) (σ : State)
    (bt bo : nat) (l r : list T) :
  t_p t = Some bt -> t_p o = Some bo -> bt <> bo ->
  t_dims t = t_dims o ->
  Tensor_read σ t = Some l -> Tensor_read σ o = Some r ->
  NoDup (Tensor_offsets t) ->
  exists σ', Tensor_zip f t o σ = Done tt σ' /\
    Tensor_read σ' t = Some (zip_with f l r) /\
    Tensor_read σ' o = Some r /\
    handles σ' = handles σ /\ objects σ' = objects σ.
Proof.
  intros Ht Ho Hne Hd Hl Hr Hnd.
  unfold Tensor_zip, conforms, Tensor_update, Tensor_read, Tensor_offsets in *.
  rewrite Ht, Ho in *. rewrite (bool_decide_eq_true_2 _ Hd). simpl.
  unfold read_offsets in Hl, Hr.
  destruct (buffers σ !! bt) as [k|] eqn:HB; [|discriminate].
  destruct (buffers σ !! bo) as [lo|] eqn:HO; [|discriminate].
  destruct (zip_inplace_read f bt bo lo _ _ _ k l r Hne Hnd HB HO Hl Hr)
    as (k' & Hm & Hr' & _).
  { rewrite !length_offsets. unfold t_dims in Hd. rewrite Hd. reflexivity. }
  rewrite Hm. eexists. split; [reflexivity|]. simpl.
  unfold read_offsets. rewrite lookup_insert_eq.
  rewrite lookup_insert_ne by exact Hne. rewrite HO. auto.
Qed.

Lemma Tensor_zip_self (f : T -> T -> T) (t : Tensor) (σ : State) (l : list T) :
  Tensor_read σ t = Some l -> NoDup (Tensor_offsets t) ->
  exists σ', Tensor_zip f t t σ = Done tt σ' /\
    Tensor_read σ' t = Some (map (fun x => f x x) l) /\
    handles σ' = handles σ /\ objects σ' = objects σ.
Proof.
  intros Hl Hnd.
  unfold Tensor_zip, conforms, Tensor_update, Tensor_read, Tensor_offsets in *.
  rewrite (bool_decide_eq_true_2 _ (eq_refl (t_dims t))).
  destruct (t_p t) as [b|]; simpl.
  - unfold read_offsets in Hl.
    destruct (buffers σ !! b) as [k|] eqn:HB; [|discriminate].
    rewrite zip_inplace_self.
    destruct (map_inplace_read (fun x => f x x) b _ _ k l Hnd HB Hl)
      as (k' & Hm & Hr' & _).
    rewrite Hm. eexists. split; [reflexivity|]. simpl.
    unfold read_offsets. rewrite lookup_insert_eq. auto.
  - injection Hl as <-. exists σ. auto.
Qed.

(** X20: [a.gaxpy(alpha, b, beta)] between two dense handles of the same
    dimensions, on different buffers, with [a] addressing each of its
    elements once: the call returns, [a] holds
    [a_i * alpha + b_i * beta] at every position and [b] holds what it
    held. *)
Theorem dense_gaxpy_elementwise (σ : State) (ga gb a b : nat) (ta tb : Tensor)
    (ba bb : nat) (l r : list T) (alpha beta : Dbl) :
  handles σ !! ga = Some (Some a) ->
  objects σ !! a = Some (FullTensor ta) ->
  handles σ !! gb = Some (Some b) ->
  objects σ !! b = Some (FullTensor tb) ->
  t_p ta = Some ba -> t_p tb = Some bb -> ba <> bb ->
  t_dims ta = t_dims tb ->
  Tensor_read σ ta = Some l -> Tensor_read σ tb = Some r ->
  NoDup (Tensor_offsets ta) ->
  exists σ', GenTensor_gaxpy ga alpha gb beta σ = Done tt σ' /\
    content σ' ga
    = Some (Dense (t_dims ta)
              (zip_with (fun x y => tadd (tmul x (of_double alpha))
                                         (tmul y (of_double beta))) l r)) /\
    content σ' gb = Some (Dense (t_dims tb) r).
Proof.
  intros Hga Ha Hgb Hb Hpa Hpb Hne Hd Hl Hr Hnd.
  rewrite (GenTensor_gaxpy_dense σ ga gb a b ta tb Hga Ha Hgb Hb).
  destruct (Tensor_zip_read
              (fun x y => tadd (tmul x (of_double alpha))
                               (tmul y (of_double beta)))
              ta tb σ ba bb l r Hpa Hpb Hne Hd Hl Hr Hnd)
    as (σ' & Hz & Hl' & Hr' & Hh & Ho).
  exists σ'. split; [exact Hz|].
  rewrite <- Hh in Hga, Hgb. rewrite <- Ho in Ha, Hb.
  rewrite (content_bound _ _ _ _ Hga Ha), (content_bound _ _ _ _ Hgb Hb).
  unfold object_content, Tensor_dims. rewrite Hl', Hr', Hpa, Hpb.
  split; reflexivity.
Qed.

(** X21: [a.update_by(b)] between two dense handles of the same dimensions,
    on different buffers, with [a] addressing each of its elements once:
    the call returns, [a] holds [a_i + b_i] at every position and [b] holds
    what it held. *)
Theorem dense_update_by_elementwise (σ : State) (ga gb a b : nat)
    (ta tb : Tensor) (ba bb : nat) (l r : list T) :
  handles σ !! ga = Some (Some a) ->
  objects σ !! a = Some (FullTensor ta) ->
  handles σ !! gb = Some (Some b) ->
  objects σ !! b = Some (FullTensor tb) ->
  t_p ta = Some ba -> t_p tb = Some bb -> ba <> bb ->
  t_dims ta = t_dims tb ->
  Tensor_read σ ta = Some l -> Tensor_read σ tb = Some r ->
  NoDup (Tensor_offsets ta) ->
  exists σ', GenTensor_update_by ga gb σ = Done tt σ' /\
    content σ' ga = Some (Dense (t_dims ta) (zip_with tadd l r)) /\
    content σ' gb = Some (Dense (t_dims tb) r).
Proof.
  intros Hga Ha Hgb Hb Hpa Hpb Hne Hd Hl Hr Hnd.
  rewrite (GenTensor_update_by_dense σ ga gb a b ta tb Hga Ha Hgb Hb).
  destruct (Tensor_zip_read tadd ta tb σ ba bb l r Hpa Hpb Hne Hd Hl Hr Hnd)
    as (σ' & Hz & Hl' & Hr' & Hh & Ho).
  exists σ'. split; [exact Hz|].
  rewrite <- Hh in Hga, Hgb. rewrite <- Ho in Ha, Hb.
  rewrite (content_bound _ _ _ _ Hga Ha), (content_bound _ _ _ _ Hgb Hb).
  unfold object_content, Tensor_dims. rewrite Hl', Hr', Hpa, Hpb.
  split; reflexivity.
Qed.

(** X22: a dense handle added to itself, or to a handle that shares its
    backend: [a.gaxpy(alpha, a', beta)] returns and every element [x] of
    the shared content becomes [x * alpha + x * beta]; both handles see
    it. *)
Theorem dense_gaxpy_with_itself (σ : State) (g g' a : nat) (t : Tensor)
    (l : list T) (alpha beta : Dbl) :
  handles σ !! g = Some (Some a) ->
  handles σ !! g' = Some (Some a) ->
  objects σ !! a = Some (FullTensor t) ->
  Tensor_read σ t = Some l ->
  NoDup (Tensor_offsets t) ->
  exists σ', GenTensor_gaxpy g alpha g' beta σ = Done tt σ' /\
    content σ' g
    = Some (Dense (Tensor_dims t)
              (map (fun x => tadd (tmul x (of_double alpha))
                                  (tmul x (of_double beta))) l)) /\
    content σ' g' = content σ' g.
Proof.
  intros Hg Hg' Ha Hl Hnd.
  rewrite (GenTensor_gaxpy_dense σ g g' a a t t Hg Ha Hg' Ha).
  destruct (Tensor_zip_self
              (fun x y => tadd (tmul x (of_double alpha))
                               (tmul y (of_double beta))) t σ l Hl Hnd)
    as (σ' & Hz & Hl' & Hh & Ho).
  exists σ'. split; [exact Hz|].
  rewrite <- Hh in Hg, Hg'. rewrite <- Ho in Ha.
  rewrite (content_bound _ _ _ _ Hg Ha), (content_bound _ _ _ _ Hg' Ha).
  unfold object_content. rewrite Hl'. split; reflexivity.
Qed.

(** ** Kinds that differ, beyond [+=], [gaxpy] and [trace_conj] *)

Lemma SepRepTensor_inplace_add_mismatch (σ : State) (a b : nat)
    (oa ob : SepRepTensor) (s1 s2 : list Slice) :
  objects σ !! a = Some oa -> objects σ !! b = Some ob ->
  SepRepTensor_type oa <> SepRepTensor_type ob ->
  SepRepTensor_inplace_add a (Some b) s1 s2 σ = Failed AssertTypeMismatch σ.
Proof.
  intros Ha Hb Hk. unfold SepRepTensor_inplace_add.
  rewrite (bind_Done _ _ _ _ _ (load_Some _ _ _ Ha)).
  destruct oa; erewrite bind_Failed; try reflexivity;
    eapply assert_same_type_mismatch; eassumption.
Qed.

(** X23: the additions through slices and [update_by] check the kinds like
    [+=] does: between two handles that have backends of different kinds,
    [a += b(s)], [a(s1) += b(s2)], [a(s) += b] (for [a] of non-negative
    [ndim()]) and [a.update_by(b)] fail with the kind-mismatch assertion
    and leave the store as it was. *)
Theorem slice_addition_kind_mismatch (σ : State) (ga gb a b : nat)
    (oa ob : SepRepTensor) :
  handles σ !! ga = Some (Some a) -> objects σ !! a = Some oa ->
  handles σ !! gb = Some (Some b) -> objects σ !! b = Some ob ->
  SepRepTensor_type oa <> SepRepTensor_type ob ->
  (forall s, GenTensor_iadd_slice ga (GenTensor_slice gb s) σ
             = Failed AssertTypeMismatch σ) /\
  (forall s1 s2, SliceGenTensor_iadd_slice (GenTensor_slice ga s1)
                   (GenTensor_slice gb s2) σ = Failed AssertTypeMismatch σ) /\
  (forall s, 0 <= SepRepTensor_ndim oa ->
             SliceGenTensor_iadd (GenTensor_slice ga s) gb σ
             = Failed AssertTypeMismatch σ) /\
  GenTensor_update_by ga gb σ = Failed AssertTypeMismatch σ.
Proof.
  intros Hga Ha Hgb Hb Hk.
  pose proof (get_ptr_Some _ _ _ Hga) as Pa.
  pose proof (get_ptr_Some _ _ _ Hgb) as Pb.
  pose proof (deref_Some _ _ _ Ha) as Da.
  pose proof (deref_Some _ _ _ Hb) as Db.
  assert (Hadd : forall s1 s2, GenTensor_inplace_add ga gb s1 s2 σ
                               = Failed AssertTypeMismatch σ).
  { intros s1 s2. unfold GenTensor_inplace_add.
    rewrite (bind_Done _ _ _ _ _ Pa), (bind_Done _ _ _ _ _ Da),
      (bind_Done _ _ _ _ _ Pb).
    eapply SepRepTensor_inplace_add_mismatch; eassumption. }
  split; [|split; [|split]].
  - intros s. unfold GenTensor_iadd_slice. simpl.
    rewrite (bind_Done _ _ _ _ _ Pa), (bind_Done _ _ _ _ _ Da),
      (bind_Done _ _ _ _ _ Pb), (bind_Done _ _ _ _ _ Db).
    rewrite (bool_decide_eq_false_2 _ Hk). reflexivity.
  - intros s1 s2. apply Hadd.
  - intros s Hn. unfold SliceGenTensor_iadd. simpl.
    assert (Nd : GenTensor_ndim ga σ = Done (SepRepTensor_ndim oa) σ).
    { unfold GenTensor_ndim. rewrite (bind_Done _ _ _ _ _ Pa).
      rewrite (bind_Done _ _ _ _ _ (load_Some _ _ _ Ha)). reflexivity. }
    rewrite (bind_Done _ _ _ _ _ Nd). unfold full_slices.
    rewrite (proj2 (Z.ltb_ge _ _) Hn). unfold bind at 1. simpl.
    apply Hadd.
  - unfold GenTensor_update_by.
    rewrite (bind_Done _ _ _ _ _ Pa), (bind_Done _ _ _ _ _ Da),
      (bind_Done _ _ _ _ _ Pb).
    unfold SepRepTensor_update_by.
    rewrite (bind_Done _ _ _ _ _ (load_Some _ _ _ Ha)).
    destruct oa; erewrite bind_Failed; try reflexivity;
      eapply assert_same_type_mismatch; eassumption.
Qed.

(** X24: [src.accumulate_into(tgt, fac)] checks the kinds only when [src]
    is dense.  A dense source with a target of another kind fails with the
    kind-mismatch assertion.  A low-rank source with a dense target fails on
    the cast of the target, not on an assertion.  A low-rank source with a
    low-rank target is handed to the separated representation whatever the
    two kinds are, and the target then holds what that returns.  The failed
    calls leave the store as it was. *)
Theorem accumulate_into_kind_check (σ : State) (gs gt s t : nat)
    (os ot : SepRepTensor) (fac : Dbl) :
  handles σ !! gs = Some (Some s) -> objects σ !! s = Some os ->
  handles σ !! gt = Some (Some t) -> objects σ !! t = Some ot ->
  (forall ts, os = FullTensor ts -> SepRepTensor_type ot <> TT_FULL ->
     GenTensor_accumulate_into gs gt fac σ = Failed AssertTypeMismatch σ) /\
  (forall d tt, os = LowRankTensor d -> ot = FullTensor tt ->
     GenTensor_accumulate_into gs gt fac σ = Failed NullDereference σ) /\
  (forall d d' d'', os = LowRankTensor d -> ot = LowRankTensor d' ->
     sr_accumulate_into d d' fac = Some d'' ->
     exists σ', GenTensor_accumulate_into gs gt fac σ = Done tt σ' /\
                content σ' gt = Some (Separated d'')).
Proof.
  intros Hgs Hs Hgt Ht.
  assert (Hacc : GenTensor_accumulate_into gs gt fac σ
                 = SepRepTensor_accumulate_into s (Some t) fac σ).
  { unfold GenTensor_accumulate_into.
    rewrite (bind_Done _ _ _ _ _ (get_ptr_Some _ _ _ Hgs)).
    rewrite (bind_Done _ _ _ _ _ (deref_Some _ _ _ Hs)).
    rewrite (bind_Done _ _ _ _ _ (get_ptr_Some _ _ _ Hgt)). reflexivity. }
  rewrite Hacc. unfold SepRepTensor_accumulate_into.
  rewrite (bind_Done _ _ _ _ _ (load_Some _ _ _ Hs)).
  split; [|split].
  - intros ts -> Hk. erewrite bind_Failed; [reflexivity|].
    eapply assert_same_type_mismatch; [exact Ht|]. simpl. congruence.
  - intros d tt -> ->. cbv beta iota.
    assert (Hc : as_LowRankTensor (Some t) σ = Failed NullDereference σ).
    { unfold as_LowRankTensor.
      rewrite (bind_Done _ _ _ _ _ (deref_Some _ _ _ Ht)). reflexivity. }
    rewrite (bind_Failed _ _ _ _ _ Hc). reflexivity.
  - intros d d' d'' -> -> Hp. cbv beta iota.
    assert (Hc : as_LowRankTensor (Some t) σ = Done (t, d') σ).
    { unfold as_LowRankTensor.
      rewrite (bind_Done _ _ _ _ _ (deref_Some _ _ _ Ht)). reflexivity. }
    rewrite (bind_Done _ _ _ _ _ Hc). rewrite Hp.
    unfold bind, lift, ret, store. rewrite Ht. eexists.
    split; [reflexivity|].
    unfold content. simpl. rewrite Hgt, lookup_insert_eq. reflexivity.
Qed.

(** ** The dense tensor behind a handle *)

(** X25: [full_tensor()] of a dense handle returns the tensor of the
    backend, on the backend's own buffer, and so does [full_tensor_copy()];
    neither changes the store.  What is then done through the handle shows
    in the tensor returned: after [scale(x)] it reads the scaled
    elements. *)
Theorem full_tensor_is_a_view (σ : State) (g a : nat) (t : Tensor)
    (l : list T) :
  handles σ !! g = Some (Some a) ->
  objects σ !! a = Some (FullTensor t) ->
  Tensor_read σ t = Some l ->
  NoDup (Tensor_offsets t) ->
  GenTensor_full_tensor g σ = Done t σ /\
  GenTensor_full_tensor_copy g σ = Done t σ /\
  forall x, exists σ', GenTensor_scale g x σ = Done tt σ' /\
    Tensor_read σ' t = Some (map (fun y => tmul y x) l).
Proof.
  intros Hg Ha Hl Hnd.
  assert (Hf : SepRepTensor_fullTensor a σ = Done t σ).
  { unfold SepRepTensor_fullTensor.
    rewrite (bind_Done _ _ _ _ _ (load_Some _ _ _ Ha)). reflexivity. }
  split; [|split].
  - unfold GenTensor_full_tensor.
    rewrite (bind_Done _ _ _ _ _ (get_ptr_Some _ _ _ Hg)).
    rewrite (bind_Done _ _ _ _ _ (deref_Some _ _ _ Ha)). exact Hf.
  - unfold GenTensor_full_tensor_copy.
    rewrite (bind_Done _ _ _ _ _ (get_ptr_Some _ _ _ Hg)).
    rewrite (bind_Done _ _ _ _ _ (deref_Some _ _ _ Ha)). exact Hf.
  - intros x.
    destruct (Tensor_scale_read t x σ l Hl Hnd) as (σ' & Hs & Hl' & _).
    exists σ'. split; [|exact Hl'].
    unfold GenTensor_scale.
    rewrite (bind_Done _ _ _ _ _ (get_ptr_Some _ _ _ Hg)).
    unfold SepRepTensor_scale.
    rewrite (bind_Done _ _ _ _ _ (load_Some _ _ _ Ha)). exact Hs.
Qed.

(** X26: each backend has one of the two accessors only.
    [reconstruct_tensor()] on a dense handle fails with the assertion of
    the base class, and [full_tensor()] on a low-rank handle throws; the
    store is left as it was. *)
Theorem accessor_of_the_other_backend (σ : State) (g a : nat)
    (o : SepRepTensor) :
  handles σ !! g = Some (Some a) -> objects σ !! a = Some o ->
  match o with
  | FullTensor _ =>
      GenTensor_reconstruct_tensor g σ = Failed AssertZero σ
  | LowRankTensor _ =>
      GenTensor_full_tensor g σ
      = Failed (MadnessException
                  "No fullTensor in LowRankTensor; reconstruct first") σ
  end.
Proof.
  intros Hg Ha. destruct o as [t|d].
  - unfold GenTensor_reconstruct_tensor.
    rewrite (bind_Done _ _ _ _ _ (get_ptr_Some _ _ _ Hg)).
    rewrite (bind_Done _ _ _ _ _ (deref_Some _ _ _ Ha)).
    unfold SepRepTensor_reconstructTensor.
    rewrite (bind_Done _ _ _ _ _ (load_Some _ _ _ Ha)). reflexivity.
  - unfold GenTensor_full_tensor.
    rewrite (bind_Done _ _ _ _ _ (get_ptr_Some _ _ _ Hg)).
    rewrite (bind_Done _ _ _ _ _ (deref_Some _ _ _ Ha)).
    unfold SepRepTensor_fullTensor.
    rewrite (bind_Done _ _ _ _ _ (load_Some _ _ _ Ha)). reflexivity.
Qed.

(** X27: [full_tensor_copy()] on a valid low-rank handle of kind [TT_2D] or
    [TT_3D] returns a tensor on a buffer that did not exist, which reads
    the reconstruction; the handle and everything else in the store keep
    what they held.  On a low-rank handle of kind [TT_NONE] it returns the
    default tensor and leaves the store as it was. *)
Theorem full_tensor_copy_reconstructs (σ : State) (g a : nat) (d : SR) :
  handles σ !! g = Some (Some a) ->
  objects σ !! a = Some (LowRankTensor d) ->
  (forall ds l,
     sr_tensor_type d = TT_2D \/ sr_tensor_type d = TT_3D ->
     sr_is_valid d = true ->
     sr_reconstructTensor d = Some (ds, l) -> length l = product ds ->
     exists t σ', GenTensor_full_tensor_copy g σ = Done t σ' /\
       Tensor_read σ' t = Some l /\ Tensor_dims t = ds /\
       (forall b, t_p t = Some b -> buffers σ !! b = None) /\
       handles σ' = handles σ /\ objects σ' = objects σ /\
       content σ' g = Some (Separated d)) /\
  (sr_tensor_type d = TT_NONE ->
   GenTensor_full_tensor_copy g σ = Done Tensor_default σ).
Proof.
  intros Hg Ha.
  assert (Hu : GenTensor_full_tensor_copy g σ
               = match sr_tensor_type d with
                 | TT_FULL => SepRepTensor_fullTensor a
                 | TT_NONE => ret Tensor_default
                 | TT_3D | TT_2D => SepRepTensor_reconstructTensor a
                 end σ).
  { unfold GenTensor_full_tensor_copy.
    rewrite (bind_Done _ _ _ _ _ (get_ptr_Some _ _ _ Hg)).
    rewrite (bind_Done _ _ _ _ _ (deref_Some _ _ _ Ha)). reflexivity. }
  rewrite Hu. split.
  - intros ds l Hk Hv Hrec Hlen.
    assert (Hr : SepRepTensor_reconstructTensor a σ = Tensor_of_elements ds l σ).
    { unfold SepRepTensor_reconstructTensor.
      rewrite (bind_Done _ _ _ _ _ (load_Some _ _ _ Ha)).
      rewrite Hv, Hrec. reflexivity. }
    assert (Hm : match sr_tensor_type d with
                 | TT_FULL => SepRepTensor_fullTensor a
                 | TT_NONE => ret Tensor_default
                 | TT_3D | TT_2D => SepRepTensor_reconstructTensor a
                 end σ = Tensor_of_elements ds l σ)
      by (destruct Hk as [-> | ->]; exact Hr).
    rewrite Hm.
    destruct (Tensor_of_elements ds l σ) as [t σ'|] eqn:Et; [|discriminate].
    exists t, σ'. split; [reflexivity|].
    apply Tensor_of_elements_Done in Et as (b & -> & Hb & HB & Hh & Ho).
    split; [apply Tensor_read_new; [rewrite HB; apply lookup_insert_eq|exact Hlen]|].
    split; [unfold Tensor_dims, t_dims; simpl; apply map_fst_contiguous|].
    split; [intros b' [= <-]; exact Hb|].
    split; [exact Hh|]. split; [exact Ho|].
    rewrite <- Hh in Hg. rewrite <- Ho in Ha.
    rewrite (content_bound _ _ _ _ Hg Ha). reflexivity.
  - intros ->. reflexivity.
Qed.

(** X28: [what_am_i()] names the kind [type()] reports: when it returns,
    the store is unchanged and the name is [FullRank] on a handle of kind
    [TT_FULL], [LowRank-2D] on one of kind [TT_2D] and [LowRank-3D] on one
    of kind [TT_3D]; it returns on no other handle. *)
Theorem what_am_i_names_the_kind (σ σ' : State) (g : nat) (s : string) :
  GenTensor_what_am_i g σ = Done s σ' ->
  σ' = σ /\
  ((s = "FullRank"%string /\ kind σ g = Some TT_FULL) \/
   (s = "LowRank-2D"%string /\ kind σ g = Some TT_2D) \/
   (s = "LowRank-3D"%string /\ kind σ g = Some TT_3D)).
Proof.
  unfold GenTensor_what_am_i, kind, GenTensor_type, bind, get_ptr, deref,
    load, ret, fail.
  destruct (handles σ !! g) as [[a|]|]; try discriminate.
  unfold bind, load, ret.
  destruct (objects σ !! a) as [[t|d]|]; try discriminate; simpl.
  - intros [= <- <-]. auto.
  - destruct (bool_decide (sr_tensor_type d = TT_2D)) eqn:E2.
    + apply bool_decide_eq_true_1 in E2. intros [= <- <-]. rewrite E2. auto.
    + destruct (bool_decide (sr_tensor_type d = TT_3D)) eqn:E3;
        [|discriminate].
      apply bool_decide_eq_true_1 in E3. intros [= <- <-]. rewrite E3. auto.
Qed.

(** X29: on a dense handle [rank()] is -1, and [reduceRank(eps)] and
    [finalize_accumulate()] return without touching the store. *)
Theorem dense_has_no_rank (σ : State) (g a : nat) (t : Tensor) :
  handles σ !! g = Some (Some a) ->
  objects σ !! a = Some (FullTensor t) ->
  GenTensor_rank g σ = Done (-1) σ /\
  (forall eps, GenTensor_reduceRank g eps σ = Done tt σ) /\
  GenTensor_finalize_accumulate g σ = Done tt σ.
Proof.
  intros Hg Ha.
  pose proof (get_ptr_Some _ _ _ Hg) as Pg.
  pose proof (deref_Some _ _ _ Ha) as Da.
  pose proof (load_Some _ _ _ Ha) as La.
  split; [|split]; intros;
    unfold GenTensor_rank, GenTensor_reduceRank,
      GenTensor_finalize_accumulate;
    rewrite (bind_Done _ _ _ _ _ Pg), (bind_Done _ _ _ _ _ Da);
    [ reflexivity
    | unfold SepRepTensor_reduceRank; rewrite (bind_Done _ _ _ _ _ La);
      reflexivity
    | unfold SepRepTensor_finalize_accumulate;
      rewrite (bind_Done _ _ _ _ _ La); reflexivity ].
Qed.

End Operations.

(** * The statements on concrete stores *)

Import Reference.

Local Open Scope prog_scope.

(** Handles 0 (dense) and 1 (low-rank, [TT_3D]) of [σ_mixed] differ in
    kind. *)
Lemma kind_mismatch_fails_fast_witness :
  (kind σ_mixed 0 = Some TT_FULL /\ kind σ_mixed 1 = Some TT_3D /\
   TT_FULL <> TT_3D) /\
  (GenTensor_trace_conj 0 1 σ_mixed = Failed AssertTypeMismatch σ_mixed /\
   (is_Some (backend_of σ_mixed 0) -> is_Some (backend_of σ_mixed 1) ->
    GenTensor_iadd 0 1 σ_mixed = Failed AssertTypeMismatch σ_mixed /\
    forall alpha beta : Z,
      GenTensor_gaxpy 0 alpha 1 beta σ_mixed = Failed AssertTypeMismatch σ_mixed)).
Proof.
  split.
  - split; [reflexivity|]. split; [reflexivity|discriminate].
  - apply (kind_mismatch_fails_fast σ_mixed 0 1 TT_FULL TT_3D);
      [reflexivity|reflexivity|discriminate].
Defined.

(** C1 (counterexample): handle 2 of [σ_mixed] is empty, of kind [TT_NONE];
    handle 0 is dense, of kind [TT_FULL].  The kinds differ, and [2 += 0]
    and [2.gaxpy(1, 0, 1)] dereference the null pointer of handle 2: they
    do not end with the kind-mismatch assertion. *)
Lemma kind_mismatch_empty_operand :
  kind σ_mixed 2 = Some TT_NONE /\ kind σ_mixed 0 = Some TT_FULL /\
  TT_NONE <> TT_FULL /\
  GenTensor_iadd 2 0 σ_mixed = Failed NullDereference σ_mixed /\
  GenTensor_iadd 2 0 σ_mixed <> Failed AssertTypeMismatch σ_mixed /\
  GenTensor_gaxpy 2 1 0 1 σ_mixed = Failed NullDereference σ_mixed /\
  GenTensor_gaxpy 2 1 0 1 σ_mixed <> Failed AssertTypeMismatch σ_mixed.
Proof.
  repeat split; try reflexivity; discriminate.
Qed.

(** The shallow assignment [2 = 0] in [σ_mixed]: handle 0 points to the
    backend 0, handle 2 is empty. *)
Lemma shallow_copy_aliases_witness :
  (handles σ_mixed !! 0%nat = Some (Some 0%nat) /\
   handles σ_mixed !! 2%nat = Some None) /\
  exists h2 σ1,
    shallow (Assign 2 0) σ_mixed = Done h2 σ1 /\
    h2 = 2%nat /\
    handles σ1 !! h2 = Some (Some 0%nat) /\
    handles σ1 !! 0%nat = Some (Some 0%nat) /\
    (forall g q, g <> h2 -> handles σ_mixed !! g = Some q ->
                 handles σ1 !! g = Some q) /\
    content σ1 0 = content σ_mixed 0 /\
    content σ1 h2 = content σ_mixed 0 /\
    aliased σ1 0 h2.
Proof.
  split; [split; reflexivity|].
  refine (shallow_copy_aliases (Assign 2 0) σ_mixed (Some 0%nat) _ _);
    [reflexivity|eexists; reflexivity].
Defined.

(** The deep copy [copy(0)] in [σ_mixed]. *)
Lemma deep_construction_independent_at_copy :
  construct (Copy 0) σ_mixed = Done 3%nat (final (construct (Copy 0) σ_mixed)) /\
  content (final (construct (Copy 0) σ_mixed)) 3 = source_data (Copy 0) σ_mixed /\
  independent σ_mixed (final (construct (Copy 0) σ_mixed)) 3.
Proof.
  split; [reflexivity|].
  apply (deep_construction_independent (Copy 0) σ_mixed _ 3). reflexivity.
Defined.

(** [to_full_rank] on the [TT_2D] handle of [σ_2D]. *)
Lemma to_full_rank_2D_throws_witness :
  (handles σ_2D !! 0%nat = Some (Some 0%nat) /\
   objects σ_2D !! 0%nat = Some (LowRankTensor d_2D) /\
   sr_is_valid d_2D = true /\ sr_tensor_type d_2D = TT_2D) /\
  to_full_rank 0 σ_2D
  = Failed (RuntimeError "unknown TensorType in to_full_tensor") σ_2D.
Proof.
  split; [repeat split; reflexivity|].
  apply (to_full_rank_2D_throws σ_2D 0 0 d_2D); reflexivity.
Defined.

(** [to_low_rank] to the kind [TT_2D] on the [TT_2D] handle of [σ_2D]. *)
Lemma to_low_rank_2D_throws_witness :
  (handles σ_2D !! 0%nat = Some (Some 0%nat) /\
   objects σ_2D !! 0%nat = Some (LowRankTensor d_2D) /\
   sr_is_valid d_2D = true /\ sr_tensor_type d_2D = TT_2D) /\
  to_low_rank 0 1 TT_2D σ_2D
  = Failed (RuntimeError "unknown TensorType in to_full_tensor") σ_2D.
Proof.
  split; [repeat split; reflexivity|].
  apply (to_low_rank_2D_throws σ_2D 0 0 d_2D 1 TT_2D); reflexivity.
Defined.

(** [0 * 3] in [σ_mixed], the scalar being of the element type. *)
Lemma scalar_multiplication_witness :
  content σ_mixed 0 = Some (Dense [2%nat] [1; 2]) /\
  exists r σ', GenTensor_mul (Q := bool) 0 (inl 3) σ_mixed = Done r σ' /\
    content σ_mixed r = None /\
    content σ' r = Some (scaled 3 (copied (Dense [2%nat] [1; 2]))) /\
    content σ' 0 = Some (Dense [2%nat] [1; 2]).
Proof.
  split; [reflexivity|].
  apply (proj2 (scalar_multiplication (Q := bool) 0 σ_mixed) 3). reflexivity.
Defined.

(** The queries on the empty handle 2 of [σ_mixed]. *)
Lemma empty_handle_queries_witness :
  handles σ_mixed !! 2%nat = Some None /\
  GenTensor_has_data 2 σ_mixed = Done false σ_mixed /\
  GenTensor_size 2 σ_mixed = Done 0 σ_mixed /\
  GenTensor_type 2 σ_mixed = Done TT_NONE σ_mixed /\
  GenTensor_ndim 2 σ_mixed = Done (-1) σ_mixed.
Proof.
  split; [reflexivity|]. apply (empty_handle_queries σ_mixed 2). reflexivity.
Defined.

(** ** Assigning a handle a slice of itself *)

(** C3 (the failing input): on the dense vector (1, 2, 3, 4) behind handle
    0, the deep assignment [g = g(Slice(0,1))] does not return.  The
    assignment clears [g] and then reads [g] as its source: it dereferences
    the null pointer, and [g] is left empty, holding neither the copy of
    the slice nor the data it had.  The construction [GenTensor(g(s))] from
    the same slice, which assigns to a new handle, returns a handle on the
    copy (1, 2) and leaves [g] with its data. *)
Theorem self_slice_assignment_loses_data :
  let s := [mkSlice 0 1 1] in
  content σ_vec 0 = Some (Dense [4%nat] [1; 2; 3; 4]) /\
  slice_data σ_vec (GenTensor_slice 0 s) = Some (Dense [2%nat] [1; 2]) /\
  (let r := construct (AssignSlice 0 (GenTensor_slice 0 s)) σ_vec in
   r = Failed NullDereference (final r) /\
   content (final r) 0 = Some NoBackend) /\
  (let r := construct (FromSlice (GenTensor_slice 0 s)) σ_vec in
   r = Done 1%nat (final r) /\
   content (final r) 1 = Some (Dense [2%nat] [1; 2]) /\
   content (final r) 0 = Some (Dense [4%nat] [1; 2; 3; 4])).
Proof. repeat split; vm_compute; reflexivity. Qed.

(** ** Zeroing a slice *)

(** C6 (the failing input): on the dense vector (1, 2, 3, 4), the
    assignment [g(Slice(2,3)) = 0.0] does not return: the negated copy of
    the slice has two elements and is sliced again by [Slice(2,3)], which
    the dense array refuses.  The vector is left as it was; elements 2 and 3
    are not set to zero. *)
Theorem slice_zero_off_origin_fails :
  let r := SliceGenTensor_assign_number (GenTensor_slice 0 [mkSlice 2 3 1]) 0 σ_vec in
  r = Failed PrimitiveFailure (final r) /\
  content (final r) 0 = Some (Dense [4%nat] [1; 2; 3; 4]).
Proof. split; vm_compute; reflexivity. Qed.

(** A slice that starts at the origin selects the whole of its own copy,
    and is zeroed. *)
Lemma slice_zero_at_origin :
  let r := SliceGenTensor_assign_number (GenTensor_slice 0 [mkSlice 0 1 1]) 0 σ_vec in
  r = Done tt (final r) /\
  content (final r) 0 = Some (Dense [4%nat] [0; 0; 3; 4]).
Proof. split; vm_compute; reflexivity. Qed.

(** The same subtraction through [operator+=] of the slice proxy, which
    takes the whole of its right-hand side, zeroes the slice (2,3). *)
Lemma slice_zero_by_iadd :
  let s := [mkSlice 2 3 1] in
  let r := (let* tmp := GenTensor_of_slice (GenTensor_slice 0 s) in
            GenTensor_scale tmp (-1) ;;;
            SliceGenTensor_iadd (GenTensor_slice 0 s) tmp) σ_vec in
  r = Done tt (final r) /\
  content (final r) 0 = Some (Dense [4%nat] [1; 2; 0; 0]).
Proof. split; vm_compute; reflexivity. Qed.

(** ** The conversions on concrete stores *)

Lemma to_full_rank_dense_witness : to_full_rank 0 σ_mixed = Done tt σ_mixed.
Proof.
  apply (to_full_rank_dense σ_mixed 0 0 (mkTensor (Some 0%nat) 0 [(2%nat, 1)]));
    [reflexivity|reflexivity|vm_compute; discriminate].
Defined.

Lemma to_full_rank_no_data_witness :
  GenTensor_has_data 2 σ_mixed = Done false σ_mixed /\
  exists σ', to_full_rank 2 σ_mixed = Done tt σ' /\
             content σ' 2 = Some (Dense [] []).
Proof.
  split; [reflexivity|]. apply (to_full_rank_no_data σ_mixed 2). reflexivity.
Defined.

Lemma to_low_rank_no_data_witness :
  GenTensor_has_data 2 σ_mixed = Done false σ_mixed /\
  exists σ', to_low_rank 2 1 TT_2D σ_mixed = Done tt σ' /\
             content σ' 2 = Some (empty_content TT_2D).
Proof.
  split; [reflexivity|].
  apply (to_low_rank_no_data σ_mixed 2 1 TT_2D). reflexivity.
Defined.

Lemma to_low_rank_3D_witness :
  kind σ_mixed 1 = Some TT_3D /\
  to_low_rank 1 1 TT_2D σ_mixed = Done tt σ_mixed.
Proof.
  split; [reflexivity|].
  apply (to_low_rank_3D σ_mixed 1 1 (mkExactSR TT_3D (Some [2%nat]) [5; 6])
           1 TT_2D); reflexivity.
Defined.

Lemma conversion_rebinds_only_its_argument_witness :
  let σ' := final (to_full_rank 1 σ_mixed) in
  (forall h p, h <> 1%nat -> handles σ_mixed !! h = Some p ->
               handles σ' !! h = Some p) /\
  (forall h c, h <> 1%nat -> content σ_mixed h = Some c ->
               content σ' h = Some c).
Proof.
  apply (conversion_rebinds_only_its_argument 1 1 TT_3D σ_mixed).
  left. reflexivity.
Defined.

Lemma to_full_rank_reconstructs_witness :
  exists σ', to_full_rank 1 σ_mixed = Done tt σ' /\
             content σ' 1 = Some (Dense [2%nat] [5; 6]) /\
             (forall h c, h <> 1%nat -> content σ_mixed h = Some c ->
                          content σ' h = Some c).
Proof.
  apply (to_full_rank_reconstructs σ_mixed 1 1
           (mkExactSR TT_3D (Some [2%nat]) [5; 6])); reflexivity.
Defined.

Lemma to_low_rank_factorises_witness :
  exists σ', to_low_rank 0 1 TT_3D σ_mixed = Done tt σ' /\
    content σ' 0 = Some (Separated (mkExactSR TT_3D (Some [2%nat]) [1; 2])) /\
    (forall h c, h <> 0%nat -> content σ_mixed h = Some c ->
                 content σ' h = Some c).
Proof.
  apply (to_low_rank_factorises σ_mixed 0 0
           (mkTensor (Some 0%nat) 0 [(2%nat, 1)]) [1; 2]);
    [reflexivity|reflexivity|vm_compute; discriminate|reflexivity
    |right; reflexivity|reflexivity|reflexivity].
Defined.

Lemma to_low_rank_checks_accuracy_witness :
  dbl_pos (0 : Z) = false /\
  to_low_rank 0 0 TT_3D σ_mixed = Failed AssertThreshPositive σ_mixed.
Proof.
  split; [reflexivity|].
  apply (to_low_rank_checks_accuracy σ_mixed 0 0
           (mkTensor (Some 0%nat) 0 [(2%nat, 1)]));
    [reflexivity|reflexivity|vm_compute; discriminate|right; reflexivity
    |reflexivity].
Defined.

Lemma to_low_rank_none_drops_data_witness :
  content σ_mixed 0 = Some (Dense [2%nat] [1; 2]) /\
  exists σ', to_low_rank 0 1 TT_NONE σ_mixed = Done tt σ' /\
             handles σ' !! 0%nat = Some None /\
             content σ' 0 = Some NoBackend /\
             GenTensor_has_data 0 σ' = Done false σ'.
Proof.
  split; [reflexivity|].
  apply (to_low_rank_none_drops_data σ_mixed 0 0
           (mkTensor (Some 0%nat) 0 [(2%nat, 1)]));
    [reflexivity|reflexivity|vm_compute; discriminate].
Defined.

(** ** Construction and assignment on concrete stores *)

Lemma assign_slice_clears_first_witness :
  let σ' := mkState (<[0%nat := None]> (handles σ_vec)) (objects σ_vec)
                    (buffers σ_vec) in
  GenTensor_assign_slice 0 (GenTensor_slice 0 [Slice_all]) σ_vec
  = Failed NullDereference σ' /\
  content σ' 0 = Some NoBackend.
Proof.
  apply (assign_slice_clears_first σ_vec 0 (GenTensor_slice 0 [Slice_all])
           (Some 0%nat)); [reflexivity|left; reflexivity].
Defined.


(** ** Queries on concrete stores *)

Lemma no_data_size_zero_witness :
  GenTensor_has_data 2 σ_mixed = Done false σ_mixed /\
  GenTensor_size 2 σ_mixed = Done 0 σ_mixed.
Proof.
  split; [reflexivity|]. apply (no_data_size_zero σ_mixed 2). reflexivity.
Defined.

Lemma dense_size_counts_elements_witness :
  GenTensor_size 0 σ_vec = Done 4 σ_vec /\
  GenTensor_has_data 0 σ_vec = Done true σ_vec.
Proof.
  apply (dense_size_counts_elements σ_vec 0 [4%nat] [1; 2; 3; 4]).
  reflexivity.
Defined.

Lemma empty_handle_operations_witness :
  handles σ_mixed !! 2%nat = Some None /\
  (forall x : Z, GenTensor_scale 2 x σ_mixed = Done tt σ_mixed) /\
  GenTensor_rank 2 σ_mixed = Failed NullDereference σ_mixed /\
  (forall s r, SliceGenTensor_iadd (GenTensor_slice 2 s) r σ_mixed
               = Failed BadLength σ_mixed).
Proof.
  split; [reflexivity|].
  pose proof (empty_handle_operations σ_mixed 2 eq_refl) as H.
  split; [apply H|]. split; [apply H|]. apply H.
Defined.

(** ** Dense arithmetic on concrete stores *)

Lemma dense_iadd_is_gaxpy_witness :
  GenTensor_iadd 0 1 σ_pair = GenTensor_gaxpy 0 dbl_one 1 dbl_one σ_pair /\
  GenTensor_accumulate_into 1 0 dbl_one σ_pair
  = GenTensor_gaxpy 0 dbl_one 1 dbl_one σ_pair.
Proof.
  apply (dense_iadd_is_gaxpy σ_pair 0 1 0 1 t_left t_right); reflexivity.
Defined.

Lemma NoDup_offsets_left : NoDup (Tensor_offsets t_left).
Proof. apply (bool_decide_unpack _). vm_compute. exact I. Defined.

Lemma dense_gaxpy_elementwise_witness :
  exists σ', GenTensor_gaxpy 0 2 1 3 σ_pair = Done tt σ' /\
    content σ' 0 = Some (Dense [2%nat] [32; 64]) /\
    content σ' 1 = Some (Dense [2%nat] [10; 20]).
Proof.
  refine (dense_gaxpy_elementwise σ_pair 0 1 0 1 t_left t_right 0 1
            [1; 2] [10; 20] 2 3 _ _ _ _ _ _ _ _ _ _ _);
    try reflexivity; [discriminate|exact NoDup_offsets_left].
Defined.

Lemma dense_update_by_elementwise_witness :
  exists σ', GenTensor_update_by 0 1 σ_pair = Done tt σ' /\
    content σ' 0 = Some (Dense [2%nat] [11; 22]) /\
    content σ' 1 = Some (Dense [2%nat] [10; 20]).
Proof.
  refine (dense_update_by_elementwise σ_pair 0 1 0 1 t_left t_right 0 1
            [1; 2] [10; 20] _ _ _ _ _ _ _ _ _ _ _);
    try reflexivity; [discriminate|exact NoDup_offsets_left].
Defined.

Lemma dense_gaxpy_with_itself_witness :
  exists σ', GenTensor_gaxpy 0 2 2 3 σ_pair = Done tt σ' /\
    content σ' 0 = Some (Dense [2%nat] [5; 10]) /\
    content σ' 2 = content σ' 0.
Proof.
  refine (dense_gaxpy_with_itself σ_pair 0 2 0 t_left [1; 2] 2 3 _ _ _ _ _);
    try reflexivity. exact NoDup_offsets_left.
Defined.

Lemma slice_addition_kind_mismatch_witness :
  (forall s, GenTensor_iadd_slice 0 (GenTensor_slice 1 s) σ_mixed
             = Failed AssertTypeMismatch σ_mixed) /\
  (forall s1 s2, SliceGenTensor_iadd_slice (GenTensor_slice 0 s1)
                   (GenTensor_slice 1 s2) σ_mixed
                 = Failed AssertTypeMismatch σ_mixed) /\
  (forall s, 0 <= 1 ->
             SliceGenTensor_iadd (GenTensor_slice 0 s) 1 σ_mixed
             = Failed AssertTypeMismatch σ_mixed) /\
  GenTensor_update_by 0 1 σ_mixed = Failed AssertTypeMismatch σ_mixed.
Proof.
  apply (slice_addition_kind_mismatch σ_mixed 0 1 0 1
           (FullTensor (mkTensor (Some 0%nat) 0 [(2%nat, 1)]))
           (LowRankTensor (mkExactSR TT_3D (Some [2%nat]) [5; 6])));
    try reflexivity. discriminate.
Defined.

Lemma accumulate_into_kind_check_witness :
  GenTensor_accumulate_into 0 1 1 σ_mixed = Failed AssertTypeMismatch σ_mixed /\
  GenTensor_accumulate_into 1 0 1 σ_mixed = Failed NullDereference σ_mixed /\
  exists σ', GenTensor_accumulate_into 0 1 1 σ_low = Done tt σ' /\
    content σ' 1
    = Some (Separated (mkExactSR TT_2D (Some [2%nat]) [12; 14])).
Proof.
  split; [|split].
  - apply (proj1 (accumulate_into_kind_check σ_mixed 0 1 0 1 _ _ 1
                    eq_refl eq_refl eq_refl eq_refl) _ eq_refl).
    discriminate.
  - apply (proj1 (proj2 (accumulate_into_kind_check σ_mixed 1 0 1 0 _ _ 1
                           eq_refl eq_refl eq_refl eq_refl)) _ _ eq_refl eq_refl).
  - apply (proj2 (proj2 (accumulate_into_kind_check σ_low 0 1 0 1 _ _ 1
                           eq_refl eq_refl eq_refl eq_refl))
             d_3D d_2D_vec _ eq_refl eq_refl).
    reflexivity.
Defined.

(** ** The dense tensor behind a handle, on concrete stores *)

Lemma full_tensor_is_a_view_witness :
  GenTensor_full_tensor 0 σ_pair = Done t_left σ_pair /\
  GenTensor_full_tensor_copy 0 σ_pair = Done t_left σ_pair /\
  forall x : Z, exists σ', GenTensor_scale 0 x σ_pair = Done tt σ' /\
    Tensor_read σ' t_left = Some (map (fun y => tmul y x) [1; 2]).
Proof.
  apply (full_tensor_is_a_view σ_pair 0 0 t_left [1; 2]);
    try reflexivity. exact NoDup_offsets_left.
Defined.

Lemma accessor_of_the_other_backend_witness :
  GenTensor_reconstruct_tensor 0 σ_mixed = Failed AssertZero σ_mixed /\
  GenTensor_full_tensor 1 σ_mixed
  = Failed (MadnessException
              "No fullTensor in LowRankTensor; reconstruct first") σ_mixed.
Proof.
  split.
  - exact (accessor_of_the_other_backend σ_mixed 0 0
             (FullTensor (mkTensor (Some 0%nat) 0 [(2%nat, 1)]))
             eq_refl eq_refl).
  - exact (accessor_of_the_other_backend σ_mixed 1 1
             (LowRankTensor (mkExactSR TT_3D (Some [2%nat]) [5; 6]))
             eq_refl eq_refl).
Defined.

Lemma full_tensor_copy_reconstructs_witness :
  exists t σ', GenTensor_full_tensor_copy 0 σ_2D = Done t σ' /\
    Tensor_read σ' t = Some [1; 2; 3; 4] /\
    Tensor_dims t = [2%nat; 2%nat] /\
    (forall b, t_p t = Some b -> buffers σ_2D !! b = None) /\
    handles σ' = handles σ_2D /\ objects σ' = objects σ_2D /\
    content σ' 0 = Some (Separated d_2D).
Proof.
  apply (proj1 (full_tensor_copy_reconstructs σ_2D 0 0 d_2D eq_refl eq_refl));
    [left; reflexivity|reflexivity|reflexivity|reflexivity].
Defined.

Lemma what_am_i_names_the_kind_witness :
  GenTensor_what_am_i 0 σ_2D = Done "LowRank-2D"%string σ_2D /\
  (σ_2D = σ_2D /\
   (("LowRank-2D"%string = "FullRank"%string /\ kind σ_2D 0 = Some TT_FULL) \/
    ("LowRank-2D"%string = "LowRank-2D"%string /\ kind σ_2D 0 = Some TT_2D) \/
    ("LowRank-2D"%string = "LowRank-3D"%string /\ kind σ_2D 0 = Some TT_3D))).
Proof.
  split; [reflexivity|].
  apply (what_am_i_names_the_kind σ_2D σ_2D 0 "LowRank-2D"). reflexivity.
Defined.

Lemma dense_has_no_rank_witness :
  GenTensor_rank 0 σ_mixed = Done (-1) σ_mixed /\
  (forall eps : Z, GenTensor_reduceRank 0 eps σ_mixed = Done tt σ_mixed) /\
  GenTensor_finalize_accumulate 0 σ_mixed = Done tt σ_mixed.
Proof.
  apply (dense_has_no_rank σ_mixed 0 0 (mkTensor (Some 0%nat) 0 [(2%nat, 1)]));
    reflexivity.
Defined.
